(** * BlockChain.js: the hash-linked voting ledger

    A shallow embedding of [src/BlockChain.js] (an Express server backed by
    a MongoDB collection of blocks) and the properties of its ledger core:
    [createHash], [isBlockValid], [validateChain], [getUserRole],
    [canUserVote], [addBlock] and the request handlers built on them.

    Conventions of the model.
    - A JavaScript string is a [string] holding its UTF-8 bytes. Only
      well-formed strings have such a form: a string with an unpaired
      surrogate (which [JSON.stringify] escapes and the database driver
      replaces by U+FFFD) is outside the model.
    - A JavaScript number is an integer [Z] that a double holds exactly
      (of magnitude at most 2^53 - 1): the server never computes with
      other numbers; they could only occur inside request payloads.
    - A [Date] is [VDate (Some ms)], the invalid date is [VDate None]; the
      time zone of the server is UTC.
    - A plain object is the list of its own properties in enumeration order.
    - The [blocks] collection is the list of its documents in insertion
      order; a document read back from the collection is the stored form
      ([to_bson]) of the inserted object, with its [_id] in front.
    - An asynchronous function is a tree of operations ([prog]); a handler
      running alone is described by [run], handlers running concurrently
      by [interleave], which lets them take turns at every [await]. *)

From Stdlib Require Import ZArith Ascii String.
From stdpp Require Import base list strings sorting pretty.

Local Open Scope Z_scope.

(** ** SHA-256 (FIPS 180-4), on bytes given as integers in [0, 256) *)

Module SHA256.

Definition w32 (x : Z) : Z := x mod 2 ^ 32.

Definition add32 (x y : Z) : Z := w32 (x + y).

Definition rotr (n x : Z) : Z :=
  Z.lor (Z.shiftr x n) (w32 (Z.shiftl x (32 - n))).

Definition ch (x y z : Z) : Z :=
  Z.lxor (Z.land x y) (Z.land (Z.lxor x (2 ^ 32 - 1)) z).

Definition maj (x y z : Z) : Z :=
  Z.lxor (Z.lxor (Z.land x y) (Z.land x z)) (Z.land y z).

Definition bsig0 (x : Z) : Z := Z.lxor (Z.lxor (rotr 2 x) (rotr 13 x)) (rotr 22 x).
Definition bsig1 (x : Z) : Z := Z.lxor (Z.lxor (rotr 6 x) (rotr 11 x)) (rotr 25 x).
Definition ssig0 (x : Z) : Z := Z.lxor (Z.lxor (rotr 7 x) (rotr 18 x)) (Z.shiftr x 3).
Definition ssig1 (x : Z) : Z := Z.lxor (Z.lxor (rotr 17 x) (rotr 19 x)) (Z.shiftr x 10).

(** The round constants are the first 32 bits of the fractional parts of
    the cube roots of the first 64 primes, the initial state those of the
    square roots of the first 8 primes; both are computed here. *)

Definition primes : list Z :=
  [2; 3; 5; 7; 11; 13; 17; 19; 23; 29; 31; 37; 41; 43; 47; 53; 59; 61; 67;
   71; 73; 79; 83; 89; 97; 101; 103; 107; 109; 113; 127; 131; 137; 139;
   149; 151; 157; 163; 167; 173; 179; 181; 191; 193; 197; 199; 211; 223;
   227; 229; 233; 239; 241; 251; 257; 263; 269; 271; 277; 281; 283; 293;
   307; 311].

(** Integer cube root of [n], for [n < 2^(3*bits)], one bit at a time. *)
Fixpoint icbrt (bits : nat) (n r : Z) : Z :=
  match bits with
  | O => r
  | S b =>
      let c := r + 2 ^ Z.of_nat b in
      icbrt b n (if c * c * c <=? n then c else r)
  end.

Definition frac_cbrt (p : Z) : Z := w32 (icbrt 36 (p * 2 ^ 96) 0).
Definition frac_sqrt (p : Z) : Z := w32 (Z.sqrt (p * 2 ^ 64)).

Definition K : list Z := Eval vm_compute in map frac_cbrt primes.
Definition H0 : list Z := Eval vm_compute in map frac_sqrt (take 8 primes).

(** Padding: a 1 bit, zeros up to 56 mod 64 bytes, the bit length on 8
    bytes, big endian. *)

Fixpoint be_bytes (n : nat) (x : Z) : list Z :=
  match n with
  | O => []
  | S k => (x / 256 ^ Z.of_nat k) mod 256 :: be_bytes k x
  end.

Definition pad (msg : list Z) : list Z :=
  let len := Z.of_nat (length msg) in
  let zeros := Z.to_nat ((55 - len) mod 64) in
  msg ++ 128 :: replicate zeros 0 ++ be_bytes 8 (8 * len).

(** Big-endian 32-bit words of a byte sequence (the padded message has a
    length that is a multiple of 4; a short tail is dropped). *)
Fixpoint words (bs : list Z) : list Z :=
  match bs with
  | a :: b :: c :: d :: rest =>
      (((a * 256 + b) * 256 + c) * 256 + d) :: words rest
  | _ => []
  end.

Definition nth_word (l : list Z) (i : nat) : Z := default 0 (l !! i).

(** The message schedule: the 16 words of the chunk, extended to 64. *)
Fixpoint extend (n : nat) (ws : list Z) : list Z :=
  match n with
  | O => ws
  | S k =>
      let t := length ws in
      let x := add32 (add32 (ssig1 (nth_word ws (t - 2))) (nth_word ws (t - 7)))
                     (add32 (ssig0 (nth_word ws (t - 15))) (nth_word ws (t - 16))) in
      extend k (ws ++ [x])
  end.

Record regs := Regs { ra : Z; rb : Z; rc : Z; rd : Z; re : Z; rf : Z; rg : Z; rh : Z }.

Definition round (s : regs) (kw : Z * Z) : regs :=
  let t1 := add32 (add32 (add32 (rh s) (bsig1 (re s)))
                         (add32 (ch (re s) (rf s) (rg s)) (fst kw))) (snd kw) in
  let t2 := add32 (bsig0 (ra s)) (maj (ra s) (rb s) (rc s)) in
  Regs (add32 t1 t2) (ra s) (rb s) (rc s) (add32 (rd s) t1) (re s) (rf s) (rg s).

Definition compress (s : regs) (chunk : list Z) : regs :=
  let s' := fold_left round (zip K (extend 48 chunk)) s in
  Regs (add32 (ra s) (ra s')) (add32 (rb s) (rb s')) (add32 (rc s) (rc s'))
       (add32 (rd s) (rd s')) (add32 (re s) (re s')) (add32 (rf s) (rf s'))
       (add32 (rg s) (rg s')) (add32 (rh s) (rh s')).

Fixpoint chunks (fuel : nat) (ws : list Z) : list (list Z) :=
  match fuel, ws with
  | S k, _ :: _ => take 16 ws :: chunks k (drop 16 ws)
  | _, _ => []
  end.

Definition init : regs :=
  Regs (nth_word H0 0) (nth_word H0 1) (nth_word H0 2) (nth_word H0 3)
       (nth_word H0 4) (nth_word H0 5) (nth_word H0 6) (nth_word H0 7).

Definition hash_words (msg : list Z) : list Z :=
  let ws := words (pad msg) in
  let s := fold_left compress (chunks (length ws) ws) init in
  [ra s; rb s; rc s; rd s; re s; rf s; rg s; rh s].

(** Lower-case hexadecimal, as [digest('hex')] prints it. *)

Definition hex_digit (d : Z) : ascii :=
  ascii_of_nat (Z.to_nat (if d <? 10 then 48 + d else 87 + d)).

Fixpoint hex (digits : nat) (x : Z) : string :=
  match digits with
  | O => EmptyString
  | S k => String (hex_digit ((x / 16 ^ Z.of_nat k) mod 16)) (hex k x)
  end.

Definition bytes_of_string (s : string) : list Z :=
  map (fun c => Z.of_nat (nat_of_ascii c)) (list_ascii_of_string s).

Definition hexdigest (s : string) : string :=
  String.concat EmptyString (map (hex 8) (hash_words (bytes_of_string s))).

End SHA256.

(** ** JavaScript values *)

Set Warnings "-register-all".

(** The values a block can hold. [VObjectId] is the driver's [ObjectId],
    given by its 24 hexadecimal digits. *)
Inductive value : Type :=
  | VUndefined
  | VNull
  | VBool (b : bool)
  | VNum (n : Z)
  | VStr (s : string)
  | VDate (t : option Z)
  | VObjectId (h : string)
  | VArr (l : list value)
  | VObj (l : list (string * value)).

(** A plain object: its own enumerable properties in enumeration order. *)
Abbreviation obj := (list (string * value)).

(** A block is a plain object (a document of the [blocks] collection). *)
Abbreviation block := (list (string * value)) (only parsing).

Local Open Scope string_scope.
Local Open Scope list_scope.

(** [o[k]]: the value of the property, [undefined] when there is none. *)
Fixpoint get (k : string) (o : obj) : value :=
  match o with
  | [] => VUndefined
  | (k', v) :: rest => if String.eqb k' k then v else get k rest
  end.

(** [k in o] for an own property. *)
Definition has_prop (k : string) (o : obj) : bool :=
  existsb (String.eqb k) (map fst o).

(** [v.k] on a value that is neither [null] nor [undefined]: a string, a
    number, a boolean or an array has no property of the names looked up
    here, so the result is [undefined] for them. *)
Definition prop (k : string) (v : value) : value :=
  match v with
  | VObj o => get k o
  | _ => VUndefined
  end.

(** [delete o[k]] *)
Definition delete_prop (k : string) (o : obj) : obj :=
  filter (fun p => p.1 <> k) o.

(** [Object.keys(o)] *)
Definition keys (o : obj) : list string := map fst o.

(** An array index is the canonical decimal form of an integer in
    [0, 2^32 - 2]; such property names are enumerated first, in numeric
    order, whatever the order of creation. *)
Definition is_digit (c : ascii) : bool :=
  let n := nat_of_ascii c in (48 <=? n)%nat && (n <=? 57)%nat.

Definition digits_value (s : string) : Z :=
  fold_left (fun acc c => 10 * acc + (Z.of_nat (nat_of_ascii c) - 48))
            (list_ascii_of_string s) 0%Z.

Definition is_array_index (s : string) : bool :=
  match s with
  | EmptyString => false
  | String c rest =>
      forallb is_digit (list_ascii_of_string s)
      && (negb (Ascii.eqb c "0") || String.eqb rest EmptyString)
      && (digits_value s <? 2 ^ 32 - 1)%Z
  end.

(** Where a new property named [k] goes in the enumeration order. *)
Fixpoint insert_prop (k : string) (v : value) (o : obj) : obj :=
  match o with
  | [] => [(k, v)]
  | (k', v') :: rest =>
      if is_array_index k
         && (negb (is_array_index k') || (digits_value k <? digits_value k')%Z)
      then (k, v) :: o
      else (k', v') :: insert_prop k v rest
  end.

Fixpoint replace_prop (k : string) (v : value) (o : obj) : obj :=
  match o with
  | [] => []
  | (k', v') :: rest =>
      if String.eqb k' k then (k, v) :: rest else (k', v') :: replace_prop k v rest
  end.

(** [o[k] = v] on a plain object. Assigning to ["__proto__"] goes to the
    inherited accessor and creates no own property. *)
Definition set_prop (k : string) (v : value) (o : obj) : obj :=
  if String.eqb k "__proto__" then o
  else if has_prop k o then replace_prop k v o
  else insert_prop k v o.

(** The truthiness of a value (every object, array and date is truthy). *)
Definition truthy (v : value) : bool :=
  match v with
  | VUndefined | VNull => false
  | VBool b => b
  | VNum n => negb (n =? 0)%Z
  | VStr s => negb (String.eqb s EmptyString)
  | _ => true
  end.

(** [a === b] between two values read from different places: primitives
    compare by value, two objects (arrays, dates, ObjectIds) are never the
    same reference. *)
Definition strict_eq (a b : value) : bool :=
  match a, b with
  | VUndefined, VUndefined => true
  | VNull, VNull => true
  | VBool x, VBool y => Bool.eqb x y
  | VNum x, VNum y => (x =? y)%Z
  | VStr x, VStr y => String.eqb x y
  | _, _ => false
  end.

Definition isArray (v : value) : bool :=
  match v with VArr _ => true | _ => false end.

(** ** Dates *)

Definition ms_per_day : Z := 86400000.

(** The civil date (year, month 1-12, day 1-31) of a day number counted
    from 1970-01-01, in the proleptic Gregorian calendar. *)
Definition civil_of_days (days : Z) : Z * Z * Z :=
  let z := (days + 719468)%Z in
  let era := (z / 146097)%Z in
  let doe := (z - era * 146097)%Z in
  let yoe := ((doe - doe / 1460 + doe / 36524 - doe / 146096) / 365)%Z in
  let doy := (doe - (365 * yoe + yoe / 4 - yoe / 100))%Z in
  let mp := ((5 * doy + 2) / 153)%Z in
  let d := (doy - (153 * mp + 2) / 5 + 1)%Z in
  let m := (if (mp <? 10)%Z then mp + 3 else mp - 9)%Z in
  let y := (yoe + era * 400 + (if (m <=? 2)%Z then 1 else 0))%Z in
  (y, m, d).

(** [n] in decimal on at least [width] digits ([n] non-negative). *)
Definition pad_num (width : nat) (n : Z) : string :=
  let s := pretty n in
  String.concat EmptyString (replicate (width - String.length s) "0") +:+ s.

Definition year_string (y : Z) : string :=
  if ((0 <=? y) && (y <=? 9999))%Z then pad_num 4 y
  else (if (y <? 0)%Z then "-" else "+") +:+ pad_num 6 (Z.abs y).

Definition time_string (t : Z) : string :=
  let r := (t mod ms_per_day)%Z in
  pad_num 2 (r / 3600000) +:+ ":" +:+ pad_num 2 (r / 60000 mod 60) +:+ ":"
  +:+ pad_num 2 (r / 1000 mod 60).

(** [Date.prototype.toISOString] of a valid time value. *)
Definition toISOString (t : Z) : string :=
  let '(y, m, d) := civil_of_days (t / ms_per_day) in
  year_string y +:+ "-" +:+ pad_num 2 m +:+ "-" +:+ pad_num 2 d +:+ "T"
  +:+ time_string t +:+ "." +:+ pad_num 3 (t mod 1000) +:+ "Z".

(** [Date.prototype.toString], for a server whose time zone is UTC. *)
Definition day_name (days : Z) : string :=
  default EmptyString
    (["Thu"; "Fri"; "Sat"; "Sun"; "Mon"; "Tue"; "Wed"] !! Z.to_nat (days mod 7)).

Definition month_name (m : Z) : string :=
  default EmptyString
    (["Jan"; "Feb"; "Mar"; "Apr"; "May"; "Jun"; "Jul"; "Aug"; "Sep"; "Oct";
      "Nov"; "Dec"] !! Z.to_nat (m - 1)).

Definition date_toString (t : option Z) : string :=
  match t with
  | None => "Invalid Date"
  | Some t =>
      let days := (t / ms_per_day)%Z in
      let '(y, m, d) := civil_of_days days in
      day_name days +:+ " " +:+ month_name m +:+ " " +:+ pad_num 2 d +:+ " "
      +:+ (if (y <? 0)%Z then "-" else EmptyString) +:+ pad_num 4 (Z.abs y) +:+ " "
      +:+ time_string t +:+ " GMT+0000 (Coordinated Universal Time)"
  end.

(** [String(v)], the conversion a template literal applies. *)
Fixpoint js_String (v : value) : string :=
  match v with
  | VUndefined => "undefined"
  | VNull => "null"
  | VBool b => if b then "true" else "false"
  | VNum n => pretty n
  | VStr s => s
  | VDate t => date_toString t
  | VObjectId h => h
  | VArr l =>
      String.concat ","
        (map (fun x => match x with
                       | VUndefined | VNull => EmptyString
                       | _ => js_String x
                       end) l)
  | VObj _ => "[object Object]"
  end.

(** [String(v)] where the conversion can throw ([None]), as a template
    literal or a property name applies it. An array is joined; a plain
    object is converted by the [toString] it inherits, and an own property
    of that name (never a function in a document or a request body) hides
    the inherited one, which makes the conversion a TypeError. *)
Fixpoint ToString (v : value) : option string :=
  match v with
  | VArr l =>
      (fix elements (l : list value) : option (list string) :=
         match l with
         | [] => Some []
         | x :: rest =>
             match match x with
                   | VUndefined | VNull => Some EmptyString
                   | _ => ToString x
                   end, elements rest with
             | Some s, Some ss => Some (s :: ss)
             | _, _ => None
             end
         end) l ≫= fun ss => Some (String.concat "," ss)
  | VObj o => if has_prop "toString" o then None else Some "[object Object]"
  | _ => Some (js_String v)
  end.

(** The message of the TypeError of a conversion that fails. *)
Definition conversion_error : string := "Cannot convert object to primitive value".

(** ** [JSON.stringify] *)

Definition dquote : string := String (ascii_of_nat 34) EmptyString.
Definition bslash : string := String (ascii_of_nat 92) EmptyString.

Definition json_escape (c : ascii) : string :=
  let n := nat_of_ascii c in
  if (n =? 34)%nat then bslash +:+ dquote
  else if (n =? 92)%nat then bslash +:+ bslash
  else if (n =? 8)%nat then bslash +:+ "b"
  else if (n =? 9)%nat then bslash +:+ "t"
  else if (n =? 10)%nat then bslash +:+ "n"
  else if (n =? 12)%nat then bslash +:+ "f"
  else if (n =? 13)%nat then bslash +:+ "r"
  else if (n <? 32)%nat then bslash +:+ "u" +:+ SHA256.hex 4 (Z.of_nat n)
  else String c EmptyString.

Definition json_quote (s : string) : string :=
  dquote +:+ String.concat EmptyString (map json_escape (list_ascii_of_string s))
  +:+ dquote.

(** A property whose value is [undefined] is left out of an object; in an
    array [undefined] is written as [null]. A number of the model is an
    integer printed in decimal, a string of the model is well formed and
    is written without any escape of a surrogate. *)
Definition is_undefined (v : value) : bool :=
  match v with VUndefined => true | _ => false end.

Fixpoint JSON_stringify (v : value) : string :=
  match v with
  | VUndefined | VNull => "null"
  | VBool b => if b then "true" else "false"
  | VNum n => pretty n
  | VStr s => json_quote s
  | VDate None => "null"
  | VDate (Some t) => json_quote (toISOString t)
  | VObjectId h => json_quote h
  | VArr l => "[" +:+ String.concat "," (map JSON_stringify l) +:+ "]"
  | VObj l =>
      "{" +:+ String.concat ","
                (flat_map (fun p => let '(k, x) := p in
                                    if is_undefined x then []
                                    else [json_quote k +:+ ":" +:+ JSON_stringify x]) l)
      +:+ "}"
  end.

(** ** Hashing a block *)

(** The order of [Array.prototype.sort()] without comparator, on property
    names: by UTF-16 code unit. On UTF-8 bytes this is the order of the
    bytes, except that a character above U+FFFF (first byte F0 to F4, in
    UTF-16 a pair that starts with a unit in D800-DBFF) comes before the
    characters from U+E000 to U+FFFF (first byte EE or EF). The bytes EE
    and EF are therefore compared as FE and FF, which no character uses. *)
Definition code_unit_rank (c : ascii) : ascii :=
  let n := nat_of_ascii c in
  if (n =? 238)%nat then ascii_of_nat 254
  else if (n =? 239)%nat then ascii_of_nat 255
  else if (n =? 254)%nat then ascii_of_nat 238
  else if (n =? 255)%nat then ascii_of_nat 239
  else c.

Fixpoint code_unit_key (s : string) : string :=
  match s with
  | EmptyString => EmptyString
  | String c rest => String (code_unit_rank c) (code_unit_key rest)
  end.

Definition key_le (a b : string) : Prop :=
  String.leb (code_unit_key a) (code_unit_key b) = true.

#[global] Instance key_le_dec : RelDecision key_le.
Proof. intros a b. unfold key_le. apply bool_eq_dec. Defined.

Definition createHash (block : obj) : string :=
  let blockForHashing := delete_prop "_id" (delete_prop "hash" block) in
  let orderedBlock :=
    fold_left (fun acc key => set_prop key (get key blockForHashing) acc)
              (merge_sort key_le (keys blockForHashing)) [] in
  SHA256.hexdigest (JSON_stringify (VObj orderedBlock)).

Definition isBlockValid (block : obj) : bool :=
  let calculatedHash := createHash block in
  strict_eq (get "hash" block) (VStr calculatedHash).

(** ** The chain validator (the part of [validateChain] after the read) *)

Record validation := Validation {
  valid : bool;
  message : string;
  blockIndex : option nat;
  error : option string
}.

(** What a check that fails at index [i] returns: the message is a
    template literal around [block._id], and when that conversion throws,
    the [catch] of [validateChain] answers instead. *)
Definition invalid (i : nat) (before : string) (_id : value) (after : string)
  : validation :=
  match ToString _id with
  | Some id => Validation false (before +:+ id +:+ after) (Some i) None
  | None =>
      Validation false "Помилка при валідації ланцюга" None (Some conversion_error)
  end.

(** The loop [for (let i = 1; i < blocks.length; i++)], from index [i] on,
    with the current value of the variable [previousHash]. *)
Fixpoint validateChain_loop (i : nat) (previousHash : value) (blocks : list block)
  : validation :=
  match blocks with
  | [] => Validation true "Ланцюг валідний" None None
  | block :: rest =>
      if negb (isBlockValid block) then
        invalid i "Невалідний блок: " (get "_id" block)
          ", хеш не відповідає вмісту"
      else if negb (strict_eq (get "previousHash" block) previousHash) then
        invalid i "Невалідний ланцюг: блок " (get "_id" block)
          " має неправильний попередній хеш"
      else validateChain_loop (S i) (get "hash" block) rest
  end.

Definition validateChain_body (blocks : list block) : validation :=
  match blocks with
  | [] => Validation true "Ланцюг порожній" None None
  | firstBlock :: rest =>
      if negb (isBlockValid firstBlock) then
        invalid 0 "Невалідний перший блок: " (get "_id" firstBlock)
          ", хеш не відповідає вмісту"
      else if negb (strict_eq (get "previousHash" firstBlock) (VStr "0")) then
        invalid 0 "Невалідний перший блок: " (get "_id" firstBlock)
          (", previousHash повинен бути " +:+ dquote +:+ "0" +:+ dquote)
      else validateChain_loop 1 (get "hash" firstBlock) rest
  end.

(** ** The collection *)

(** What the driver stores for a value: [undefined] becomes [null], the
    invalid date the epoch; everything else is stored as it is (a string
    of the model is well formed, so its UTF-8 form is what is stored and
    read back; an integer of the model is read back as the same number). *)
Fixpoint to_bson (v : value) : value :=
  match v with
  | VUndefined => VNull
  | VDate None => VDate (Some 0%Z)
  | VArr l => VArr (map to_bson l)
  | VObj l => VObj (map (fun p => let '(k, x) := p in (k, to_bson x)) l)
  | _ => v
  end.

Definition to_bson_doc (o : obj) : obj :=
  map (fun p => let '(k, x) := p in (k, to_bson x)) o.

(** The document stored for the object [b] under the identifier [id]. *)
Definition stored_doc (id : value) (b : obj) : block :=
  ("_id", id) :: delete_prop "_id" (to_bson_doc b).

(** The sort key of [sort({ creationDate: ±1 })]: the rank of the type in
    the comparison order of the database, then the value. Keys of one rank
    that are not numbers, booleans or dates are left unordered here, and so
    are arrays (they sort by one of their elements). *)
Definition sort_key (b : block) : option (Z * Z) :=
  match get "creationDate" b with
  | VUndefined | VNull => Some (1, 0)%Z
  | VNum n => Some (2, n)
  | VStr _ => Some (3, 0)%Z
  | VObj _ => Some (4, 0)%Z
  | VArr _ => None
  | VObjectId _ => Some (7, 0)%Z
  | VBool b => Some (8, if b then 1 else 0)%Z
  | VDate (Some t) => Some (9, t)
  | VDate None => None
  end.

Definition creationDate_le (a b : block) : Prop :=
  match sort_key a, sort_key b with
  | Some (r1, x1), Some (r2, x2) => (r1 < r2 \/ (r1 = r2 /\ x1 <= x2))%Z
  | _, _ => True
  end.

(** [find({}).sort({ creationDate: 1 }).toArray()]: every document once,
    in an order that agrees with the sort key. Documents with equal keys
    come in any order. *)
Definition sorted_read (st : list block) (l : list block) : Prop :=
  l ≡ₚ st /\ StronglySorted creationDate_le l.

(** [findOne({}, { sort: { creationDate: -1 } })]: a document with a
    greatest key, [null] on the empty collection. *)
Definition last_read (st : list block) (r : option block) : Prop :=
  match r with
  | None => st = []
  | Some b => b ∈ st /\ forall b', b' ∈ st -> creationDate_le b' b
  end.

(** Whether the field value [v] of a document satisfies the equality
    condition [q] of a filter. Only conditions on a string, a number, a
    boolean or [null] are modelled ([None] otherwise: an object would be a
    query operator). A field holding an array matches when an element does. *)
Definition field_matches (q v : value) : option bool :=
  match q with
  | VStr _ | VNum _ | VBool _ =>
      Some (strict_eq v q
            || match v with
               | VArr l => existsb (fun x => strict_eq x q) l
               | _ => false
               end)
  | VUndefined | VNull =>
      Some (match v with
            | VUndefined | VNull => true
            | VArr l => existsb (fun x => strict_eq x VNull) l
            | _ => false
            end)
  | _ => None
  end.

Fixpoint matches (filter : obj) (b : block) : option bool :=
  match filter with
  | [] => Some true
  | (k, q) :: rest =>
      match field_matches q (get k b), matches rest b with
      | Some x, Some y => Some (x && y)
      | _, _ => None
      end
  end.

(** [findOne(filter)]: a document that satisfies the filter, [null] when
    none does. *)
Definition findOne_read (filter : obj) (st : list block) (r : option block) : Prop :=
  match r with
  | None => forall b, b ∈ st -> matches filter b <> Some true
  | Some b => b ∈ st /\ matches filter b <> Some false
  end.

(** ** Asynchronous programs *)

(** How a promise settles. *)
Inductive outcome (A : Type) : Type :=
  | Resolved (a : A)
  | Rejected (e : string).
Arguments Resolved {A} a.
Arguments Rejected {A} e.

Record http_response := HttpResponse { resp_ok : bool; resp_status : Z }.

(** The operations a request handler waits for, and the clock. *)
Inductive op : Type -> Type :=
  | FindSortedAsc : op (list block)
      (* blocksCollection.find({}).sort({ creationDate: 1 }).toArray() *)
  | FindAll : op (list block)
      (* blocksCollection.find({}).toArray() *)
  | FindLast : op (option block)
      (* blocksCollection.findOne({}, { sort: { creationDate: -1 } }) *)
  | FindOne (filter : obj) : op (option block)
      (* blocksCollection.findOne(filter) *)
  | InsertOne (b : obj) : op value
      (* blocksCollection.insertOne(b); resolves to the [_id] of [b] *)
  | FindUser (userId : value) : op (option obj)
      (* usersCollection.findOne({ _id: new ObjectId(userId) }) *)
  | Fetch (path : string) : op http_response
      (* fetch(`${authServerUrl}` + path): a request to the authentication
         server the process was started with *)
  | ResponseJson (r : http_response) : op value
      (* response.json() *)
  | Now : op Z.
      (* new Date(), in milliseconds since the epoch *)

Inductive prog (R : Type) : Type :=
  | Ret (r : R)
  | Op {A : Type} (o : op A) (k : outcome A -> prog R).
Arguments Ret {R} r.
Arguments Op {R A} o k.

Fixpoint bind {R S : Type} (p : prog R) (f : R -> prog S) : prog S :=
  match p with
  | Ret r => f r
  | Op o k => Op o (fun x => bind (k x) f)
  end.

#[global] Instance prog_ret : MRet prog := @Ret.
#[global] Instance prog_bind : MBind prog := fun _ _ f p => bind p f.

(** [await o] inside a [try] whose [catch] block is [handler]. *)
Definition await {A R : Type} (o : op A) (handler : string -> prog R)
    (k : A -> prog R) : prog R :=
  Op o (fun out => match out with
                   | Resolved a => k a
                   | Rejected e => handler e
                   end).

(** The effect of one operation on the collection: the state before, how
    the promise settles, the state after. Reads leave the collection as it
    is; any operation on a database or on the network may be rejected, and
    then changes nothing; the users collection, the authentication server
    and the clock are outside the model and answer anything. *)
Definition op_sem {A : Type} (o : op A) (st : list block)
  : outcome A -> list block -> Prop :=
  match o in op A return outcome A -> list block -> Prop with
  | FindSortedAsc => fun out st' =>
      st' = st /\ match out with Resolved l => sorted_read st l | Rejected _ => True end
  | FindAll => fun out st' =>
      st' = st /\ match out with Resolved l => l ≡ₚ st | Rejected _ => True end
  | FindLast => fun out st' =>
      st' = st /\ match out with Resolved r => last_read st r | Rejected _ => True end
  | FindOne filter => fun out st' =>
      st' = st /\ match out with
                  | Resolved r => findOne_read filter st r
                  | Rejected _ => True
                  end
  | InsertOne b => fun out st' =>
      match out with
      | Resolved id =>
          match get "_id" b with
          | VUndefined | VNull => exists h, id = VObjectId h
          | given => id = given
          end
          /\ (forall d, d ∈ st -> get "_id" d <> to_bson id)
          /\ st' = st ++ [stored_doc (to_bson id) b]
      | Rejected _ => st' = st
      end
  | FindUser _ => fun _ st' => st' = st
  | Fetch _ => fun _ st' => st' = st
  | ResponseJson _ => fun _ st' => st' = st
  | Now => fun out st' =>
      st' = st /\ match out with Resolved _ => True | Rejected _ => False end
  end.

(** What a handler observed: each operation with the way it settled. *)
Inductive event : Type :=
  | EvFindSortedAsc (out : outcome (list block))
  | EvFindAll (out : outcome (list block))
  | EvFindLast (out : outcome (option block))
  | EvFindOne (filter : obj) (out : outcome (option block))
  | EvInsertOne (b : obj) (out : outcome value)
  | EvFindUser (userId : value) (out : outcome (option obj))
  | EvFetch (path : string) (out : outcome http_response)
  | EvResponseJson (r : http_response) (out : outcome value)
  | EvNow (out : outcome Z).

Definition event_of {A : Type} (o : op A) : outcome A -> event :=
  match o in op A return outcome A -> event with
  | FindSortedAsc => EvFindSortedAsc
  | FindAll => EvFindAll
  | FindLast => EvFindLast
  | FindOne filter => EvFindOne filter
  | InsertOne b => EvInsertOne b
  | FindUser userId => EvFindUser userId
  | Fetch path => EvFetch path
  | ResponseJson r => EvResponseJson r
  | Now => EvNow
  end.

(** A program run to completion with nothing else touching the
    collection: from [st], observing the events [tr], it returns [r] and
    leaves [st']. *)
Fixpoint run {R : Type} (p : prog R) (st : list block) (tr : list event)
    (r : R) (st' : list block) : Prop :=
  match p with
  | Ret x => tr = [] /\ r = x /\ st' = st
  | Op o k =>
      exists out st1 tr',
        tr = event_of o out :: tr' /\ op_sem o st out st1 /\ run (k out) st1 tr' r st'
  end.

(** Requests handled concurrently: each handler runs up to its next
    [await]; the operations of different handlers reach the collection in
    any order. One step performs the pending operation of one handler. *)
Definition task_step {R : Type} (p : prog R) (st : list block)
    (p' : prog R) (st' : list block) : Prop :=
  match p with
  | Ret _ => False
  | Op o k => exists out, op_sem o st out st' /\ p' = k out
  end.

Inductive interleave {R : Type}
  : list block -> list (prog R) -> list block -> list (prog R) -> Prop :=
  | interleave_done st pool : interleave st pool st pool
  | interleave_step st pool i p p' st1 st' pool' :
      pool !! i = Some p ->
      task_step p st p' st1 ->
      interleave st1 (<[i := p']> pool) st' pool' ->
      interleave st pool st' pool'.

(** ** The ledger operations *)

Definition validateChain : prog validation :=
  await FindSortedAsc
    (fun e => Ret (Validation false "Помилка при валідації ланцюга" None (Some e)))
    (fun blocks => Ret (validateChain_body blocks)).

Record add_result := AddResult {
  success : bool;
  added : option obj;          (* the field [block] *)
  add_error : option string;   (* the field [error] *)
  details : option validation
}.

Definition addBlock (newBlock : obj) : prog add_result :=
  let handler := fun _ : string =>
    Ret (AddResult false None (Some "Помилка сервера при додаванні блоку") None) in
  chainValidation ← validateChain;
  if negb (valid chainValidation) then
    Ret (AddResult false None
           (Some "Неможливо додати новий блок - ланцюг блоків пошкоджено")
           (Some chainValidation))
  else
    await FindLast handler (fun lastBlock =>
    let previousHash :=
      match lastBlock with Some b => get "hash" b | None => VStr "0" end in
    let newBlock := set_prop "previousHash" previousHash newBlock in
    await Now handler (fun now =>
    let newBlock := set_prop "creationDate" (VDate (Some now)) newBlock in
    let newBlock := set_prop "hash" (VStr (createHash newBlock)) newBlock in
    await (InsertOne newBlock) handler (fun id =>
    Ret (AddResult true (Some (set_prop "_id" id newBlock)) None None)))).

(** [process.env.AUTH_SERVER_URL || `https://registration-io.onrender.com`]:
    the address of the authentication server, read once when the process
    starts. The operation [Fetch] is a request to that server. *)
Definition authServerUrl (AUTH_SERVER_URL : option string) : string :=
  match AUTH_SERVER_URL with
  | Some url =>
      if String.eqb url EmptyString then "https://registration-io.onrender.com"
      else url
  | None => "https://registration-io.onrender.com"
  end.

(** The lookup [FindUser] includes [new ObjectId(userId)], which can throw.
    When no user is found, logging the identifier either succeeds or
    throws into the [catch], whose own template literal then throws too:
    the result is [null] both ways. *)
Definition getUserRole (userId : value) : prog value :=
  Op (FindUser userId) (fun found =>
    match found with
    | Resolved None => Ret VNull
    | Resolved (Some user) =>
        Ret (VObj [("userId", userId);
                   ("status", if truthy (get "status" user)
                              then get "status" user else VStr "user");
                   ("groupId", get "groupId" user)])
    | Rejected _ =>
        match ToString userId with
        | None => Ret VNull
        | Some id =>
            await (Fetch ("/user-role/" +:+ id))
              (fun _ => Ret VNull)
              (fun response =>
                 if resp_ok response
                 then await (ResponseJson response) (fun _ => Ret VNull) Ret
                 else Ret VNull)
        end
    end).

(** A time value: [None] is [NaN]. *)
Definition time_clip (n : Z) : option Z :=
  if (Z.abs n <=? 8640000000000000)%Z then Some n else None.

(** [a < b] and [a <= b] on time values; a comparison with [NaN] is false. *)
Definition time_lt (a b : option Z) : bool :=
  match a, b with Some x, Some y => (x <? y)%Z | _, _ => false end.

Definition time_le (a b : option Z) : bool :=
  match a, b with Some x, Some y => (x <=? y)%Z | _, _ => false end.

Record vote_check := VoteCheck {
  canVote : bool;
  check_message : option string;
  voteBlock : option obj
}.

Definition same_value_zero (a b : value) : bool := strict_eq a b.

(** [haystack.includes(needle)] on strings. *)
Fixpoint str_includes (needle haystack : string) : bool :=
  String.prefix needle haystack
  || match haystack with
     | EmptyString => false
     | String _ rest => str_includes needle rest
     end.

Record response := Response { status : Z; body : value }.

Definition error_body (e : string) : value := VObj [("error", VStr e)].

Definition validation_value (v : validation) : value :=
  VObj ([("valid", VBool (valid v)); ("message", VStr (message v))]
        ++ match blockIndex v with
           | Some i => [("blockIndex", VNum (Z.of_nat i))]
           | None => []
           end
        ++ match error v with
           | Some e => [("error", VStr e)]
           | None => []
           end).

Definition add_failure_body (r : add_result) : value :=
  VObj [("error", match add_error r with Some e => VStr e | None => VUndefined end);
        ("details", match details r with
                    | Some v => validation_value v
                    | None => VUndefined
                    end)].

Definition added_body (msg : string) (r : add_result) : value :=
  VObj [("message", VStr msg);
        ("block", match added r with Some b => VObj b | None => VUndefined end)].

Section Handlers.

(** [Date.parse] on a string: what it accepts beyond the ISO format
    depends on the engine, so it is a parameter. *)
Variable Date_parse : string -> option Z.

(** The time value of [new Date(v)], for a [v] that converts to a
    primitive: [new Date(v)] throws where [ToString v] does. *)
Definition newDate (v : value) : option Z :=
  match v with
  | VUndefined => None
  | VNull => Some 0%Z
  | VBool b => Some (if b then 1 else 0)%Z
  | VNum n => time_clip n
  | VDate t => t
  | VStr s => Date_parse s
  | _ => Date_parse (js_String v)
  end.

Definition canUserVote (userId voteId : value) : prog vote_check :=
  let handler := fun _ : string =>
    Ret (VoteCheck false (Some "Помилка сервера при перевірці права голосу") None) in
  userInfo ← getUserRole userId;
  if truthy userInfo && strict_eq (prop "status" userInfo) (VStr "admin") then
    Ret (VoteCheck false
           (Some "Адміністратори не можуть брати участь у голосуванні") None)
  else
    await (FindOne [("voterId", userId); ("voteId", voteId); ("type", VStr "vote")])
      handler (fun existingVote =>
    match existingVote with
    | Some _ =>
        Ret (VoteCheck false (Some "Ви вже віддали голос за це голосування") None)
    | None =>
        await (FindOne [("voteId", voteId); ("type", VStr "create_vote")])
          handler (fun voteBlock =>
        match voteBlock with
        | None => Ret (VoteCheck false (Some "Таке голосування не існує") None)
        | Some vb =>
            await Now handler (fun now =>
            match ToString (get "endDate" vb) with
            | None => handler conversion_error
            | Some _ =>
                if time_lt (newDate (get "endDate" vb)) (Some now) then
                  Ret (VoteCheck false (Some "Голосування вже закінчилося") None)
                else Ret (VoteCheck true None (Some vb))
            end)
        end)
    end).

(** The field [isActive] of the answer of [GET /results/:voteId], at the
    time [now]. *)
Definition results_isActive (voteBlock : obj) (now : Z) : bool :=
  time_lt (Some now) (newDate (get "endDate" voteBlock)).

(** [POST /create_vote] *)
Definition create_vote (reqBody : obj) : prog response :=
  let voteId := get "voteId" reqBody in
  let title := get "title" reqBody in
  let description := get "description" reqBody in
  let options := get "options" reqBody in
  let creatorId := get "creatorId" reqBody in
  let endDate := get "endDate" reqBody in
  let groupIds := get "groupIds" reqBody in
  let handler := fun _ : string =>
    Ret (Response 500 (error_body "Помилка при створенні голосування")) in
  if negb (truthy voteId) || negb (truthy title) || negb (truthy description)
     || negb (truthy options) || negb (truthy creatorId)
     || negb (isArray options)
     || match options with VArr [] => true | _ => false end
  then Ret (Response 400 (error_body "Не вистачає даних для створення голосування"))
  else
    userInfo ← getUserRole creatorId;
    if negb (truthy userInfo)
       || negb (strict_eq (prop "status" userInfo) (VStr "admin"))
    then Ret (Response 403
                (error_body "Тільки адміністратори можуть створювати голосування"))
    else
      await (FindOne [("voteId", voteId); ("type", VStr "create_vote")])
        handler (fun existingVote =>
      match existingVote with
      | Some _ => Ret (Response 400 (error_body "Це голосування вже існує"))
      | None =>
          await Now handler (fun currentDate =>
          let finish := fun finalEndDate : option Z =>
            let voteGroupIds :=
              match groupIds with
              | VArr (_ :: _) => groupIds
              | _ => VArr [VStr "all"]
              end in
            let newVoteBlock :=
              [("type", VStr "create_vote"); ("voteId", voteId);
               ("creatorId", creatorId); ("endDate", VDate finalEndDate);
               ("title", title); ("description", description);
               ("options", options); ("groupIds", voteGroupIds)] in
            result ← addBlock newVoteBlock;
            if success result
            then Ret (Response 200 (added_body "Голосування створено" result))
            else Ret (Response 500 (add_failure_body result)) in
          if truthy endDate then
            match ToString endDate with
            | None => handler conversion_error
            | Some _ =>
                let finalEndDate := newDate endDate in
                if time_le finalEndDate (Some currentDate)
                then Ret (Response 400
                            (error_body "Дата завершення повинна бути в майбутньому"))
                else finish finalEndDate
            end
          else
            await Now handler (fun today =>
            finish (time_clip (today + 30 * ms_per_day))))
      end).

(** [POST /vote] *)
Definition vote (reqBody : obj) : prog response :=
  let voterId := get "voterId" reqBody in
  let voteId := get "voteId" reqBody in
  let candidate := get "candidate" reqBody in
  let failure := Response 500 (error_body "Помилка при збереженні голосу") in
  if negb (truthy voterId) || negb (truthy voteId) || negb (truthy candidate)
  then Ret (Response 400 (error_body "Не вистачає даних для голосування"))
  else
    voteCheck ← canUserVote voterId voteId;
    if negb (canVote voteCheck) then
      Ret (Response 403
             (VObj [("error", match check_message voteCheck with
                              | Some m => VStr m
                              | None => VUndefined
                              end)]))
    else
      match voteBlock voteCheck with
      | None => Ret failure
      | Some vb =>
          let continue := fun included : bool =>
            if negb included then
              Ret (Response 400 (error_body "Невалідний варіант для голосування"))
            else
              let newVoteBlock :=
                [("type", VStr "vote"); ("voterId", voterId);
                 ("voteId", voteId); ("candidate", candidate)] in
              result ← addBlock newVoteBlock;
              if success result
              then Ret (Response 200 (added_body "Голос збережено" result))
              else Ret (Response 500 (add_failure_body result)) in
          match get "options" vb with
          | VArr l => continue (existsb (same_value_zero candidate) l)
          | VStr s =>
              match ToString candidate with
              | Some c => continue (str_includes c s)
              | None => Ret failure
              end
          | _ => Ret failure
          end
      end.

End Handlers.

(** [GET /chain], with [req.query.groupId]. *)
Definition chain_filter (userGroupId : value) (block : obj) : bool :=
  if negb (strict_eq (get "type" block) (VStr "create_vote")) then true
  else match get "groupIds" block with
       | VArr l =>
           existsb (same_value_zero (VStr "all")) l
           || existsb (same_value_zero userGroupId) l
       | _ => false
       end.

Definition chain (userGroupId : value) : prog response :=
  await FindAll
    (fun _ => Ret (Response 500 (error_body "Помилка отримання блокчейну")))
    (fun blocks =>
       if negb (truthy userGroupId) then Ret (Response 200 (VArr (map VObj blocks)))
       else Ret (Response 200
                   (VArr (map VObj (List.filter (chain_filter userGroupId) blocks))))).

(** ** The invariants of the specification *)

(** The three ways an entry can fail: I1 (the stored hash is not the
    digest of the content), I2 (the first entry does not link to the
    genesis sentinel), I3 (a later entry does not link to its predecessor). *)
Inductive failure : Type :=
  | HashMismatch
  | BadGenesisLink
  | BrokenLinkage.

(** I1 for one entry: the field [hash] holds the digest of the content. *)
Definition hash_is_digest (b : block) : bool :=
  match get "hash" b with
  | VStr h => String.eqb h (createHash b)
  | _ => false
  end.

Definition entry_failure (previous : option block) (b : block) : option failure :=
  if negb (hash_is_digest b) then Some HashMismatch
  else match previous with
       | None =>
           if strict_eq (get "previousHash" b) (VStr "0") then None
           else Some BadGenesisLink
       | Some p =>
           if strict_eq (get "previousHash" b) (get "hash" p) then None
           else Some BrokenLinkage
       end.

(** The failure of the entry at index [i] of an ordered sequence. *)
Definition failure_at (blocks : list block) (i : nat) : option failure :=
  match blocks !! i with
  | None => None
  | Some b =>
      entry_failure (match i with O => None | S j => blocks !! j end) b
  end.

(** The reason reported for a failure at index [i]. *)
Definition failure_message (i : nat) (f : failure) (b : block) : string :=
  match i, f with
  | O, HashMismatch =>
      "Невалідний перший блок: " +:+ js_String (get "_id" b)
      +:+ ", хеш не відповідає вмісту"
  | O, _ =>
      "Невалідний перший блок: " +:+ js_String (get "_id" b)
      +:+ ", previousHash повинен бути " +:+ dquote +:+ "0" +:+ dquote
  | S _, HashMismatch =>
      "Невалідний блок: " +:+ js_String (get "_id" b)
      +:+ ", хеш не відповідає вмісту"
  | S _, _ =>
      "Невалідний ланцюг: блок " +:+ js_String (get "_id" b)
      +:+ " має неправильний попередній хеш"
  end.

(** Whether a value can be printed: turned into a string, as a template
    literal or a property name requires. *)
Definition converts (v : value) : bool :=
  match ToString v with Some _ => true | None => false end.

(** What the validator answers when it cannot print the [_id] of the
    entry that fails. *)
Definition unprintable_failure : validation :=
  Validation false "Помилка при валідації ланцюга" None (Some conversion_error).

(** What the validator reports for the failure [f] of the entry [b] at
    index [i]. *)
Definition failure_report (i : nat) (f : failure) (b : block) : validation :=
  if converts (get "_id" b)
  then Validation false (failure_message i f b) (Some i) None
  else unprintable_failure.


(** Two values with the same content: equal up to the order of the
    properties of objects, at any depth; arrays keep their order. *)
Inductive same_content : value -> value -> Prop :=
  | same_atom v : same_content v v
  | same_array l1 l2 :
      Forall2 same_content l1 l2 -> same_content (VArr l1) (VArr l2)
  | same_object l1 l2 l2' :
      l2' ≡ₚ l2 ->
      Forall2 (fun p q => p.1 = q.1 /\ same_content p.2 q.2) l1 l2' ->
      same_content (VObj l1) (VObj l2).

(** Hash determinism as the specification words it: object-like fields
    are order-normalized at every depth. *)
Definition hash_normalizes_nested_objects : Prop :=
  forall b1 b2 : block,
    NoDup (keys b1) -> same_content (VObj b1) (VObj b2) ->
    createHash b1 = createHash b2.

(** The block [addBlock] hands to [insertOne]: the payload with its
    [previousHash] (the hash of the block found last, or the genesis
    sentinel), its [creationDate] (the clock value read) and its [hash]. *)
Definition block_to_insert (newBlock : obj) (lastBlock : option block) (now : Z) : obj :=
  let previousHash :=
    match lastBlock with Some b => get "hash" b | None => VStr "0" end in
  let dated :=
    set_prop "creationDate" (VDate (Some now))
      (set_prop "previousHash" previousHash newBlock) in
  set_prop "hash" (VStr (createHash dated)) dated.

Definition chain_corrupted (diagnosis : validation) : add_result :=
  AddResult false None
    (Some "Неможливо додати новий блок - ланцюг блоків пошкоджено")
    (Some diagnosis).

Definition add_server_error : add_result :=
  AddResult false None (Some "Помилка сервера при додаванні блоку") None.

Definition validation_read_error (e : string) : validation :=
  Validation false "Помилка при валідації ланцюга" None (Some e).

(** The ways [addBlock] can run. *)
Inductive addBlock_run (newBlock : obj) (st : list block)
  : list event -> add_result -> list block -> Prop :=
  | add_read_rejected e :
      addBlock_run newBlock st [EvFindSortedAsc (Rejected e)]
        (chain_corrupted (validation_read_error e)) st
  | add_chain_invalid l :
      sorted_read st l ->
      valid (validateChain_body l) = false ->
      addBlock_run newBlock st [EvFindSortedAsc (Resolved l)]
        (chain_corrupted (validateChain_body l)) st
  | add_last_rejected l e :
      sorted_read st l ->
      valid (validateChain_body l) = true ->
      addBlock_run newBlock st
        [EvFindSortedAsc (Resolved l); EvFindLast (Rejected e)]
        add_server_error st
  | add_insert_rejected l lastBlock now e :
      sorted_read st l ->
      valid (validateChain_body l) = true ->
      last_read st lastBlock ->
      addBlock_run newBlock st
        [EvFindSortedAsc (Resolved l); EvFindLast (Resolved lastBlock);
         EvNow (Resolved now);
         EvInsertOne (block_to_insert newBlock lastBlock now) (Rejected e)]
        add_server_error st
  | add_inserted l lastBlock now id :
      sorted_read st l ->
      valid (validateChain_body l) = true ->
      last_read st lastBlock ->
      op_sem (InsertOne (block_to_insert newBlock lastBlock now)) st (Resolved id)
        (st ++ [stored_doc (to_bson id) (block_to_insert newBlock lastBlock now)]) ->
      addBlock_run newBlock st
        [EvFindSortedAsc (Resolved l); EvFindLast (Resolved lastBlock);
         EvNow (Resolved now);
         EvInsertOne (block_to_insert newBlock lastBlock now) (Resolved id)]
        (AddResult true
           (Some (set_prop "_id" id (block_to_insert newBlock lastBlock now)))
           None None)
        (st ++ [stored_doc (to_bson id) (block_to_insert newBlock lastBlock now)]).


(** The value [addBlock] gives to [previousHash]. *)
Definition previous_hash_of (lastBlock : option block) : value :=
  match lastBlock with Some b => get "hash" b | None => VStr "0" end.

(** The ordering key of a block when it is a valid date. *)
Definition date_of (b : block) : option Z :=
  match get "creationDate" b with
  | VDate (Some t) => Some t
  | _ => None
  end.

Definition dated_before (a b : block) : Prop :=
  exists ta tb, date_of a = Some ta /\ date_of b = Some tb /\ (ta < tb)%Z.

(** Every document has a date, strictly later than the dates of the
    documents inserted before it. *)
Definition strictly_dated (st : list block) : Prop :=
  StronglySorted dated_before st /\ Forall (fun b => is_Some (date_of b)) st.

(** A payload that the collection gives back as it was inserted. *)
Definition storable (newBlock : obj) : Prop := to_bson_doc newBlock = newBlock.

(** The collections built from the empty one by calls of [addBlock] that
    run one after the other. *)
Inductive sequentially_built : list block -> Prop :=
  | built_empty : sequentially_built []
  | built_append st newBlock tr r st' :
      sequentially_built st ->
      storable newBlock ->
      run (addBlock newBlock) st tr r st' ->
      sequentially_built st'.

(** Round-trip validity as the specification words it: whatever the
    clock, a chain built by sequential appends validates. *)
Definition sequential_chain_always_valid : Prop :=
  forall st, sequentially_built st ->
    forall l, sorted_read st l -> valid (validateChain_body l) = true.

(** The ordering key as the specification words it: strictly increasing
    along the appends, so that the entries are never ambiguously ordered. *)
Definition ordering_key_is_strict_clock : Prop :=
  forall st, sequentially_built st ->
    strictly_dated st
    /\ forall l1 l2, sorted_read st l1 -> sorted_read st l2 -> l1 = l2.

(** Linearizable appends as the specification words them: of two appends
    that race, at most one succeeds in extending a given tail. *)
Definition racing_appends_exclusive : Prop :=
  forall (b1 b2 : obj) (st st' : list block) (r1 r2 : add_result) (d1 d2 : obj),
    interleave st [addBlock b1; addBlock b2] st' [Ret r1; Ret r2] ->
    success r1 = true -> success r2 = true ->
    added r1 = Some d1 -> added r2 = Some d2 ->
    get "previousHash" d1 <> get "previousHash" d2.

(** ** Example data *)

(** Two requests to create a vote whose titles are the same object up to
    the order of its properties, as blocks ready for hashing. *)
Definition titled_en_uk : block :=
  [("type", VStr "create_vote"); ("voteId", VStr "v1"); ("creatorId", VStr "a1");
   ("endDate", VDate (Some 1800000000000%Z));
   ("title", VObj [("en", VStr "Board"); ("uk", VStr "Рада")]);
   ("description", VStr "Election of the board");
   ("options", VArr [VStr "A"; VStr "B"]); ("groupIds", VArr [VStr "all"])].

Definition titled_uk_en : block :=
  [("type", VStr "create_vote"); ("voteId", VStr "v1"); ("creatorId", VStr "a1");
   ("endDate", VDate (Some 1800000000000%Z));
   ("title", VObj [("uk", VStr "Рада"); ("en", VStr "Board")]);
   ("description", VStr "Election of the board");
   ("options", VArr [VStr "A"; VStr "B"]); ("groupIds", VArr [VStr "all"])].

(** The vote v1 with its options in the other order. *)
Definition definition_v1_BA : obj :=
  [("type", VStr "create_vote"); ("voteId", VStr "v1"); ("creatorId", VStr "a1");
   ("endDate", VDate (Some 1800000000000%Z)); ("title", VStr "Board");
   ("description", VStr "Election of the board");
   ("options", VArr [VStr "B"; VStr "A"]); ("groupIds", VArr [VStr "all"])].

Definition ballot_reordered : block :=
  [("candidate", VStr "A"); ("voteId", VStr "v1"); ("type", VStr "vote");
   ("voterId", VStr "u1")].

Definition ballot_plain : block :=
  [("type", VStr "vote"); ("voterId", VStr "u1"); ("voteId", VStr "v1");
   ("candidate", VStr "A")].

(** A collection whose only block has been tampered with. *)
Definition tampered_block : block :=
  [("_id", VObjectId "65f000000000000000000001"); ("type", VStr "vote");
   ("voterId", VStr "u1"); ("voteId", VStr "v1"); ("candidate", VStr "B");
   ("previousHash", VStr "0"); ("creationDate", VDate (Some 1700000000000%Z));
   ("hash", VStr "ecd3bd9d8284da58e67029c51d658e2fa9c36135ac381d79cfc4b1931d687dd0")].


Definition definition_v1 : obj :=
  [("type", VStr "create_vote"); ("voteId", VStr "v1"); ("creatorId", VStr "a1");
   ("endDate", VDate (Some 1800000000000%Z)); ("title", VStr "Board");
   ("description", VStr "Election of the board");
   ("options", VArr [VStr "A"; VStr "B"]); ("groupIds", VArr [VStr "all"])].

(** The first entry, stored at the clock value [t]. *)
Definition entry0 (t : Z) : block :=
  stored_doc (VObjectId "65f000000000000000000001")
    (block_to_insert definition_v1 None t).

(** A ballot appended after [previous], at the clock value [t]. *)
Definition entry1 (previous : option block) (t : Z) : block :=
  stored_doc (VObjectId "65f000000000000000000002")
    (block_to_insert ballot_plain previous t).


(** ** Identity resolution *)

(** The path asked of the authentication server for a user whose
    identifier can be printed. *)
Definition role_url (userId : value) : string :=
  "/user-role/" +:+ js_String userId.

(** The ways [getUserRole] can run, with the value it returns. *)
Inductive getUserRole_run (userId : value) : list event -> value -> Prop :=
  | role_not_found :
      getUserRole_run userId [EvFindUser userId (Resolved None)] VNull
  | role_found user :
      getUserRole_run userId [EvFindUser userId (Resolved (Some user))]
        (VObj [("userId", userId);
               ("status", if truthy (get "status" user)
                          then get "status" user else VStr "user");
               ("groupId", get "groupId" user)])
  | role_unprintable e :
      converts userId = false ->
      getUserRole_run userId [EvFindUser userId (Rejected e)] VNull
  | role_api_unreachable e e' :
      converts userId = true ->
      getUserRole_run userId
        [EvFindUser userId (Rejected e); EvFetch (role_url userId) (Rejected e')]
        VNull
  | role_api_error e resp :
      converts userId = true ->
      resp_ok resp = false ->
      getUserRole_run userId
        [EvFindUser userId (Rejected e); EvFetch (role_url userId) (Resolved resp)]
        VNull
  | role_api_garbled e resp e' :
      converts userId = true ->
      resp_ok resp = true ->
      getUserRole_run userId
        [EvFindUser userId (Rejected e); EvFetch (role_url userId) (Resolved resp);
         EvResponseJson resp (Rejected e')]
        VNull
  | role_from_api e resp answer :
      converts userId = true ->
      resp_ok resp = true ->
      getUserRole_run userId
        [EvFindUser userId (Rejected e); EvFetch (role_url userId) (Resolved resp);
         EvResponseJson resp (Resolved answer)]
        answer.

(** Identity resolution fails to produce a role: the user is not found,
    or the direct lookup fails and the authentication server cannot be
    asked (the identifier cannot be printed), cannot be reached, answers
    with an error status, or sends no readable answer. *)
Inductive resolution_failure (userId : value) : list event -> Prop :=
  | failure_not_found :
      resolution_failure userId [EvFindUser userId (Resolved None)]
  | failure_unprintable e :
      converts userId = false ->
      resolution_failure userId [EvFindUser userId (Rejected e)]
  | failure_api_unreachable e e' :
      resolution_failure userId
        [EvFindUser userId (Rejected e); EvFetch (role_url userId) (Rejected e')]
  | failure_api_error e resp :
      resp_ok resp = false ->
      resolution_failure userId
        [EvFindUser userId (Rejected e); EvFetch (role_url userId) (Resolved resp)]
  | failure_api_garbled e resp e' :
      resp_ok resp = true ->
      resolution_failure userId
        [EvFindUser userId (Rejected e); EvFetch (role_url userId) (Resolved resp);
         EvResponseJson resp (Rejected e')].

(** The checks of [canUserVote] that follow the test of the role. *)
Definition remaining_checks (Date_parse : string -> option Z) (userId voteId : value)
  : prog vote_check :=
  let handler := fun _ : string =>
    Ret (VoteCheck false (Some "Помилка сервера при перевірці права голосу") None) in
  await (FindOne [("voterId", userId); ("voteId", voteId); ("type", VStr "vote")])
    handler (fun existingVote =>
  match existingVote with
  | Some _ =>
      Ret (VoteCheck false (Some "Ви вже віддали голос за це голосування") None)
  | None =>
      await (FindOne [("voteId", voteId); ("type", VStr "create_vote")])
        handler (fun voteBlock =>
      match voteBlock with
      | None => Ret (VoteCheck false (Some "Таке голосування не існує") None)
      | Some vb =>
          await Now handler (fun now =>
          match ToString (get "endDate" vb) with
          | None => handler conversion_error
          | Some _ =>
              if time_lt (newDate Date_parse (get "endDate" vb)) (Some now) then
                Ret (VoteCheck false (Some "Голосування вже закінчилося") None)
              else Ret (VoteCheck true None (Some vb))
          end)
      end)
  end).

(** Failing closed as the specification words it, for the ballot: a
    request whose identity resolution fails stores nothing and is not
    answered with success. *)
Definition ballot_fails_closed : Prop :=
  forall (Date_parse : string -> option Z) (reqBody : obj) (st : list block)
         (tr_role tr_rest : list event) (r : response) (st' : list block),
    run (vote Date_parse reqBody) st (tr_role ++ tr_rest) r st' ->
    resolution_failure (get "voterId" reqBody) tr_role ->
    st' = st /\ status r <> 200%Z.

Definition ballot_filter (userId voteId : value) : obj :=
  [("voterId", userId); ("voteId", voteId); ("type", VStr "vote")].

Definition definition_filter (voteId : value) : obj :=
  [("voteId", voteId); ("type", VStr "create_vote")].

Definition admins_cannot_vote : vote_check :=
  VoteCheck false (Some "Адміністратори не можуть брати участь у голосуванні") None.

(** A request to vote for candidate A in the vote v1, by the user u1. *)
Definition vote_request : obj :=
  [("voterId", VStr "u1"); ("voteId", VStr "v1"); ("candidate", VStr "A")].

(** The request that creates the vote v1. *)
Definition create_request : obj :=
  [("voteId", VStr "v1"); ("title", VStr "Board");
   ("description", VStr "Election of the board");
   ("options", VArr [VStr "A"; VStr "B"]); ("creatorId", VStr "a1");
   ("endDate", VNum 1800000000000)].

(** A date parser that accepts nothing (the examples hold no date string). *)
Definition parse_nothing (s : string) : option Z := None.

(** ** Uniqueness *)

Definition is_definition_of (v : string) (b : block) : Prop :=
  get "type" b = VStr "create_vote" /\ get "voteId" b = VStr v.

Definition is_ballot_of (u v : string) (b : block) : Prop :=
  get "type" b = VStr "vote" /\ get "voterId" b = VStr u /\ get "voteId" b = VStr v.

(** I4 and I5: at most one vote definition per vote, at most one ballot
    per voter and vote. *)
Definition unique_entries (st : list block) : Prop :=
  (forall i j bi bj v,
      st !! i = Some bi -> st !! j = Some bj ->
      is_definition_of v bi -> is_definition_of v bj -> i = j)
  /\ (forall i j bi bj u v,
        st !! i = Some bi -> st !! j = Some bj ->
        is_ballot_of u v bi -> is_ballot_of u v bj -> i = j).

(** The collections reached from the empty one by requests to create a
    vote and to cast a ballot (with identifiers that are strings), each
    handled to its end before the next one starts. *)
Inductive handled_in_turn (Date_parse : string -> option Z) : list block -> Prop :=
  | handled_none : handled_in_turn Date_parse []
  | handled_create st reqBody v tr r st' :
      handled_in_turn Date_parse st ->
      get "voteId" reqBody = VStr v ->
      run (create_vote Date_parse reqBody) st tr r st' ->
      handled_in_turn Date_parse st'
  | handled_vote st reqBody u v tr r st' :
      handled_in_turn Date_parse st ->
      get "voterId" reqBody = VStr u ->
      get "voteId" reqBody = VStr v ->
      run (vote Date_parse reqBody) st tr r st' ->
      handled_in_turn Date_parse st'.

(** Uniqueness as the specification words it: it holds in every state,
    also when two requests are handled concurrently. *)
Definition uniqueness_enforced_at_commit : Prop :=
  forall (Date_parse : string -> option Z) (st : list block)
         (body1 body2 : obj) (u1 v1 u2 v2 : string)
         (st' : list block) (pool' : list (prog response)),
    handled_in_turn Date_parse st ->
    get "voterId" body1 = VStr u1 -> get "voteId" body1 = VStr v1 ->
    get "voterId" body2 = VStr u2 -> get "voteId" body2 = VStr v2 ->
    interleave st [vote Date_parse body1; vote Date_parse body2] st' pool' ->
    unique_entries st'.

(** The second ballot of the user u1 in the vote v1. *)
Definition entry2 (previous : option block) (t : Z) : block :=
  stored_doc (VObjectId "65f000000000000000000003")
    (block_to_insert ballot_plain previous t).

(** The definition of a vote that only the group g2 may see, as the
    collection gives it back. *)
Definition private_definition : block :=
  [("_id", VObjectId "65f000000000000000000009"); ("type", VStr "create_vote");
   ("voteId", VStr "v9"); ("creatorId", VStr "a1");
   ("endDate", VDate (Some 1800000000000%Z)); ("title", VStr "Budget");
   ("description", VStr "Budget of the group");
   ("options", VArr [VStr "yes"; VStr "no"]); ("groupIds", VArr [VStr "g2"]);
   ("previousHash", VStr "0"); ("creationDate", VDate (Some 1600000000000%Z));
   ("hash", VStr "00")].

(** A collection that holds this definition, the definition of v1 (open
    to all) and a ballot. *)
Definition listing_store : list block :=
  [private_definition; entry0 1700000000000;
   entry1 (Some (entry0 1700000000000)) 1700000000001].

(** The answer to [GET /chain?groupId=g1] on that collection, read in
    the order of insertion. *)
Definition listing_for_g1 : response :=
  Response 200
    (VArr [VObj (entry0 1700000000000);
           VObj (entry1 (Some (entry0 1700000000000)) 1700000000001)]).

(** ** The read-only endpoints *)

(** [GET /validate]. [validateChain] catches what its read throws, so the
    [catch] of the handler is never entered. *)
Definition validate : prog response :=
  validationResult ← validateChain;
  Ret (Response 200 (validation_value validationResult)).

(** One entry of the listing of [GET /debug/chain]. *)
Definition debug_entry (block : obj) : value :=
  VObj [("_id", get "_id" block); ("type", get "type" block);
        ("voteId", get "voteId" block);
        ("creationDate", get "creationDate" block);
        ("previousHash", get "previousHash" block);
        ("hash", get "hash" block);
        ("isValidHash",
         VBool (strict_eq (VStr (createHash block)) (get "hash" block)))].

(** [GET /debug/chain] *)
Definition debug_chain : prog response :=
  await FindSortedAsc
    (fun e => Ret (Response 500
                     (VObj [("error", VStr "Помилка при отриманні дебаг-інформації");
                            ("details", VStr e)])))
    (fun blocks =>
       Ret (Response 200
              (VObj [("blockCount", VNum (Z.of_nat (length blocks)));
                     ("blocks", VArr (map debug_entry blocks))]))).

(** ** The results of a vote *)

(** The value of a property of the object [results]: a count, or [NaN]. *)
Inductive count : Type :=
  | Count (n : Z)
  | NaN.

(** The object [results]: its own properties in enumeration order. *)
Abbreviation tally := (list (string * count)).

Fixpoint own_count (k : string) (o : tally) : option count :=
  match o with
  | [] => None
  | (k', c) :: rest => if String.eqb k' k then Some c else own_count k rest
  end.

(** Where a new property goes, as for [insert_prop]. *)
Fixpoint insert_count (k : string) (c : count) (o : tally) : tally :=
  match o with
  | [] => [(k, c)]
  | (k', c') :: rest =>
      if is_array_index k
         && (negb (is_array_index k') || (digits_value k <? digits_value k')%Z)
      then (k, c) :: o
      else (k', c') :: insert_count k c rest
  end.

Fixpoint replace_count (k : string) (c : count) (o : tally) : tally :=
  match o with
  | [] => []
  | (k', c') :: rest =>
      if String.eqb k' k then (k, c) :: rest else (k', c') :: replace_count k c rest
  end.

(** [results[k] = c]. A number assigned to ["__proto__"] is dropped by the
    inherited setter. *)
Definition set_count (k : string) (c : count) (o : tally) : tally :=
  if String.eqb k "__proto__" then o
  else match own_count k o with
       | Some _ => replace_count k c o
       | None => insert_count k c o
       end.

(** The properties every plain object inherits from [Object.prototype];
    read through [results], each is a function (["__proto__"] is the
    prototype itself), never [undefined]. *)
Definition Object_prototype : list string :=
  ["constructor"; "__defineGetter__"; "__defineSetter__"; "hasOwnProperty";
   "__lookupGetter__"; "__lookupSetter__"; "isPrototypeOf";
   "propertyIsEnumerable"; "toString"; "valueOf"; "__proto__";
   "toLocaleString"].

(** [array.forEach(f)] for a callback that updates [results] or throws. *)
Fixpoint forEach {A : Type} (f : tally -> A -> option tally) (array : list A)
    (results : tally) : option tally :=
  match array with
  | [] => Some results
  | x :: rest =>
      match f results x with
      | Some results' => forEach f rest results'
      | None => None
      end
  end.

(** [results[option] = 0] *)
Definition tally_option (results : tally) (opt : value) : option tally :=
  key ← ToString opt;
  Some (set_count key (Count 0) results).

(** [if (results[vote.candidate] !== undefined) results[vote.candidate]++].
    An inherited property is not [undefined]; incrementing it gives [NaN],
    stored as an own property. *)
Definition tally_vote (results : tally) (vote : block) : option tally :=
  key ← ToString (get "candidate" vote);
  match own_count key results with
  | Some (Count n) => Some (set_count key (Count (n + 1)) results)
  | Some NaN => Some (set_count key NaN results)
  | None =>
      if bool_decide (key ∈ Object_prototype)
      then Some (set_count key NaN results)
      else Some results
  end.

(** The two loops of [GET /results/:voteId]: [results] once the options,
    then the ballots, have been gone through. *)
Definition tally_of (options : list value) (votes : list block) : option tally :=
  forEach tally_option options [] ≫= forEach tally_vote votes.

Record results_answer := ResultsAnswer {
  answer_voteId : string;
  answer_title : value;
  answer_totalVotes : Z;
  answer_results : tally;
  answer_isActive : bool
}.

Inductive results_response : Type :=
  | ResultsOk (answer : results_answer)
  | ResultsFailed (code : Z) (failure : value).



(** [GET /results/:voteId], as a function of the way its two reads settle
    ([findOne] for the definition, [find] for the ballots) and of the
    clock. [new Date(voteBlock.endDate)] converts an object that is not a
    date as [ToString] does. *)
Definition results (Date_parse : string -> option Z) (voteId : string)
    (voteBlock : outcome (option block)) (votes : outcome (list block)) (now : Z)
  : results_response :=
  let failed :=
    ResultsFailed 500 (error_body "Помилка при отриманні результатів голосування") in
  match voteBlock with
  | Rejected _ => failed
  | Resolved None => ResultsFailed 404 (error_body "Таке голосування не існує")
  | Resolved (Some voteBlock) =>
      match votes with
      | Rejected _ => failed
      | Resolved votes =>
          match get "options" voteBlock with
          | VArr options =>
              match tally_of options votes,
                    ToString (get "endDate" voteBlock) with
              | Some results, Some _ =>
                  ResultsOk
                    (ResultsAnswer voteId (get "title" voteBlock)
                       (Z.of_nat (length votes)) results
                       (results_isActive Date_parse voteBlock now))
              | _, _ => failed
              end
          | _ => failed
          end
      end
  end.

(** ** What the handlers append *)

(** The block [newVoteBlock] of [POST /create_vote], with the end date
    the handler settled on. *)
Definition new_definition (reqBody : obj) (finalEndDate : option Z) : obj :=
  [("type", VStr "create_vote"); ("voteId", get "voteId" reqBody);
   ("creatorId", get "creatorId" reqBody); ("endDate", VDate finalEndDate);
   ("title", get "title" reqBody); ("description", get "description" reqBody);
   ("options", get "options" reqBody);
   ("groupIds", match get "groupIds" reqBody with
                | VArr (_ :: _) => get "groupIds" reqBody
                | _ => VArr [VStr "all"]
                end)].

(** The block [newVoteBlock] of [POST /vote]. *)
Definition new_ballot (reqBody : obj) : obj :=
  [("type", VStr "vote"); ("voterId", get "voterId" reqBody);
   ("voteId", get "voteId" reqBody); ("candidate", get "candidate" reqBody)].

(** [voteBlock.options.includes(candidate)] when it does not throw
    ([options] is an array or a string). *)
Definition options_include (voteBlock : obj) (candidate : value) : bool :=
  match get "options" voteBlock with
  | VArr l => existsb (same_value_zero candidate) l
  | VStr s => str_includes (js_String candidate) s
  | _ => false
  end.

(** The end date [POST /create_vote] settles on: the date of the request
    when there is one, read against the clock value [currentDate]; 30
    days after a second clock value otherwise. [clock] is what the
    handler observes in between. *)
Definition end_date_chosen (Date_parse : string -> option Z) (reqBody : obj)
    (currentDate : Z) (clock : list event) (finalEndDate : option Z) : Prop :=
  if truthy (get "endDate" reqBody)
  then clock = []
       /\ finalEndDate = newDate Date_parse (get "endDate" reqBody)
       /\ time_le finalEndDate (Some currentDate) = false
  else exists today,
         clock = [EvNow (Resolved today)]
         /\ finalEndDate = time_clip (today + 30 * ms_per_day).

(** The request carries what [POST /create_vote] requires. *)
Definition complete_definition (reqBody : obj) : Prop :=
  truthy (get "voteId" reqBody) = true
  /\ truthy (get "title" reqBody) = true
  /\ truthy (get "description" reqBody) = true
  /\ truthy (get "creatorId" reqBody) = true
  /\ exists o os, get "options" reqBody = VArr (o :: os).

(** The statuses of a request that is turned down. *)
Definition refused (r : response) : Prop :=
  status r = 400 \/ status r = 403 \/ status r = 500.

(** The integers a double holds exactly. *)
Definition safe_integer (n : Z) : bool :=
  (Z.abs n <=? 2 ^ 53 - 1)%Z.

(** Well-formed UTF-8 (Unicode, table 3-7): the strings without an
    unpaired surrogate have such a form, and only they. [pending] bytes
    of the current character are still to come, the next of them between
    [lo] and [hi]. *)
Fixpoint well_formed_from (pending : nat) (lo hi : nat) (s : string) : bool :=
  match s with
  | EmptyString => (pending =? 0)%nat
  | String c rest =>
      let n := nat_of_ascii c in
      match pending with
      | O =>
          if (n <? 128)%nat then well_formed_from 0 128 191 rest
          else if ((194 <=? n) && (n <=? 223))%nat then well_formed_from 1 128 191 rest
          else if (n =? 224)%nat then well_formed_from 2 160 191 rest
          else if (n =? 237)%nat then well_formed_from 2 128 159 rest
          else if ((225 <=? n) && (n <=? 239))%nat then well_formed_from 2 128 191 rest
          else if (n =? 240)%nat then well_formed_from 3 144 191 rest
          else if ((241 <=? n) && (n <=? 243))%nat then well_formed_from 3 128 191 rest
          else if (n =? 244)%nat then well_formed_from 3 128 143 rest
          else false
      | S pending' =>
          ((lo <=? n) && (n <=? hi))%nat && well_formed_from pending' 128 191 rest
      end
  end.

Definition well_formed (s : string) : bool := well_formed_from 0 128 191 s.

(** A value that the body parser can produce ([JSON.parse]) and that the
    model holds as it is: its numbers are integers that a double holds
    exactly, its strings and property names are well formed (a string
    with an unpaired surrogate, which the parser accepts as an escape, and
    a number with a fraction or an exponent are left out), and none of
    its objects has a property named [_bsontype], by which the driver
    tells the values of the database types from plain objects. *)
Fixpoint is_json (v : value) : bool :=
  match v with
  | VNull | VBool _ => true
  | VNum n => safe_integer n
  | VStr s => well_formed s
  | VArr l => forallb is_json l
  | VObj o =>
      negb (has_prop "_bsontype" o)
      && forallb (fun p => well_formed p.1 && is_json p.2) o
  | VUndefined | VDate _ | VObjectId _ => false
  end.

(** ** More example data *)

(** What the handler of [vote_request] observes when the user u1 is found
    and is an ordinary user, the collection holds the definition of v1,
    and the clock gives [now], then [t]. *)
Definition vote_request_events (t0 now t : Z) : list event :=
  ([EvFindUser (VStr "u1") (Resolved (Some [("status", VStr "user")]))]
   ++ [EvFindOne (ballot_filter (VStr "u1") (VStr "v1")) (Resolved None);
       EvFindOne (definition_filter (VStr "v1")) (Resolved (Some (entry0 t0)));
       EvNow (Resolved now)])
  ++ [EvFindSortedAsc (Resolved [entry0 t0]);
      EvFindLast (Resolved (Some (entry0 t0)));
      EvNow (Resolved t);
      EvInsertOne (block_to_insert ballot_plain (Some (entry0 t0)) t)
        (Resolved (VObjectId "65f000000000000000000002"))].

Definition vote_request_answer (t0 t : Z) : response :=
  Response 200
    (added_body "Голос збережено"
       (AddResult true
          (Some (set_prop "_id" (VObjectId "65f000000000000000000002")
                   (block_to_insert ballot_plain (Some (entry0 t0)) t)))
          None None)).

(** What the handler of [create_request] observes on the empty collection
    when a1 is found and is an administrator. *)
Definition create_request_events (now t0 : Z) : list event :=
  [EvFindUser (VStr "a1") (Resolved (Some [("status", VStr "admin")]))]
  ++ [EvFindOne (definition_filter (VStr "v1")) (Resolved None);
      EvNow (Resolved now);
      EvFindSortedAsc (Resolved []); EvFindLast (Resolved None);
      EvNow (Resolved t0);
      EvInsertOne (block_to_insert definition_v1 None t0)
        (Resolved (VObjectId "65f000000000000000000001"))].

Definition create_request_answer (t0 : Z) : response :=
  Response 200
    (added_body "Голосування створено"
       (AddResult true
          (Some (set_prop "_id" (VObjectId "65f000000000000000000001")
                   (block_to_insert definition_v1 None t0)))
          None None)).

(** A request to create the vote v2 whose end date is not a date. *)
Definition undated_request : obj :=
  [("voteId", VStr "v2"); ("title", VStr "Budget");
   ("description", VStr "Approval of the budget");
   ("options", VArr [VStr "yes"; VStr "no"]); ("creatorId", VStr "a1");
   ("endDate", VStr "soon")].

Definition undated_events (now t0 : Z) : list event :=
  [EvFindUser (VStr "a1") (Resolved (Some [("status", VStr "admin")]))]
  ++ EvFindOne (definition_filter (VStr "v2")) (Resolved None)
     :: EvNow (Resolved now)
     :: []
     ++ [EvFindSortedAsc (Resolved []); EvFindLast (Resolved None);
         EvNow (Resolved t0);
         EvInsertOne (block_to_insert (new_definition undated_request None) None t0)
           (Resolved (VObjectId "65f000000000000000000004"))].

Definition undated_answer (t0 : Z) : response :=
  Response 200
    (added_body "Голосування створено"
       (AddResult true
          (Some (set_prop "_id" (VObjectId "65f000000000000000000004")
                   (block_to_insert (new_definition undated_request None) None t0)))
          None None)).

Definition undated_entry (t0 : Z) : block :=
  stored_doc (VObjectId "65f000000000000000000004")
    (block_to_insert (new_definition undated_request None) None t0).

(** ** Reading the results *)

(** The property of [results] that a ballot is counted under. *)
Definition candidate_key (vote : block) : option string :=
  ToString (get "candidate" vote).

(** How many of the ballots are counted under [k]. *)
Definition votes_for (k : string) (votes : list block) : Z :=
  Z.of_nat (length (List.filter (fun vote => bool_decide (candidate_key vote = Some k))
                      votes)).

(** The sum of the counts of [results]. *)
Fixpoint counted (results : tally) : Z :=
  match results with
  | [] => 0
  | (_, Count n) :: rest => n + counted rest
  | (_, NaN) :: rest => counted rest
  end.

(** The ballots whose candidate is one of the options, under a name other
    than ["__proto__"]. *)
Definition names_an_option (options : list value) (vote : block) : bool :=
  match candidate_key vote with
  | Some k =>
      negb (String.eqb k "__proto__") && bool_decide (Some k ∈ map ToString options)
  | None => false
  end.

(** A definition with an option that cannot be turned into a property
    name, as the collection gives it back. *)
Definition unnamed_option_definition : block :=
  [("_id", VObjectId "65f000000000000000000005"); ("type", VStr "create_vote");
   ("voteId", VStr "v3"); ("creatorId", VStr "a1");
   ("endDate", VDate (Some 1800000000000)); ("title", VStr "Audit");
   ("description", VStr "Choice of the auditor");
   ("options", VArr [VStr "A"; VObj [("toString", VNum 1)]]);
   ("groupIds", VArr [VStr "all"]); ("previousHash", VStr "0");
   ("creationDate", VDate (Some 1700000000000)); ("hash", VStr "00")].

(** Two ballots for A and one for a candidate that is no option but the
    name of a property every object inherits. *)
Definition three_ballots : list block :=
  [[("type", VStr "vote"); ("voterId", VStr "u1"); ("voteId", VStr "v1");
    ("candidate", VStr "A")];
   [("type", VStr "vote"); ("voterId", VStr "u2"); ("voteId", VStr "v1");
    ("candidate", VStr "A")];
   [("type", VStr "vote"); ("voterId", VStr "u3"); ("voteId", VStr "v1");
    ("candidate", VStr "toString")]].

(** The answers of the read-only endpoints on the collection that holds
    the definition of v1 alone. *)
Definition validate_answer (t0 : Z) : response :=
  Response 200 (validation_value (validateChain_body [entry0 t0])).

(** The answer of [GET /debug/chain] on the collection whose only
    document has been tampered with. *)
Definition debug_answer : response :=
  Response 200
    (VObj [("blockCount", VNum 1); ("blocks", VArr [debug_entry tampered_block])]).

(** ** The shape of a collection built through the handlers *)



(** The collection after the vote v1 was created and u1 cast a ballot. *)
Definition two_entries : list block :=
  [entry0 1700000000000; entry1 (Some (entry0 1700000000000)) 1700000000002].


(** ** The digits of a digest *)

Definition is_hex_digit (c : ascii) : bool :=
  let n := nat_of_ascii c in
  ((48 <=? n)%nat && (n <=? 57)%nat) || ((97 <=? n)%nat && (n <=? 102)%nat).

(** A string of the digits 0-9 and a-f. *)
Fixpoint lower_hex (s : string) : bool :=
  match s with
  | EmptyString => true
  | String c rest => is_hex_digit c && lower_hex rest
  end.

(** ** Without the database *)

(** An operation on a collection that did not succeed. (When the
    connection fails at start-up the server listens all the same, the
    collections stay undefined, and every use of them throws.) *)
Definition database_failed (ev : event) : Prop :=
  match ev with
  | EvFindSortedAsc (Resolved _) | EvFindAll (Resolved _)
  | EvFindLast (Resolved _) | EvFindOne _ (Resolved _)
  | EvInsertOne _ (Resolved _) | EvFindUser _ (Resolved _) => False
  | _ => True
  end.

(** What [getUserRole] observes for a well-formed identifier when the
    database cannot be reached and the authentication server answers
    that the user is an administrator. *)
Definition role_from_server_events : list event :=
  [EvFindUser (VStr "65f0000000000000000000a1") (Rejected "connection closed");
   EvFetch (role_url (VStr "65f0000000000000000000a1"))
     (Resolved (HttpResponse true 200));
   EvResponseJson (HttpResponse true 200)
     (Resolved (VObj [("status", VStr "admin")]))].

(** What the handlers observe on the collection that holds the
    definition of v1 while the database answers nothing: the lookup of
    the user fails, the authentication server knows the voter u1 as a
    user and the creator a1 as an administrator, and the first read of
    the collection fails. *)
Definition disconnected_vote_events : list event :=
  [EvFindUser (VStr "u1") (Rejected "down");
   EvFetch (role_url (VStr "u1")) (Resolved (HttpResponse true 200));
   EvResponseJson (HttpResponse true 200) (Resolved (VObj [("status", VStr "user")]));
   EvFindOne (ballot_filter (VStr "u1") (VStr "v1")) (Rejected "down")].

Definition disconnected_vote_answer : response :=
  Response 403 (VObj [("error", VStr "Помилка сервера при перевірці права голосу")]).

Definition disconnected_create_events : list event :=
  [EvFindUser (VStr "a1") (Rejected "down");
   EvFetch (role_url (VStr "a1")) (Resolved (HttpResponse true 200));
   EvResponseJson (HttpResponse true 200) (Resolved (VObj [("status", VStr "admin")]));
   EvFindOne (definition_filter (VStr "v1")) (Rejected "down")].

Definition disconnected_create_answer : response :=
  Response 500 (error_body "Помилка при створенні голосування").

Definition disconnected_validate_answer : response :=
  Response 200 (validation_value (validation_read_error "down")).

Definition disconnected_chain_answer : response :=
  Response 500 (error_body "Помилка отримання блокчейну").

Definition disconnected_debug_answer : response :=
  Response 500
    (VObj [("error", VStr "Помилка при отриманні дебаг-інформації");
           ("details", VStr "down")]).

(** ** Requests that come a second time *)

(** What the handlers observe when the voter u1 asks again to vote in v1,
    and the administrator a1 to create v1, on the collection that holds
    the definition of v1 and the ballot of u1. *)
Definition duplicate_vote_events : list event :=
  [EvFindUser (VStr "u1") (Resolved (Some [("status", VStr "user")]));
   EvFindOne (ballot_filter (VStr "u1") (VStr "v1"))
     (Resolved (Some (entry1 (Some (entry0 1700000000000)) 1700000000002)))].

Definition duplicate_vote_answer : response :=
  Response 403 (VObj [("error", VStr "Ви вже віддали голос за це голосування")]).

Definition duplicate_create_events : list event :=
  [EvFindUser (VStr "a1") (Resolved (Some [("status", VStr "admin")]));
   EvFindOne (definition_filter (VStr "v1")) (Resolved (Some (entry0 1700000000000)))].

Definition duplicate_create_answer : response :=
  Response 400 (error_body "Це голосування вже існує").

(** * Properties *)

Arguments createHash : simpl never.
Arguments stored_doc : simpl never.
Arguments block_to_insert : simpl never.
Arguments SHA256.hexdigest : simpl never.

(** A decidable closed proposition, settled by evaluation. *)
Ltac by_decision := apply (bool_decide_unpack _); vm_compute; exact I.

(** ** SHA-256 on the test vectors *)

Example sha256_empty :
  SHA256.hexdigest "" = "e3b0c44298fc1c149afbf4c8996fb92427ae41e4649b934ca495991b7852b855"%string.
Proof. vm_compute. reflexivity. Qed.

Example sha256_abc :
  SHA256.hexdigest "abc" = "ba7816bf8f01cfea414140de5dae2223b00361a396177a9cb410ff61f20015ad"%string.
Proof. vm_compute. reflexivity. Qed.

Example sha256_two_chunks :
  SHA256.hexdigest
    "aaaaaaaaaaaaaaaaaaaaaaaaaaaaaaaaaaaaaaaaaaaaaaaaaaaaaaaaaaaaaaaaaaaaaaaaaaaaaaaaaaaaaaaaaaaaaaaaaaaa"
  = "2816597888e4a0d3a36b82b83316ab32680eb8f00f8cd3b904d681246d285a0e"%string.
Proof. vm_compute. reflexivity. Qed.

(** ** Values and objects *)

Lemma strict_eq_str v s : strict_eq v (VStr s) = true <-> v = VStr s.
Proof.
  destruct v; simpl; try (split; [discriminate | congruence]).
  rewrite String.eqb_eq. split; congruence.
Qed.

Lemma strict_eq_str_refl s : strict_eq (VStr s) (VStr s) = true.
Proof. by apply strict_eq_str. Qed.

Lemma isBlockValid_hash b :
  isBlockValid b = true <-> get "hash" b = VStr (createHash b).
Proof. apply strict_eq_str. Qed.

(** ** The chain validator *)



Lemma failure_at_cons_S p b rest j :
  failure_at (p :: b :: rest) (S (S j)) = failure_at (b :: rest) (S j).
Proof. reflexivity. Qed.

(** The code checks I1 with [isBlockValid]. *)
Lemma isBlockValid_digest b : isBlockValid b = hash_is_digest b.
Proof.
  unfold isBlockValid, hash_is_digest, strict_eq. by destruct (get "hash" b).
Qed.

(** Induction on a value, through its arrays and objects. *)
Lemma value_nested_ind (P : value -> Prop) :
  P VUndefined -> P VNull -> (forall b, P (VBool b)) -> (forall n, P (VNum n)) ->
  (forall s, P (VStr s)) -> (forall t, P (VDate t)) -> (forall h, P (VObjectId h)) ->
  (forall l, Forall P l -> P (VArr l)) ->
  (forall o, Forall (fun p => P p.2) o -> P (VObj o)) ->
  forall v, P v.
Proof.
  intros Hu Hn Hb Hz Hs Hd Hi Ha Ho. fix IH 1.
  intros [| |b|n|s|t|h|l|o];
    [exact Hu|exact Hn|apply Hb|apply Hz|apply Hs|apply Hd|apply Hi| |].
  - apply Ha. revert l. fix IHl 1. intros [|x l]; constructor; [apply IH|apply IHl].
  - apply Ho. revert o. fix IHo 1.
    intros [|[k x] o]; constructor; [apply IH|apply IHo].
Qed.

(** A value that converts is printed as [String] prints it. *)
Lemma ToString_js_String v : forall s, ToString v = Some s -> s = js_String v.
Proof.
  induction v as [| |b|n|s0|t|h|l IH|o _] using value_nested_ind; intros s;
    cbn [ToString js_String]; try (intros [= <-]; reflexivity).
  - set (elements := fix elements (l : list value) : option (list string) :=
           match l with
           | [] => Some []
           | x :: rest =>
               match match x with
                     | VUndefined | VNull => Some EmptyString
                     | _ => ToString x
                     end, elements rest with
               | Some s, Some ss => Some (s :: ss)
               | _, _ => None
               end
           end).
    assert (forall ss, elements l = Some ss ->
              ss = map (fun x => match x with
                                 | VUndefined | VNull => EmptyString
                                 | _ => js_String x
                                 end) l) as Hl.
    { induction IH as [|x l Hx _ IHl]; intros ss E; cbn [elements] in E.
      - by injection E as <-.
      - destruct (match x with
                  | VUndefined | VNull => Some EmptyString
                  | _ => ToString x
                  end) as [sx|] eqn:Ex; [|discriminate E].
        destruct (elements l) as [ss'|]; [|discriminate E].
        injection E as <-. cbn [map]. f_equal; [|by apply IHl].
        destruct x; try (by injection Ex as <-); by apply Hx. }
    destruct (elements l) as [ss|]; cbn [mbind option_bind]; [|discriminate].
    intros [= <-]. f_equal. by apply Hl.
  - destruct (has_prop "toString" o); [discriminate|]. by intros [= <-].
Qed.

Lemma converts_ToString v : converts v = true -> ToString v = Some (js_String v).
Proof.
  unfold converts. destruct (ToString v) as [s|] eqn:E; [|discriminate].
  intros _. by rewrite (ToString_js_String _ _ E).
Qed.

Lemma not_converts_ToString v : converts v = false -> ToString v = None.
Proof. unfold converts. by destruct (ToString v). Qed.

Lemma invalid_report i before _id after :
  invalid i before _id after
  = if converts _id
    then Validation false (before +:+ js_String _id +:+ after) (Some i) None
    else unprintable_failure.
Proof.
  unfold invalid. destruct (converts _id) eqn:E.
  - by rewrite (converts_ToString _ E).
  - by rewrite (not_converts_ToString _ E).
Qed.

Lemma valid_invalid i before _id after : valid (invalid i before _id after) = false.
Proof. rewrite invalid_report. by destruct (converts _id). Qed.

Lemma valid_failure_report i f b : valid (failure_report i f b) = false.
Proof. unfold failure_report. by destruct (converts _). Qed.

Lemma validateChain_loop_spec rest : forall p n,
  (forall j b f,
      rest !! j = Some b ->
      failure_at (p :: rest) (S j) = Some f ->
      (forall j', (j' < j)%nat -> failure_at (p :: rest) (S j') = None) ->
      validateChain_loop (S n) (get "hash" p) rest = failure_report (S (n + j)) f b)
  /\ ((forall j, failure_at (p :: rest) (S j) = None) ->
      validateChain_loop (S n) (get "hash" p) rest
      = Validation true "Ланцюг валідний" None None)
  /\ (valid (validateChain_loop (S n) (get "hash" p) rest) = true ->
      forall j, failure_at (p :: rest) (S j) = None).
Proof.
  induction rest as [|b rest IH]; intros p n.
  { split; [|split]; [by intros [|j] | done | by intros _ [|j]]. }
  destruct (IH b (S n)) as (IHfail & IHok & IHvalid).
  assert (failure_at (p :: b :: rest) 1 = entry_failure (Some p) b) as H1 by done.
  cbn [validateChain_loop]. unfold entry_failure in H1.
  rewrite <- isBlockValid_digest in H1.
  destruct (isBlockValid b) eqn:Hb; cbn [negb] in *.
  2:{ split; [|split].
      - intros [|j] b' f Hj Hf Hlt.
        + simplify_eq/=. by rewrite Nat.add_0_r, invalid_report.
        + specialize (Hlt 0%nat ltac:(lia)). congruence.
      - intros H. specialize (H 0%nat). congruence.
      - by rewrite valid_invalid. }
  destruct (strict_eq (get "previousHash" b) (get "hash" p)) eqn:Hlink; cbn [negb].
  2:{ split; [|split].
      - intros [|j] b' f Hj Hf Hlt.
        + simplify_eq/=. by rewrite Nat.add_0_r, invalid_report.
        + specialize (Hlt 0%nat ltac:(lia)). congruence.
      - intros H. specialize (H 0%nat). congruence.
      - by rewrite valid_invalid. }
  split; [|split].
  - intros [|j] b' f Hj Hf Hlt; [congruence|].
    rewrite failure_at_cons_S in Hf. simpl in Hj.
    rewrite (IHfail j b' f Hj Hf).
    + by replace (n + S j)%nat with (S (n + j))%nat by lia.
    + intros j' Hj'. rewrite <-failure_at_cons_S with (p := p).
      apply Hlt. lia.
  - intros H. apply IHok. intros j.
    rewrite <-failure_at_cons_S with (p := p). apply H.
  - intros Hv [|j]; [done|].
    rewrite failure_at_cons_S. by apply IHvalid.
Qed.

(** The first entry that fails decides the answer. *)
Lemma validateChain_body_first_failure (blocks : list block) i b f :
  blocks !! i = Some b ->
  failure_at blocks i = Some f ->
  (forall j, (j < i)%nat -> failure_at blocks j = None) ->
  validateChain_body blocks = failure_report i f b.
Proof.
  destruct blocks as [|first rest]; [done|].
  destruct (validateChain_loop_spec rest first 0) as (Hfail & _ & _).
  assert (failure_at (first :: rest) 0 = entry_failure None first) as H0 by done.
  unfold entry_failure in H0. rewrite <- isBlockValid_digest in H0.
  cbn [validateChain_body].
  destruct (isBlockValid first) eqn:Hb; cbn [negb] in *.
  2:{ destruct i as [|i]; intros Hi Hf Hlt.
      - simplify_eq/=. by rewrite invalid_report.
      - specialize (Hlt 0%nat ltac:(lia)). congruence. }
  destruct (strict_eq (get "previousHash" first) (VStr "0")) eqn:Hg; cbn [negb].
  2:{ destruct i as [|i]; intros Hi Hf Hlt.
      - simplify_eq/=. by rewrite invalid_report.
      - specialize (Hlt 0%nat ltac:(lia)). congruence. }
  destruct i as [|i]; intros Hi Hf Hlt; [congruence|].
  apply (Hfail i b f Hi Hf). intros j' Hj'. apply Hlt. lia.
Qed.

Lemma valid_iff_no_failure (blocks : list block) :
  valid (validateChain_body blocks) = true <-> forall i, failure_at blocks i = None.
Proof.
  destruct blocks as [|first rest]; [by split; [intros _ [|?]|]|].
  destruct (validateChain_loop_spec rest first 0) as (_ & Hok & Hvalid).
  assert (failure_at (first :: rest) 0 = entry_failure None first) as H0 by done.
  unfold entry_failure in H0. rewrite <- isBlockValid_digest in H0.
  cbn [validateChain_body].
  destruct (isBlockValid first) eqn:Hb; cbn [negb] in *.
  2:{ rewrite valid_invalid. split; [done|].
      intros H. specialize (H 0%nat). congruence. }
  destruct (strict_eq (get "previousHash" first) (VStr "0")) eqn:Hg; cbn [negb].
  2:{ rewrite valid_invalid. split; [done|].
      intros H. specialize (H 0%nat). congruence. }
  split.
  - intros Hv [|i]; [done|]. by apply Hvalid.
  - intros H. rewrite Hok; [done|]. intros j. apply H.
Qed.




(** ** Hash determinism *)

Lemma string_compare_trans a : forall b c,
  String.compare a b <> Gt -> String.compare b c <> Gt -> String.compare a c <> Gt.
Proof.
  induction a as [|x a IH]; intros [|y b] [|z c]; simpl; try done.
  unfold Ascii.compare.
  destruct (N.compare_spec (N_of_ascii x) (N_of_ascii y)) as [Exy|Lxy|Lxy];
    destruct (N.compare_spec (N_of_ascii y) (N_of_ascii z)) as [Eyz|Lyz|Lyz];
    destruct (N.compare_spec (N_of_ascii x) (N_of_ascii z)) as [Exz|Lxz|Lxz];
    try done; try lia; eauto.
Qed.

Lemma code_unit_rank_involutive c : code_unit_rank (code_unit_rank c) = c.
Proof. destruct c as [[] [] [] [] [] [] [] []]; reflexivity. Qed.

Lemma code_unit_key_inj a : forall b, code_unit_key a = code_unit_key b -> a = b.
Proof.
  induction a as [|x a IH]; intros [|y b]; cbn [code_unit_key]; try done.
  intros [= Hxy Hab]. f_equal; [|by apply IH].
  by rewrite <- (code_unit_rank_involutive x), Hxy, code_unit_rank_involutive.
Qed.

#[global] Instance key_le_trans : Transitive key_le.
Proof.
  intros a b c. unfold key_le, String.leb. intros H1 H2.
  pose proof (string_compare_trans (code_unit_key a) (code_unit_key b)
                (code_unit_key c)) as H.
  destruct (String.compare (code_unit_key a) (code_unit_key b)),
    (String.compare (code_unit_key b) (code_unit_key c)),
    (String.compare (code_unit_key a) (code_unit_key c));
    try done; exfalso; by apply H.
Qed.

#[global] Instance key_le_antisym : AntiSymm (=) key_le.
Proof.
  intros a b Hab Hba. apply code_unit_key_inj. by apply String.leb_antisym.
Qed.

#[global] Instance key_le_total : Total key_le.
Proof. intros a b. apply String.leb_total. Qed.

(** A name that starts with a character above U+FFFF (here U+1D49C, the
    bytes F0 9D 92 9C) is sorted before one that starts with a character
    from U+E000 on (here U+FB01, the bytes EF AC 81), as their UTF-16
    code units D835 and FB01 are, and against the order of their bytes. *)
Example key_le_code_units :
  key_le "𝒜" "ﬁ" /\ ~ key_le "ﬁ" "𝒜" /\ String.leb "ﬁ" "𝒜" = true.
Proof. split; [|split]; vm_compute; [reflexivity|discriminate|reflexivity]. Qed.

Lemma merge_sort_keys_Permutation (l1 l2 : list string) :
  l1 ≡ₚ l2 -> merge_sort key_le l1 = merge_sort key_le l2.
Proof.
  intros Hp. apply (Sorted_unique key_le); try apply Sorted_merge_sort; try apply _.
  by rewrite !merge_sort_Permutation.
Qed.

Lemma get_Permutation k (b1 b2 : obj) :
  NoDup (keys b1) -> b1 ≡ₚ b2 -> get k b1 = get k b2.
Proof.
  intros Hnd Hp. induction Hp as [|[k1 v1] l1 l2 Hp IH|[k1 v1] [k2 v2] l|l1 l2 l3 Hp12 IH12 Hp23 IH23].
  - done.
  - simpl. inv Hnd. by rewrite IH.
  - simpl in *. apply NoDup_cons in Hnd as [Hnotin _].
    destruct (String.eqb_spec k2 k), (String.eqb_spec k1 k); try done.
    subst. destruct Hnotin. left.
  - rewrite IH12 by done. apply IH23. unfold keys. by rewrite <-Hp12.
Qed.

Lemma keys_delete_prop k (o : obj) :
  keys (delete_prop k o) = filter (fun x => x <> k) (keys o).
Proof.
  unfold keys, delete_prop. induction o as [|[k' v] o IH]; [done|].
  rewrite filter_cons. cbn [map fst]. rewrite filter_cons. cbn [fst].
  case_decide; cbn [map fst]; by rewrite IH.
Qed.

Lemma NoDup_keys_delete_prop k (o : obj) :
  NoDup (keys o) -> NoDup (keys (delete_prop k o)).
Proof. rewrite keys_delete_prop. apply NoDup_filter. Qed.

Lemma fold_set_prop_ext (o1 o2 : obj) (ks : list string) : forall acc,
  (forall k, get k o1 = get k o2) ->
  fold_left (fun acc key => set_prop key (get key o1) acc) ks acc
  = fold_left (fun acc key => set_prop key (get key o2) acc) ks acc.
Proof.
  induction ks as [|k ks IH]; intros acc H; [done|]. simpl. by rewrite H, IH.
Qed.

Lemma createHash_Permutation (b1 b2 : obj) :
  NoDup (keys b1) -> b1 ≡ₚ b2 -> createHash b1 = createHash b2.
Proof.
  intros Hnd Hp. unfold createHash.
  assert (delete_prop "_id" (delete_prop "hash" b1)
          ≡ₚ delete_prop "_id" (delete_prop "hash" b2)) as Hp'.
  { unfold delete_prop. by rewrite Hp. }
  rewrite (merge_sort_keys_Permutation _ (keys (delete_prop "_id" (delete_prop "hash" b2)))).
  2:{ unfold keys. by rewrite Hp'. }
  rewrite (fold_set_prop_ext _ (delete_prop "_id" (delete_prop "hash" b2))); [done|].
  intros k. apply get_Permutation; [|done].
  by apply NoDup_keys_delete_prop, NoDup_keys_delete_prop.
Qed.

Lemma delete_prop_comm k1 k2 (o : obj) :
  delete_prop k1 (delete_prop k2 o) = delete_prop k2 (delete_prop k1 o).
Proof.
  unfold delete_prop. induction o as [|[k v] o IH]; [done|].
  rewrite !filter_cons. simpl.
  destruct (decide (k <> k2)), (decide (k <> k1));
    rewrite ?filter_cons; simpl;
    repeat (case_decide; try done); by rewrite IH.
Qed.

Lemma delete_prop_replace_prop k v (o : obj) :
  delete_prop k (replace_prop k v o) = delete_prop k o.
Proof.
  unfold delete_prop. induction o as [|[k' v'] o IH]; [done|]. simpl.
  destruct (String.eqb_spec k' k) as [->|Hne].
  - rewrite !filter_cons. simpl. by repeat (case_decide; try done).
  - rewrite !filter_cons. simpl. by rewrite IH.
Qed.

Lemma delete_prop_insert_prop k v (o : obj) :
  delete_prop k (insert_prop k v o) = delete_prop k o.
Proof.
  unfold delete_prop. induction o as [|[k' v'] o IH]; simpl.
  - rewrite filter_cons. simpl. by case_decide.
  - destruct (_ && _).
    + rewrite filter_cons. simpl. by case_decide.
    + rewrite !filter_cons. simpl. by rewrite IH.
Qed.

Lemma delete_prop_set_prop k v (o : obj) :
  k <> "__proto__" -> delete_prop k (set_prop k v o) = delete_prop k o.
Proof.
  intros Hk. unfold set_prop.
  destruct (String.eqb_spec k "__proto__"); [done|].
  destruct (has_prop k o); [apply delete_prop_replace_prop | apply delete_prop_insert_prop].
Qed.

Lemma createHash_set_hash v (b : obj) : createHash (set_prop "hash" v b) = createHash b.
Proof. unfold createHash. by rewrite delete_prop_set_prop. Qed.

Lemma createHash_set_id v (b : obj) : createHash (set_prop "_id" v b) = createHash b.
Proof.
  unfold createHash.
  by rewrite !(delete_prop_comm "_id" "hash"), delete_prop_set_prop.
Qed.

(** C6, as the code has it. The hash of a block is a function of its
    content that does not depend on the insertion order of its (top-level)
    fields, and the fields [hash] and [_id] are not part of the hashed
    content. *)
Theorem createHash_field_order (b1 b2 : block) (v : value) :
  NoDup (keys b1) -> b1 ≡ₚ b2 ->
  createHash b1 = createHash b2
  /\ createHash (set_prop "hash" v b1) = createHash b1
  /\ createHash (set_prop "_id" v b1) = createHash b1.
Proof.
  intros Hnd Hp. split; [by apply createHash_Permutation|].
  split; [apply createHash_set_hash | apply createHash_set_id].
Qed.

Lemma same_content_titled : same_content (VObj titled_en_uk) (VObj titled_uk_en).
Proof.
  apply same_object with (l2' := titled_uk_en); [done|].
  unfold titled_en_uk, titled_uk_en.
  do 4 (constructor; [split; [done|apply same_atom]|]).
  constructor; [split; [done|]|].
  - simpl. apply same_object with (l2' := [("en", VStr "Board"); ("uk", VStr "Рада")]).
    + apply perm_swap.
    + repeat (constructor; [split; [done|apply same_atom]|]). constructor.
  - repeat (constructor; [split; [done|apply same_atom]|]). constructor.
Qed.

(** C6, counterexample: nested objects are not order-normalized. The two
    blocks have the same content and different hashes. *)
Lemma createHash_nested_order_matters : ~ hash_normalizes_nested_objects.
Proof.
  intros H. specialize (H titled_en_uk titled_uk_en).
  assert (createHash titled_en_uk <> createHash titled_uk_en) as Hne
    by (vm_compute; discriminate).
  apply Hne, H; [|apply same_content_titled].
  by_decision.
Qed.

(** The hashes are those the server computes for these blocks. *)
Example createHash_titled_en_uk :
  createHash titled_en_uk
  = "1e5289f371554b4ec99d2b7ebce7b8c49c1bbd2d8fe9fa56e2c40ac22b2d8284".
Proof. vm_compute. reflexivity. Qed.

Example createHash_titled_uk_en :
  createHash titled_uk_en
  = "e1776e63e577c4c2aae1a5a99877ede678d58527ff5950f1af22a1a2dbd59cc8".
Proof. vm_compute. reflexivity. Qed.

(** The order of an array is part of the hashed content. *)
Example createHash_options_order_matters :
  createHash definition_v1 <> createHash definition_v1_BA.
Proof. vm_compute. discriminate. Qed.

Lemma NoDup_keys_ballot_plain : NoDup (keys ballot_plain).
Proof.
  by_decision.
Qed.

Lemma Permutation_ballot_plain : ballot_plain ≡ₚ ballot_reordered.
Proof.
  unfold ballot_plain, ballot_reordered.
  apply NoDup_Permutation.
  - apply (NoDup_fmap_1 fst), NoDup_keys_ballot_plain.
  - apply (NoDup_fmap_1 fst). by_decision.
  - intros x. rewrite !list_elem_of_In. simpl. intuition.
Qed.

Lemma createHash_field_order_witness :
  createHash ballot_plain = createHash ballot_reordered
  /\ createHash (set_prop "hash" (VStr "00") ballot_plain) = createHash ballot_plain
  /\ createHash (set_prop "_id" (VStr "00") ballot_plain) = createHash ballot_plain.
Proof.
  exact (createHash_field_order ballot_plain ballot_reordered (VStr "00")
           NoDup_keys_ballot_plain Permutation_ballot_plain).
Defined.

(** ** Running programs *)

Lemma run_bind {R S : Type} (p : prog R) (f : R -> prog S) st tr r st' :
  run (bind p f) st tr r st'
  <-> exists x st1 tr1 tr2,
        tr = tr1 ++ tr2 /\ run p st tr1 x st1 /\ run (f x) st1 tr2 r st'.
Proof.
  revert st tr. induction p as [x|A o k IH]; intros st tr; simpl.
  - split.
    + intros H. by exists x, st, [], tr.
    + intros (x' & st1 & tr1 & tr2 & -> & (-> & -> & ->) & H). done.
  - split.
    + intros (out & st1 & tr' & -> & Hop & H).
      apply IH in H as (x & st2 & tr1 & tr2 & -> & H1 & H2).
      exists x, st2, (event_of o out :: tr1), tr2. split; [done|].
      split; [|done]. by exists out, st1, tr1.
    + intros (x & st2 & tr1 & tr2 & -> & (out & st1 & tr' & -> & Hop & H1) & H2).
      exists out, st1, (tr' ++ tr2). split; [done|]. split; [done|].
      apply IH. by exists x, st2, tr', tr2.
Qed.

Lemma run_mbind {R S : Type} (p : prog R) (f : R -> prog S) st tr r st' :
  run (p ≫= f) st tr r st'
  <-> exists x st1 tr1 tr2,
        tr = tr1 ++ tr2 /\ run p st tr1 x st1 /\ run (f x) st1 tr2 r st'.
Proof. apply run_bind. Qed.

(** Every program runs to completion, whatever the collection holds. *)
Lemma run_total {R : Type} (p : prog R) : forall st, exists tr r st', run p st tr r st'.
Proof.
  induction p as [x|A o k IH]; intros st; simpl.
  - by exists [], x, st.
  - assert (exists out st1, op_sem o st out st1) as (out & st1 & Hop).
    { destruct o; simpl;
        try (by exists (Rejected EmptyString), st);
        try (by exists (Resolved 0%Z), st). }
    destruct (IH out st1) as (tr & r & st' & H).
    exists (event_of o out :: tr), r, st'. by exists out, st1, tr.
Qed.

(** A handler may run a whole part of its program in one go. *)
Lemma interleave_run_bind {R S : Type} (p : prog S) (f : S -> prog R) :
  forall st tr x st' (pool : list (prog R)) i st'' pool'',
    pool !! i = Some (bind p f) ->
    run p st tr x st' ->
    interleave st' (<[i := f x]> pool) st'' pool'' ->
    interleave st pool st'' pool''.
Proof.
  induction p as [x0|A o k IH]; intros st tr x st' pool i st'' pool'' Hi Hrun Hrest.
  - destruct Hrun as (_ & -> & ->). simpl in Hi.
    by rewrite list_insert_id in Hrest.
  - destruct Hrun as (out & st1 & tr1 & -> & Hop & Hrun). simpl in Hi.
    eapply (interleave_step _ _ i _ (bind (k out) f) st1); [exact Hi| |].
    { simpl. by exists out. }
    eapply (IH out st1 tr1 x st'); [|exact Hrun|].
    + apply list_lookup_insert_eq. by eapply lookup_lt_Some.
    + by rewrite list_insert_insert_eq.
Qed.

Lemma interleave_run {R : Type} (p : prog R) :
  forall st tr r st' (pool : list (prog R)) i st'' pool'',
    pool !! i = Some p ->
    run p st tr r st' ->
    interleave st' (<[i := Ret r]> pool) st'' pool'' ->
    interleave st pool st'' pool''.
Proof.
  induction p as [x0|A o k IH]; intros st tr r st' pool i st'' pool'' Hi Hrun Hrest.
  - destruct Hrun as (_ & -> & ->). by rewrite list_insert_id in Hrest.
  - destruct Hrun as (out & st1 & tr1 & -> & Hop & Hrun).
    eapply (interleave_step _ _ i _ (k out) st1); [exact Hi| |].
    { simpl. by exists out. }
    eapply (IH out st1 tr1 r st'); [|exact Hrun|].
    + apply list_lookup_insert_eq. by eapply lookup_lt_Some.
    + by rewrite list_insert_insert_eq.
Qed.

Lemma run_validateChain st tr v st' :
  run validateChain st tr v st'
  <-> st' = st
      /\ ((exists l, tr = [EvFindSortedAsc (Resolved l)] /\ sorted_read st l
                     /\ v = validateChain_body l)
          \/ (exists e, tr = [EvFindSortedAsc (Rejected e)]
                        /\ v = validation_read_error e)).
Proof.
  unfold validateChain, await. simpl. split.
  - intros (out & st1 & tr' & -> & (-> & Hout) & H).
    destruct out as [l|e]; simpl in H; destruct H as (-> & -> & ->);
      (split; [done|]); [left; by exists l | right; by exists e].
  - intros (-> & [(l & -> & Hl & ->)|(e & -> & ->)]).
    + by exists (Resolved l), st, [].
    + by exists (Rejected e), st, [].
Qed.

Lemma run_addBlock newBlock st tr r st' :
  run (addBlock newBlock) st tr r st' <-> addBlock_run newBlock st tr r st'.
Proof.
  unfold addBlock. rewrite run_mbind. split.
  - intros (v & st1 & tr1 & tr2 & -> & Hv & H).
    apply run_validateChain in Hv as (-> & [(l & -> & Hl & ->)|(e & -> & ->)]).
    2:{ simpl in H. destruct H as (-> & -> & ->). constructor. }
    destruct (valid (validateChain_body l)) eqn:Hvalid; simpl in H.
    2:{ destruct H as (-> & -> & ->). by constructor. }
    destruct H as (out1 & st1 & tr1 & -> & (-> & Hlast) & H).
    destruct out1 as [lastBlock|e]; simpl in H.
    2:{ destruct H as (-> & -> & ->). by constructor. }
    destruct H as (out2 & st2 & tr2 & -> & (-> & Hnow) & H).
    destruct out2 as [now|e]; [|done]. simpl in H.
    destruct H as (out3 & st3 & tr3 & -> & Hins & H).
    destruct out3 as [id|e]; simpl in H; destruct H as (-> & -> & ->).
    + pose proof Hins as Hins'. simpl in Hins'. destruct Hins' as (_ & _ & ->).
      by constructor.
    + simpl in Hins. subst. by constructor.
  - intros H. destruct H.
    + exists (validation_read_error e), st, [EvFindSortedAsc (Rejected e)], [].
      split; [done|]. split; [|done]. apply run_validateChain. split; [done|].
      right. by exists e.
    + exists (validateChain_body l), st, [EvFindSortedAsc (Resolved l)], [].
      split; [done|]. split.
      * apply run_validateChain. split; [done|]. left. by exists l.
      * by rewrite H0.
    + exists (validateChain_body l), st, [EvFindSortedAsc (Resolved l)],
        [EvFindLast (Rejected e)].
      split; [done|]. split.
      * apply run_validateChain. split; [done|]. left. by exists l.
      * rewrite H0. simpl. by exists (Rejected e), st, [].
    + exists (validateChain_body l), st, [EvFindSortedAsc (Resolved l)],
        [EvFindLast (Resolved lastBlock); EvNow (Resolved now);
         EvInsertOne (block_to_insert newBlock lastBlock now) (Rejected e)].
      split; [done|]. split.
      * apply run_validateChain. split; [done|]. left. by exists l.
      * rewrite H0. simpl.
        eexists (Resolved lastBlock), st, _. split; [done|]. split; [done|].
        eexists (Resolved now), st, _. split; [done|]. split; [done|].
        by exists (Rejected e), st, [].
    + exists (validateChain_body l), st, [EvFindSortedAsc (Resolved l)],
        [EvFindLast (Resolved lastBlock); EvNow (Resolved now);
         EvInsertOne (block_to_insert newBlock lastBlock now) (Resolved id)].
      split; [done|]. split.
      * apply run_validateChain. split; [done|]. left. by exists l.
      * rewrite H0. simpl.
        eexists (Resolved lastBlock), st, _. split; [done|]. split; [done|].
        eexists (Resolved now), st, _. split; [done|]. split; [done|].
        eexists (Resolved id), _, []. split; [done|]. split; [exact H2|done].
Qed.

(** ** The append engine *)

(** C9. An append whose snapshot fails validation reports the corrupted
    chain with the validator's diagnosis and stores nothing (and such a
    run exists for every invalid snapshot); every append either adds one
    document after the existing ones, which it leaves as they are, or
    leaves the collection unchanged. *)
Theorem addBlock_all_or_nothing (newBlock : obj) (st : list block)
    (tr : list event) (r : add_result) (st' : list block) :
  run (addBlock newBlock) st tr r st' ->
  ((success r = true /\ exists doc, st' = st ++ [doc])
   \/ (success r = false /\ st' = st))
  /\ (forall l,
        tr !! 0%nat = Some (EvFindSortedAsc (Resolved l)) ->
        valid (validateChain_body l) = false ->
        r = chain_corrupted (validateChain_body l) /\ st' = st
        /\ tr = [EvFindSortedAsc (Resolved l)])
  /\ (forall l,
        sorted_read st l ->
        valid (validateChain_body l) = false ->
        run (addBlock newBlock) st [EvFindSortedAsc (Resolved l)]
          (chain_corrupted (validateChain_body l)) st).
Proof.
  intros H. apply run_addBlock in H. split; [|split].
  - destruct H; simpl; eauto.
  - intros l' Hhead Hinvalid. destruct H; simplify_eq/=; try done; congruence.
  - intros l' Hl' Hinvalid. apply run_addBlock. by constructor.
Qed.

Lemma sorted_read_singleton (b : block) : sorted_read [b] [b].
Proof. split; [done|]. apply SSorted_cons; [apply SSorted_nil|constructor]. Qed.

Lemma addBlock_all_or_nothing_witness :
  ((success (chain_corrupted (validateChain_body [tampered_block])) = true
    /\ exists doc, [tampered_block] = [tampered_block] ++ [doc])
   \/ (success (chain_corrupted (validateChain_body [tampered_block])) = false
       /\ [tampered_block] = [tampered_block]))
  /\ (forall l,
        [EvFindSortedAsc (Resolved [tampered_block])] !! 0%nat
        = Some (EvFindSortedAsc (Resolved l)) ->
        valid (validateChain_body l) = false ->
        chain_corrupted (validateChain_body [tampered_block])
        = chain_corrupted (validateChain_body l)
        /\ [tampered_block] = [tampered_block]
        /\ [EvFindSortedAsc (Resolved [tampered_block])]
           = [EvFindSortedAsc (Resolved l)])
  /\ (forall l,
        sorted_read [tampered_block] l ->
        valid (validateChain_body l) = false ->
        run (addBlock ballot_plain) [tampered_block] [EvFindSortedAsc (Resolved l)]
          (chain_corrupted (validateChain_body l)) [tampered_block]).
Proof.
  apply (addBlock_all_or_nothing ballot_plain [tampered_block]
           [EvFindSortedAsc (Resolved [tampered_block])]).
  apply run_addBlock. apply add_chain_invalid.
  - apply sorted_read_singleton.
  - vm_compute. reflexivity.
Defined.

(** *** Properties of objects *)

Lemma get_replace_prop_eq k v (o : obj) :
  has_prop k o = true -> get k (replace_prop k v o) = v.
Proof.
  unfold has_prop. induction o as [|[k' v'] o IH]; [done|]. simpl.
  rewrite (String.eqb_sym k k').
  destruct (String.eqb_spec k' k) as [->|Hne]; simpl.
  - by rewrite String.eqb_refl.
  - intros H. destruct (String.eqb_spec k' k); [done|]. by apply IH.
Qed.

Lemma get_insert_prop_eq k v (o : obj) :
  has_prop k o = false -> get k (insert_prop k v o) = v.
Proof.
  unfold has_prop. induction o as [|[k' v'] o IH]; simpl.
  - by rewrite String.eqb_refl.
  - rewrite (String.eqb_sym k k').
    destruct (String.eqb_spec k' k) as [->|Hne]; [done|]. simpl. intros H.
    destruct (_ && _); simpl.
    + by rewrite String.eqb_refl.
    + destruct (String.eqb_spec k' k); [done|]. by apply IH.
Qed.

Lemma get_set_prop_eq k v (o : obj) :
  k <> "__proto__" -> get k (set_prop k v o) = v.
Proof.
  intros Hk. unfold set_prop. destruct (String.eqb_spec k "__proto__"); [done|].
  destruct (has_prop k o) eqn:Hhas;
    [by apply get_replace_prop_eq | by apply get_insert_prop_eq].
Qed.

Lemma get_replace_prop_ne k k' v (o : obj) :
  k <> k' -> get k (replace_prop k' v o) = get k o.
Proof.
  intros Hne. induction o as [|[k0 v0] o IH]; [done|]. simpl.
  destruct (String.eqb_spec k0 k') as [->|Hne0]; simpl.
  - destruct (String.eqb_spec k' k); [congruence|done].
  - by rewrite IH.
Qed.

Lemma get_insert_prop_ne k k' v (o : obj) :
  k <> k' -> get k (insert_prop k' v o) = get k o.
Proof.
  intros Hne. induction o as [|[k0 v0] o IH]; simpl.
  - destruct (String.eqb_spec k' k); [congruence|done].
  - destruct (_ && _); simpl.
    + destruct (String.eqb_spec k' k); [congruence|done].
    + by rewrite IH.
Qed.

Lemma get_set_prop_ne k k' v (o : obj) :
  k <> k' -> get k (set_prop k' v o) = get k o.
Proof.
  intros Hne. unfold set_prop. destruct (String.eqb k' "__proto__"); [done|].
  destruct (has_prop k' o); [by apply get_replace_prop_ne | by apply get_insert_prop_ne].
Qed.

Lemma get_delete_prop_ne k k' (o : obj) :
  k <> k' -> get k (delete_prop k' o) = get k o.
Proof.
  intros Hne. unfold delete_prop. induction o as [|[k0 v0] o IH]; [done|].
  rewrite filter_cons. simpl. case_decide as Hk0; simpl.
  - by rewrite IH.
  - subst k0.
    destruct (String.eqb_spec k' k); [congruence|done].
Qed.

Lemma delete_prop_idemp k (o : obj) :
  delete_prop k (delete_prop k o) = delete_prop k o.
Proof.
  unfold delete_prop. induction o as [|[k0 v0] o IH]; [done|].
  rewrite filter_cons. simpl. case_decide; [|done].
  rewrite filter_cons. simpl. case_decide; [|done]. by rewrite IH.
Qed.

Lemma has_prop_to_bson_doc k (o : obj) : has_prop k (to_bson_doc o) = has_prop k o.
Proof.
  unfold has_prop, to_bson_doc. induction o as [|[k0 v0] o IH]; [done|].
  simpl. by rewrite IH.
Qed.

Lemma get_to_bson_doc k (o : obj) :
  get k o <> VUndefined -> get k (to_bson_doc o) = to_bson (get k o).
Proof.
  unfold to_bson_doc. induction o as [|[k0 v0] o IH]; [done|]. simpl.
  destruct (String.eqb k0 k); [done|]. apply IH.
Qed.

Lemma to_bson_doc_replace_prop k v (o : obj) :
  to_bson_doc (replace_prop k v o) = replace_prop k (to_bson v) (to_bson_doc o).
Proof.
  unfold to_bson_doc. induction o as [|[k0 v0] o IH]; [done|]. simpl.
  destruct (String.eqb k0 k); simpl; [done|]. by rewrite IH.
Qed.

Lemma to_bson_doc_insert_prop k v (o : obj) :
  to_bson_doc (insert_prop k v o) = insert_prop k (to_bson v) (to_bson_doc o).
Proof.
  unfold to_bson_doc. induction o as [|[k0 v0] o IH]; [done|]. simpl.
  destruct (_ && _); simpl; [done|]. by rewrite IH.
Qed.

Lemma to_bson_doc_set_prop k v (o : obj) :
  to_bson_doc (set_prop k v o) = set_prop k (to_bson v) (to_bson_doc o).
Proof.
  unfold set_prop. destruct (String.eqb k "__proto__"); [done|].
  rewrite has_prop_to_bson_doc.
  destruct (has_prop k o); [apply to_bson_doc_replace_prop | apply to_bson_doc_insert_prop].
Qed.

Lemma get_cons_ne k k' v (o : obj) : k' <> k -> get k ((k', v) :: o) = get k o.
Proof. intros Hne. cbn [get]. by destruct (String.eqb_spec k' k). Qed.

Lemma get_stored_doc k id (b : obj) :
  k <> "_id" -> get k (stored_doc id b) = get k (to_bson_doc b).
Proof.
  intros Hk. unfold stored_doc. rewrite get_cons_ne by done.
  by apply get_delete_prop_ne.
Qed.

Lemma delete_prop_cons_ne k k0 v (o : obj) :
  k0 <> k -> delete_prop k ((k0, v) :: o) = (k0, v) :: delete_prop k o.
Proof. intros Hne. unfold delete_prop. rewrite filter_cons. simpl. by case_decide. Qed.

Lemma delete_prop_cons_eq k v (o : obj) :
  delete_prop k ((k, v) :: o) = delete_prop k o.
Proof. unfold delete_prop. rewrite filter_cons. simpl. by case_decide. Qed.

Lemma createHash_stored_doc id (b : obj) :
  createHash (stored_doc id b) = createHash (to_bson_doc b).
Proof.
  unfold createHash, stored_doc.
  rewrite (delete_prop_cons_ne "hash" "_id") by done.
  rewrite delete_prop_cons_eq.
  by rewrite (delete_prop_comm "hash" "_id"), delete_prop_idemp,
    (delete_prop_comm "_id" "hash").
Qed.

(** *** What the inserted document holds *)

Lemma get_hash_block_to_insert nb lastBlock now :
  exists h, get "hash" (block_to_insert nb lastBlock now) = VStr h
            /\ h = createHash (block_to_insert nb lastBlock now).
Proof.
  unfold block_to_insert. eexists. split.
  - by apply get_set_prop_eq.
  - by rewrite createHash_set_hash.
Qed.

Lemma get_creationDate_block_to_insert nb lastBlock now :
  get "creationDate" (block_to_insert nb lastBlock now) = VDate (Some now).
Proof.
  unfold block_to_insert. rewrite get_set_prop_ne by done.
  by apply get_set_prop_eq.
Qed.

Lemma get_previousHash_block_to_insert nb lastBlock now :
  get "previousHash" (block_to_insert nb lastBlock now) = previous_hash_of lastBlock.
Proof.
  unfold block_to_insert. rewrite !get_set_prop_ne by done.
  by apply get_set_prop_eq.
Qed.

Lemma get_creationDate_stored id nb lastBlock now :
  get "creationDate" (stored_doc id (block_to_insert nb lastBlock now))
  = VDate (Some now).
Proof.
  rewrite get_stored_doc by done.
  rewrite get_to_bson_doc; by rewrite get_creationDate_block_to_insert.
Qed.

Lemma get_hash_stored id nb lastBlock now :
  get "hash" (stored_doc id (block_to_insert nb lastBlock now))
  = VStr (createHash (block_to_insert nb lastBlock now)).
Proof.
  destruct (get_hash_block_to_insert nb lastBlock now) as (h & Hh & ->).
  rewrite get_stored_doc by done.
  rewrite get_to_bson_doc; by rewrite Hh.
Qed.

Lemma get_previousHash_stored id nb lastBlock now s :
  previous_hash_of lastBlock = VStr s ->
  get "previousHash" (stored_doc id (block_to_insert nb lastBlock now)) = VStr s.
Proof.
  intros Hs. rewrite get_stored_doc by done.
  rewrite get_to_bson_doc; by rewrite get_previousHash_block_to_insert, Hs.
Qed.

Lemma storable_block_to_insert nb lastBlock now s :
  storable nb -> previous_hash_of lastBlock = VStr s ->
  storable (block_to_insert nb lastBlock now).
Proof.
  unfold storable, block_to_insert. intros Hnb Hs.
  fold (previous_hash_of lastBlock). rewrite Hs.
  by rewrite !to_bson_doc_set_prop, Hnb.
Qed.

Lemma isBlockValid_stored id nb lastBlock now :
  storable (block_to_insert nb lastBlock now) ->
  isBlockValid (stored_doc id (block_to_insert nb lastBlock now)) = true.
Proof.
  intros Hst. apply isBlockValid_hash.
  by rewrite get_hash_stored, createHash_stored_doc, Hst.
Qed.

(** *** Chains *)

Lemma no_failure_isBlockValid (blocks : list block) b :
  (forall i, failure_at blocks i = None) -> b ∈ blocks -> isBlockValid b = true.
Proof.
  intros H [i Hi]%list_elem_of_lookup. specialize (H i).
  unfold failure_at, entry_failure in H. rewrite Hi in H.
  rewrite <- isBlockValid_digest in H. by destruct (isBlockValid b).
Qed.

Lemma valid_chain_hash_string (st l : list block) b :
  sorted_read st l -> valid (validateChain_body l) = true -> b ∈ st ->
  get "hash" b = VStr (createHash b).
Proof.
  intros [Hp _] Hv Hb. apply isBlockValid_hash.
  apply (no_failure_isBlockValid l); [by apply valid_iff_no_failure|].
  by rewrite Hp.
Qed.

Lemma failure_at_snoc (st : list block) d :
  (forall i, failure_at st i = None) ->
  entry_failure (last st) d = None ->
  forall i, failure_at (st ++ [d]) i = None.
Proof.
  intros Hst Hd i. unfold failure_at.
  destruct (decide (i < length st)%nat) as [Hlt|Hge].
  - specialize (Hst i). unfold failure_at in Hst.
    rewrite lookup_app_l by done.
    destruct i as [|j]; [done|]. by rewrite lookup_app_l by lia.
  - destruct (decide (i = length st)) as [->|Hne].
    + rewrite list_lookup_middle by done.
      destruct (length st) as [|n] eqn:Hlen.
      * destruct st; [done|discriminate].
      * rewrite lookup_app_l by lia. rewrite last_lookup in Hd.
        by rewrite Hlen in Hd.
    + rewrite lookup_ge_None_2; [done|]. rewrite length_app. simpl. lia.
Qed.

(** *** Reads of a collection with strictly increasing dates *)

Lemma dated_sort_key b t : date_of b = Some t -> sort_key b = Some (9, t)%Z.
Proof.
  unfold date_of, sort_key. destruct (get "creationDate" b) as [| | | | |[t'|]| | |];
    try done. by intros [= ->].
Qed.

Lemma dated_before_le a b : dated_before a b -> creationDate_le a b.
Proof.
  intros (ta & tb & Ha & Hb & Hlt). unfold creationDate_le.
  rewrite (dated_sort_key _ _ Ha), (dated_sort_key _ _ Hb). right. lia.
Qed.

Lemma dated_before_not_ge a b : dated_before a b -> ~ creationDate_le b a.
Proof.
  intros (ta & tb & Ha & Hb & Hlt). unfold creationDate_le.
  rewrite (dated_sort_key _ _ Ha), (dated_sort_key _ _ Hb). lia.
Qed.

Lemma strictly_dated_app_l (st1 st2 : list block) :
  strictly_dated (st1 ++ st2) -> strictly_dated st1.
Proof.
  intros [Hs Hf]. split; [by apply StronglySorted_app_1_l in Hs|].
  by apply Forall_app in Hf as [? ?].
Qed.

Lemma strictly_dated_sorted (st : list block) :
  strictly_dated st -> StronglySorted creationDate_le st.
Proof.
  intros [Hs _]. induction Hs as [|b st Hs IH Hall]; constructor; [done|].
  eapply Forall_impl; [exact Hall|]. intros ?. apply dated_before_le.
Qed.

Lemma strictly_dated_antisym (st : list block) x y :
  strictly_dated st -> x ∈ st -> y ∈ st ->
  creationDate_le x y -> creationDate_le y x -> x = y.
Proof.
  intros [Hs _]. induction Hs as [|b st Hs IH Hall]; [by intros ?%elem_of_nil|].
  rewrite Forall_forall in Hall.
  intros [->|Hx]%elem_of_cons [->|Hy]%elem_of_cons Hxy Hyx; try done.
  - by apply Hall, dated_before_not_ge in Hy.
  - by apply Hall, dated_before_not_ge in Hx.
  - by apply IH.
Qed.

Lemma sorted_read_unique (st l : list block) :
  strictly_dated st -> sorted_read st l -> l = st.
Proof.
  intros Hst [Hp Hs].
  apply (StronglySorted_unique_strong creationDate_le); try done.
  - intros x1 x2 H1 H2. rewrite Hp in H1. by apply (strictly_dated_antisym st).
  - by apply strictly_dated_sorted.
Qed.

Lemma sorted_read_insertion_order (st : list block) :
  strictly_dated st -> sorted_read st st.
Proof. intros Hst. split; [done|]. by apply strictly_dated_sorted. Qed.

Lemma last_read_unique (st : list block) r :
  strictly_dated st -> last_read st r -> r = last st.
Proof.
  intros Hst. destruct r as [b|]; simpl.
  2:{ by intros ->. }
  intros [Hb Hmax]. destruct (last st) as [b'|] eqn:Hlast.
  2:{ apply last_None in Hlast. subst. by apply elem_of_nil in Hb. }
  f_equal. apply last_Some in Hlast as [st0 ->].
  apply elem_of_app in Hb as [Hb|Hb%list_elem_of_singleton]; [|done].
  exfalso. destruct Hst as [Hs _].
  apply (dated_before_not_ge b b').
  { apply (StronglySorted_app_1_elem_of _ _ _ _ _ Hs); [done|by left]. }
  apply Hmax. apply elem_of_app. right. by left.
Qed.

(** *** Sequential appends *)

Lemma addBlock_run_success nb st tr r st' :
  addBlock_run nb st tr r st' -> success r = true ->
  exists l lastBlock now id,
    tr = [EvFindSortedAsc (Resolved l); EvFindLast (Resolved lastBlock);
          EvNow (Resolved now);
          EvInsertOne (block_to_insert nb lastBlock now) (Resolved id)]
    /\ sorted_read st l /\ valid (validateChain_body l) = true
    /\ last_read st lastBlock
    /\ st' = st ++ [stored_doc (to_bson id) (block_to_insert nb lastBlock now)]
    /\ r = AddResult true (Some (set_prop "_id" id (block_to_insert nb lastBlock now)))
             None None.
Proof. intros H Hs. destruct H; try discriminate. by exists l, lastBlock, now, id. Qed.

Lemma addBlock_run_failure nb st tr r st' :
  addBlock_run nb st tr r st' -> success r = false -> st' = st.
Proof. intros H Hs. by destruct H. Qed.

Lemma previous_hash_of_last (st : list block) :
  (forall i, failure_at st i = None) ->
  exists s, previous_hash_of (last st) = VStr s.
Proof.
  intros Hok. destruct (last st) as [b|] eqn:Hlast; simpl; [|by eexists].
  exists (createHash b). apply isBlockValid_hash.
  apply (no_failure_isBlockValid st); [done|].
  apply last_Some in Hlast as [st0 ->]. apply elem_of_app. right. by left.
Qed.

Lemma entry_failure_stored id nb (st : list block) now :
  (forall i, failure_at st i = None) ->
  storable nb ->
  entry_failure (last st) (stored_doc id (block_to_insert nb (last st) now)) = None.
Proof.
  intros Hok Hnb. destruct (previous_hash_of_last st Hok) as [s Hs].
  unfold entry_failure. rewrite <- isBlockValid_digest.
  rewrite isBlockValid_stored by (by eapply storable_block_to_insert).
  cbn [negb]. rewrite (get_previousHash_stored _ _ _ _ s) by done.
  destruct (last st) as [b|]; unfold previous_hash_of in Hs.
  - by rewrite Hs, strict_eq_str_refl.
  - injection Hs as <-. by rewrite strict_eq_str_refl.
Qed.

Lemma built_no_failure (st : list block) :
  sequentially_built st -> strictly_dated st -> forall i, failure_at st i = None.
Proof.
  induction 1 as [|st nb tr r st' Hbuilt IH Hnb Hrun]; intros Hdated.
  { by intros [|i]. }
  apply run_addBlock in Hrun. destruct (success r) eqn:Hsucc.
  2:{ apply addBlock_run_failure in Hrun as ->; auto. }
  apply addBlock_run_success in Hrun
    as (l & lastBlock & now & id & _ & _ & _ & Hlast & -> & _); [|done].
  pose proof (strictly_dated_app_l _ _ Hdated) as Hst.
  apply (last_read_unique _ _ Hst) in Hlast as ->.
  apply failure_at_snoc; [by apply IH|]. by apply entry_failure_stored; [apply IH|].
Qed.

(** C7, as the code has it. A chain built by appends that run one after
    the other validates when every append stored a date strictly later
    than the dates stored before it (and the payloads are stored as they
    were given): the collection is then read in insertion order, the
    validator runs on it and accepts it, and no entry fails I1, I2 or I3. *)
Theorem sequential_appends_validate (st : list block) :
  sequentially_built st -> strictly_dated st ->
  run validateChain st [EvFindSortedAsc (Resolved st)] (validateChain_body st) st
  /\ forall l, sorted_read st l ->
       l = st /\ valid (validateChain_body l) = true
       /\ forall i, failure_at l i = None.
Proof.
  intros Hbuilt Hdated. split.
  - apply run_validateChain. split; [done|]. left. exists st.
    split; [done|]. split; [|done]. by apply sorted_read_insertion_order.
  - intros l Hl. apply sorted_read_unique in Hl as ->; [|done].
    split; [done|]. pose proof (built_no_failure st Hbuilt Hdated) as Hok.
    split; [by apply valid_iff_no_failure|done].
Qed.

(** C5, as the code has it. The ordering key of an appended entry is its
    [creationDate], the clock value that [addBlock] read; the snapshot
    and the tail are determined by it alone when the stored dates are
    strictly increasing: the snapshot is the insertion order and the tail
    the last document inserted. *)
Theorem ordering_key_is_creationDate (newBlock : obj) (st : list block)
    (tr : list event) (r : add_result) (st' : list block) :
  run (addBlock newBlock) st tr r st' -> success r = true ->
  exists l lastBlock now doc,
    tr !! 0%nat = Some (EvFindSortedAsc (Resolved l))
    /\ tr !! 1%nat = Some (EvFindLast (Resolved lastBlock))
    /\ tr !! 2%nat = Some (EvNow (Resolved now))
    /\ st' = st ++ [doc]
    /\ get "creationDate" doc = VDate (Some now)
    /\ (strictly_dated st ->
        l = st /\ lastBlock = last st
        /\ forall l', sorted_read st l' -> l' = st).
Proof.
  intros Hrun Hsucc. apply run_addBlock in Hrun.
  apply addBlock_run_success in Hrun
    as (l & lastBlock & now & id & -> & Hl & _ & Hlast & -> & _); [|done].
  exists l, lastBlock, now, (stored_doc (to_bson id) (block_to_insert newBlock lastBlock now)).
  repeat (split; [done|]). split; [apply get_creationDate_stored|].
  intros Hdated. split; [by apply sorted_read_unique|].
  split; [by apply last_read_unique|]. intros l'. by apply sorted_read_unique.
Qed.


(** *** Concrete appends *)

Lemma creationDate_le_refl (b : block) : creationDate_le b b.
Proof. unfold creationDate_le. destruct (sort_key b) as [[r x]|]; [right; lia|done]. Qed.

Lemma sorted_read_nil : sorted_read [] [].
Proof. split; [done|constructor]. Qed.

Lemma last_read_singleton (b : block) : last_read [b] (Some b).
Proof.
  split; [by left|]. intros b' ->%list_elem_of_singleton. apply creationDate_le_refl.
Qed.

Lemma run_addBlock_inserted (nb : obj) (st l : list block) lastBlock now h :
  sorted_read st l ->
  valid (validateChain_body l) = true ->
  last_read st lastBlock ->
  get "_id" nb = VUndefined ->
  (forall d, d ∈ st -> get "_id" d <> VObjectId h) ->
  run (addBlock nb) st
    [EvFindSortedAsc (Resolved l); EvFindLast (Resolved lastBlock);
     EvNow (Resolved now);
     EvInsertOne (block_to_insert nb lastBlock now) (Resolved (VObjectId h))]
    (AddResult true
       (Some (set_prop "_id" (VObjectId h) (block_to_insert nb lastBlock now)))
       None None)
    (st ++ [stored_doc (VObjectId h) (block_to_insert nb lastBlock now)]).
Proof.
  intros Hl Hv Hlast Hid Hfresh. apply run_addBlock.
  apply (add_inserted nb st l lastBlock now (VObjectId h)); try done.
  cbn [op_sem]. unfold block_to_insert at 1.
  rewrite !get_set_prop_ne, Hid by done. split; [by exists h|]. by split.
Qed.

Lemma run_entry0 t :
  run (addBlock definition_v1) []
    [EvFindSortedAsc (Resolved []); EvFindLast (Resolved None); EvNow (Resolved t);
     EvInsertOne (block_to_insert definition_v1 None t)
       (Resolved (VObjectId "65f000000000000000000001"))]
    (AddResult true
       (Some (set_prop "_id" (VObjectId "65f000000000000000000001")
                (block_to_insert definition_v1 None t)))
       None None)
    [entry0 t].
Proof.
  apply (run_addBlock_inserted definition_v1 [] [] None t).
  - apply sorted_read_nil.
  - reflexivity.
  - reflexivity.
  - reflexivity.
  - by intros d ?%elem_of_nil.
Qed.

Lemma get_id_stored_doc id (b : obj) : get "_id" (stored_doc id b) = id.
Proof. reflexivity. Qed.

Lemma run_entry1 t0 t :
  valid (validateChain_body [entry0 t0]) = true ->
  run (addBlock ballot_plain) [entry0 t0]
    [EvFindSortedAsc (Resolved [entry0 t0]); EvFindLast (Resolved (Some (entry0 t0)));
     EvNow (Resolved t);
     EvInsertOne (block_to_insert ballot_plain (Some (entry0 t0)) t)
       (Resolved (VObjectId "65f000000000000000000002"))]
    (AddResult true
       (Some (set_prop "_id" (VObjectId "65f000000000000000000002")
                (block_to_insert ballot_plain (Some (entry0 t0)) t)))
       None None)
    [entry0 t0; entry1 (Some (entry0 t0)) t].
Proof.
  intros Hv.
  apply (run_addBlock_inserted ballot_plain [entry0 t0] [entry0 t0] (Some (entry0 t0)) t).
  - apply sorted_read_singleton.
  - exact Hv.
  - apply last_read_singleton.
  - reflexivity.
  - intros d ->%list_elem_of_singleton. unfold entry0. by rewrite get_id_stored_doc.
Qed.

Lemma valid_entry0 t : valid (validateChain_body [entry0 t]) = true.
Proof.
  apply valid_iff_no_failure.
  apply (failure_at_snoc [] (entry0 t)); [by intros [|i]|].
  apply (entry_failure_stored _ definition_v1 []); [by intros [|i]|done].
Qed.

Lemma built_two_entries t0 t :
  sequentially_built [entry0 t0; entry1 (Some (entry0 t0)) t].
Proof.
  eapply (built_append _ ballot_plain); [|reflexivity|apply (run_entry1 t0 t), valid_entry0].
  eapply (built_append _ definition_v1); [apply built_empty|reflexivity|apply run_entry0].
Qed.

Lemma date_of_entry0 t : date_of (entry0 t) = Some t.
Proof. unfold date_of, entry0. by rewrite get_creationDate_stored. Qed.

Lemma date_of_entry1 p t : date_of (entry1 p t) = Some t.
Proof. unfold date_of, entry1. by rewrite get_creationDate_stored. Qed.

Lemma strictly_dated_two_entries p t0 t :
  (t0 < t)%Z -> strictly_dated [entry0 t0; entry1 p t].
Proof.
  intros Hlt. split.
  - apply SSorted_cons; [apply SSorted_cons; [apply SSorted_nil|constructor]|].
    constructor; [|constructor].
    exists t0, t. split; [apply date_of_entry0|]. split; [apply date_of_entry1|]. lia.
  - constructor; [exists t0; apply date_of_entry0|].
    constructor; [exists t; apply date_of_entry1|constructor].
Qed.

Lemma last_read_snoc (st : list block) b :
  strictly_dated (st ++ [b]) -> last_read (st ++ [b]) (Some b).
Proof.
  intros Hd. split; [apply elem_of_app; right; by left|].
  intros b' [Hb' | ->%list_elem_of_singleton]%elem_of_app;
    [|apply creationDate_le_refl].
  apply dated_before_le. destruct Hd as [Hs _].
  apply (StronglySorted_app_1_elem_of _ _ _ _ _ Hs); [done|by left].
Qed.

Lemma valid_two_entries t0 t :
  (t0 < t)%Z ->
  valid (validateChain_body [entry0 t0; entry1 (Some (entry0 t0)) t]) = true.
Proof.
  intros Hlt. apply valid_iff_no_failure, built_no_failure.
  - apply built_two_entries.
  - by apply strictly_dated_two_entries.
Qed.

Lemma run_entry2 t0 t1 t :
  (t0 < t1)%Z ->
  run (addBlock ballot_plain) [entry0 t0; entry1 (Some (entry0 t0)) t1]
    [EvFindSortedAsc (Resolved [entry0 t0; entry1 (Some (entry0 t0)) t1]);
     EvFindLast (Resolved (Some (entry1 (Some (entry0 t0)) t1)));
     EvNow (Resolved t);
     EvInsertOne (block_to_insert ballot_plain (Some (entry1 (Some (entry0 t0)) t1)) t)
       (Resolved (VObjectId "65f000000000000000000003"))]
    (AddResult true
       (Some (set_prop "_id" (VObjectId "65f000000000000000000003")
                (block_to_insert ballot_plain (Some (entry1 (Some (entry0 t0)) t1)) t)))
       None None)
    [entry0 t0; entry1 (Some (entry0 t0)) t1;
     entry2 (Some (entry1 (Some (entry0 t0)) t1)) t].
Proof.
  intros Hlt.
  apply (run_addBlock_inserted ballot_plain
           [entry0 t0; entry1 (Some (entry0 t0)) t1]
           [entry0 t0; entry1 (Some (entry0 t0)) t1]
           (Some (entry1 (Some (entry0 t0)) t1)) t).
  - by apply sorted_read_insertion_order, strictly_dated_two_entries.
  - by apply valid_two_entries.
  - apply (last_read_snoc [entry0 t0]). by apply strictly_dated_two_entries.
  - reflexivity.
  - intros d [->|Hd]%elem_of_cons.
    + unfold entry0. by rewrite get_id_stored_doc.
    + apply list_elem_of_singleton in Hd as ->.
      unfold entry1. by rewrite get_id_stored_doc.
Qed.

(** C7, counterexample: the clock is set back by a millisecond between two
    appends that run one after the other. The second entry then sorts
    before the first, and the validator rejects the chain at index 0. *)
Lemma sequential_chain_invalid_when_clock_steps_back :
  ~ sequential_chain_always_valid.
Proof.
  intros H.
  specialize (H [entry0 1700000000000; entry1 (Some (entry0 1700000000000)) 1699999999999]
                (built_two_entries _ _)
                [entry1 (Some (entry0 1700000000000)) 1699999999999; entry0 1700000000000]).
  assert (valid (validateChain_body
            [entry1 (Some (entry0 1700000000000)) 1699999999999; entry0 1700000000000])
          = false) as Hinvalid by (vm_compute; reflexivity).
  rewrite H in Hinvalid; [discriminate|].
  split; [apply perm_swap|].
  apply SSorted_cons; [apply SSorted_cons; [apply SSorted_nil|constructor]|].
  constructor; [|constructor]. apply dated_before_le.
  exists 1699999999999%Z, 1700000000000%Z.
  split; [apply date_of_entry1|]. split; [apply date_of_entry0|]. lia.
Qed.

Lemma sequential_appends_validate_witness :
  run validateChain [entry0 1700000000000; entry1 (Some (entry0 1700000000000)) 1700000000001]
    [EvFindSortedAsc
       (Resolved [entry0 1700000000000; entry1 (Some (entry0 1700000000000)) 1700000000001])]
    (validateChain_body
       [entry0 1700000000000; entry1 (Some (entry0 1700000000000)) 1700000000001])
    [entry0 1700000000000; entry1 (Some (entry0 1700000000000)) 1700000000001]
  /\ forall l,
       sorted_read
         [entry0 1700000000000; entry1 (Some (entry0 1700000000000)) 1700000000001] l ->
       l = [entry0 1700000000000; entry1 (Some (entry0 1700000000000)) 1700000000001]
       /\ valid (validateChain_body l) = true
       /\ forall i, failure_at l i = None.
Proof.
  apply (sequential_appends_validate
           [entry0 1700000000000; entry1 (Some (entry0 1700000000000)) 1700000000001]).
  - apply built_two_entries.
  - apply strictly_dated_two_entries. lia.
Defined.

(** C5, counterexample: two appends that run one after the other within
    the same millisecond store the same ordering key. *)
Lemma ordering_key_not_strict : ~ ordering_key_is_strict_clock.
Proof.
  intros H.
  destruct (H [entry0 1700000000000; entry1 (Some (entry0 1700000000000)) 1700000000000]
              (built_two_entries _ _)) as [[Hsorted _] _].
  apply StronglySorted_inv in Hsorted as [_ Hall].
  apply Forall_cons in Hall as [(ta & tb & Ha & Hb & Hlt) _].
  pose proof (date_of_entry0 1700000000000) as Ha'.
  pose proof (date_of_entry1 (Some (entry0 1700000000000)) 1700000000000) as Hb'.
  rewrite Ha' in Ha. rewrite Hb' in Hb.
  injection Ha as <-. injection Hb as <-. lia.
Qed.

(** With equal keys both orders are admissible reads, and the validator
    accepts one and rejects the other. *)
Example same_millisecond_two_orders :
  sorted_read [entry0 1700000000000; entry1 (Some (entry0 1700000000000)) 1700000000000]
    [entry0 1700000000000; entry1 (Some (entry0 1700000000000)) 1700000000000]
  /\ sorted_read
       [entry0 1700000000000; entry1 (Some (entry0 1700000000000)) 1700000000000]
       [entry1 (Some (entry0 1700000000000)) 1700000000000; entry0 1700000000000]
  /\ valid (validateChain_body
              [entry0 1700000000000;
               entry1 (Some (entry0 1700000000000)) 1700000000000]) = true
  /\ valid (validateChain_body
              [entry1 (Some (entry0 1700000000000)) 1700000000000;
               entry0 1700000000000]) = false.
Proof.
  assert (creationDate_le (entry0 1700000000000)
            (entry1 (Some (entry0 1700000000000)) 1700000000000)) as H01.
  { unfold creationDate_le.
    rewrite (dated_sort_key _ _ (date_of_entry0 1700000000000)).
    rewrite (dated_sort_key _ _ (date_of_entry1 (Some (entry0 1700000000000))
                                   1700000000000)).
    right. lia. }
  assert (creationDate_le (entry1 (Some (entry0 1700000000000)) 1700000000000)
            (entry0 1700000000000)) as H10.
  { unfold creationDate_le.
    rewrite (dated_sort_key _ _ (date_of_entry0 1700000000000)).
    rewrite (dated_sort_key _ _ (date_of_entry1 (Some (entry0 1700000000000))
                                   1700000000000)).
    right. lia. }
  split; [|split; [|split]].
  - split; [done|].
    apply SSorted_cons; [apply SSorted_cons; [apply SSorted_nil|constructor]|].
    constructor; [exact H01|constructor].
  - split; [apply perm_swap|].
    apply SSorted_cons; [apply SSorted_cons; [apply SSorted_nil|constructor]|].
    constructor; [exact H10|constructor].
  - vm_compute. reflexivity.
  - vm_compute. reflexivity.
Qed.

Lemma ordering_key_is_creationDate_witness :
  exists l lastBlock now doc,
    [EvFindSortedAsc
       (Resolved [entry0 1700000000000;
                  entry1 (Some (entry0 1700000000000)) 1700000000001]);
     EvFindLast (Resolved (Some (entry1 (Some (entry0 1700000000000)) 1700000000001)));
     EvNow (Resolved 1700000000002%Z);
     EvInsertOne
       (block_to_insert ballot_plain
          (Some (entry1 (Some (entry0 1700000000000)) 1700000000001)) 1700000000002)
       (Resolved (VObjectId "65f000000000000000000003"))] !! 0%nat
    = Some (EvFindSortedAsc (Resolved l))
    /\ [EvFindSortedAsc
          (Resolved [entry0 1700000000000;
                     entry1 (Some (entry0 1700000000000)) 1700000000001]);
        EvFindLast
          (Resolved (Some (entry1 (Some (entry0 1700000000000)) 1700000000001)));
        EvNow (Resolved 1700000000002%Z);
        EvInsertOne
          (block_to_insert ballot_plain
             (Some (entry1 (Some (entry0 1700000000000)) 1700000000001))
             1700000000002)
          (Resolved (VObjectId "65f000000000000000000003"))] !! 1%nat
       = Some (EvFindLast (Resolved lastBlock))
    /\ [EvFindSortedAsc
          (Resolved [entry0 1700000000000;
                     entry1 (Some (entry0 1700000000000)) 1700000000001]);
        EvFindLast
          (Resolved (Some (entry1 (Some (entry0 1700000000000)) 1700000000001)));
        EvNow (Resolved 1700000000002%Z);
        EvInsertOne
          (block_to_insert ballot_plain
             (Some (entry1 (Some (entry0 1700000000000)) 1700000000001))
             1700000000002)
          (Resolved (VObjectId "65f000000000000000000003"))] !! 2%nat
       = Some (EvNow (Resolved now))
    /\ [entry0 1700000000000; entry1 (Some (entry0 1700000000000)) 1700000000001;
        entry2 (Some (entry1 (Some (entry0 1700000000000)) 1700000000001))
          1700000000002]
       = [entry0 1700000000000; entry1 (Some (entry0 1700000000000)) 1700000000001]
         ++ [doc]
    /\ get "creationDate" doc = VDate (Some now)
    /\ (strictly_dated
          [entry0 1700000000000; entry1 (Some (entry0 1700000000000)) 1700000000001] ->
        l = [entry0 1700000000000; entry1 (Some (entry0 1700000000000)) 1700000000001]
        /\ lastBlock
           = last [entry0 1700000000000;
                   entry1 (Some (entry0 1700000000000)) 1700000000001]
        /\ forall l',
             sorted_read
               [entry0 1700000000000;
                entry1 (Some (entry0 1700000000000)) 1700000000001] l' ->
             l' = [entry0 1700000000000;
                   entry1 (Some (entry0 1700000000000)) 1700000000001]).
Proof.
  apply (ordering_key_is_creationDate ballot_plain
           [entry0 1700000000000; entry1 (Some (entry0 1700000000000)) 1700000000001]
           _ _ _ (run_entry2 1700000000000 1700000000001 1700000000002 ltac:(lia))).
  reflexivity.
Defined.


(** *** Racing appends *)

Lemma op_sem_InsertOne_fresh (nb : obj) lastBlock now (st : list block) h :
  get "_id" nb = VUndefined ->
  (forall d, d ∈ st -> get "_id" d <> VObjectId h) ->
  op_sem (InsertOne (block_to_insert nb lastBlock now)) st (Resolved (VObjectId h))
    (st ++ [stored_doc (VObjectId h) (block_to_insert nb lastBlock now)]).
Proof.
  intros Hid Hfresh. cbn [op_sem]. unfold block_to_insert at 1.
  rewrite !get_set_prop_ne, Hid by done. split; [by exists h|]. by split.
Qed.

(** Two appends that both read the collection before either inserts: both
    commit, whatever the other one inserted in between. *)
Lemma racing_appends_commit (b1 b2 : obj) (st l : list block) lastBlock t1 t2 h1 h2 :
  sorted_read st l ->
  valid (validateChain_body l) = true ->
  last_read st lastBlock ->
  get "_id" b1 = VUndefined -> get "_id" b2 = VUndefined ->
  (forall d, d ∈ st -> get "_id" d <> VObjectId h1) ->
  (forall d, d ∈ st -> get "_id" d <> VObjectId h2) ->
  h1 <> h2 ->
  interleave st [addBlock b1; addBlock b2]
    ((st ++ [stored_doc (VObjectId h1) (block_to_insert b1 lastBlock t1)])
     ++ [stored_doc (VObjectId h2) (block_to_insert b2 lastBlock t2)])
    [Ret (AddResult true
            (Some (set_prop "_id" (VObjectId h1) (block_to_insert b1 lastBlock t1)))
            None None);
     Ret (AddResult true
            (Some (set_prop "_id" (VObjectId h2) (block_to_insert b2 lastBlock t2)))
            None None)].
Proof.
  intros Hl Hvalid Hlast Hid1 Hid2 Hfresh1 Hfresh2 Hne.
  assert (run validateChain st [EvFindSortedAsc (Resolved l)] (validateChain_body l) st)
    as Hrun.
  { apply run_validateChain. split; [done|]. left. by exists l. }
  (* both read the collection and validate the snapshot *)
  eapply (interleave_run_bind validateChain _ st _ _ st _ 0%nat);
    [reflexivity|exact Hrun|].
  eapply (interleave_run_bind validateChain _ st _ _ st _ 1%nat);
    [reflexivity|exact Hrun|].
  cbv beta. rewrite Hvalid. cbn [negb].
  (* both find the same last block *)
  eapply (interleave_step _ _ 0%nat); [reflexivity| |].
  { hnf. exists (Resolved lastBlock). split; [|reflexivity]. by split. }
  eapply (interleave_step _ _ 1%nat); [reflexivity| |].
  { hnf. exists (Resolved lastBlock). split; [|reflexivity]. by split. }
  (* both read the clock *)
  eapply (interleave_step _ _ 0%nat); [reflexivity| |].
  { hnf. exists (Resolved t1). split; [|reflexivity]. by split. }
  eapply (interleave_step _ _ 1%nat); [reflexivity| |].
  { hnf. exists (Resolved t2). split; [|reflexivity]. by split. }
  (* both insert *)
  eapply (interleave_step _ _ 0%nat); [reflexivity| |].
  { hnf. exists (Resolved (VObjectId h1)). split; [|reflexivity].
    by apply (op_sem_InsertOne_fresh b1 lastBlock t1 st). }
  eapply (interleave_step _ _ 1%nat); [reflexivity| |].
  { hnf. exists (Resolved (VObjectId h2)). split; [|reflexivity].
    apply (op_sem_InsertOne_fresh b2 lastBlock t2); [done|].
    intros d [Hd | ->%list_elem_of_singleton]%elem_of_app; [by apply Hfresh2|].
    rewrite get_id_stored_doc. congruence. }
  apply interleave_done.
Qed.

Lemma get_previousHash_added id nb lastBlock now :
  get "previousHash" (set_prop "_id" id (block_to_insert nb lastBlock now))
  = previous_hash_of lastBlock.
Proof. rewrite get_set_prop_ne by done. apply get_previousHash_block_to_insert. Qed.

(** The newest document is the one found last when every other document
    is dated before it. *)
Lemma last_read_newest (st : list block) d r :
  Forall (fun b => dated_before b d) st -> last_read (st ++ [d]) r -> r = Some d.
Proof.
  intros Hall. destruct r as [b|]; simpl.
  2:{ intros E. by destruct st. }
  intros [Hb Hmax]. f_equal.
  apply elem_of_app in Hb as [Hb|Hb%list_elem_of_singleton]; [|done].
  exfalso. rewrite Forall_forall in Hall.
  apply (dated_before_not_ge b d (Hall b Hb)).
  apply Hmax. apply elem_of_app. right. by left.
Qed.

(** C1, as the code has it. Two appends that run one after the other,
    the first at a clock value later than every stored date, extend
    different tails: the first links to the document found last, a
    document with the latest date (the last one inserted when the dates
    are strictly increasing) or the genesis sentinel on the empty
    collection; the second links to the document the first one stored.
    The insert is not conditioned on the tail: two appends that both read
    the tail before either inserts both commit, with the same
    [previousHash]. *)
Theorem sequential_appends_extend_new_tail (b1 b2 : obj) (st : list block)
    (tr1 tr2 : list event) (r1 r2 : add_result) (st1 st2 : list block) (t1 : Z) :
  run (addBlock b1) st tr1 r1 st1 ->
  run (addBlock b2) st1 tr2 r2 st2 ->
  success r1 = true -> success r2 = true ->
  tr1 !! 2%nat = Some (EvNow (Resolved t1)) ->
  Forall (fun b => exists t, date_of b = Some t /\ (t < t1)%Z) st ->
  (exists d1 d2 lastBlock,
     st1 = st ++ [d1] /\ st2 = st ++ [d1; d2]
     /\ tr1 !! 1%nat = Some (EvFindLast (Resolved lastBlock))
     /\ last_read st lastBlock
     /\ (strictly_dated st -> lastBlock = last st)
     /\ get "previousHash" d1 = previous_hash_of lastBlock
     /\ get "previousHash" d2 = get "hash" d1)
  /\ (forall l lastBlock (t1 t2 : Z) h1 h2,
        sorted_read st l -> valid (validateChain_body l) = true ->
        last_read st lastBlock ->
        get "_id" b1 = VUndefined -> get "_id" b2 = VUndefined ->
        (forall d, d ∈ st -> get "_id" d <> VObjectId h1) ->
        (forall d, d ∈ st -> get "_id" d <> VObjectId h2) ->
        h1 <> h2 ->
        exists st' c1 c2 d1 d2,
          interleave st [addBlock b1; addBlock b2] st' [Ret c1; Ret c2]
          /\ success c1 = true /\ success c2 = true
          /\ added c1 = Some d1 /\ added c2 = Some d2
          /\ get "previousHash" d1 = previous_hash_of lastBlock
          /\ get "previousHash" d2 = previous_hash_of lastBlock).
Proof.
  intros Hrun1 Hrun2 Hs1 Hs2 Hnow Hdated. split.
  - apply run_addBlock in Hrun1. apply run_addBlock in Hrun2.
    apply addBlock_run_success in Hrun1
      as (l1 & last1 & now1 & id1 & -> & Hl1 & Hv1 & Hlast1 & -> & _); [|done].
    apply addBlock_run_success in Hrun2
      as (l2 & last2 & now2 & id2 & _ & Hl2 & Hv2 & Hlast2 & -> & _); [|done].
    injection Hnow as ->.
    apply last_read_newest in Hlast2 as ->.
    2:{ eapply Forall_impl; [exact Hdated|]. intros b (t & Ht & Hlt).
        exists t, t1. split; [done|]. split; [|done].
        unfold date_of. by rewrite get_creationDate_stored. }
    eexists _, _, last1. split; [done|]. split; [by rewrite <-app_assoc|].
    split; [done|]. split; [done|].
    split; [intros Hst; by apply last_read_unique|].
    assert (exists s, previous_hash_of last1 = VStr s) as [s Hs].
    { destruct last1 as [b|]; simpl; [|by eexists].
      exists (createHash b). apply (valid_chain_hash_string st l1); [done..|].
      by destruct Hlast1. }
    split.
    + rewrite (get_previousHash_stored _ _ _ _ s) by done. by rewrite Hs.
    + rewrite get_hash_stored.
      apply get_previousHash_stored. unfold previous_hash_of. apply get_hash_stored.
  - intros l lastBlock t t2 h1 h2 Hl Hv Hlast Hid1 Hid2 Hf1 Hf2 Hne.
    eexists _, _, _, _, _.
    split; [by apply (racing_appends_commit b1 b2 st l lastBlock t t2 h1 h2)|].
    repeat (split; [reflexivity|]). split; apply get_previousHash_added.
Qed.

Lemma sequential_appends_extend_new_tail_witness :
  (exists d1 d2 lastBlock,
     [entry0 1700000000000; entry1 (Some (entry0 1700000000000)) 1700000000001]
     = [entry0 1700000000000] ++ [d1]
     /\ [entry0 1700000000000; entry1 (Some (entry0 1700000000000)) 1700000000001;
         entry2 (Some (entry1 (Some (entry0 1700000000000)) 1700000000001))
           1700000000002]
        = [entry0 1700000000000] ++ [d1; d2]
     /\ [EvFindSortedAsc (Resolved [entry0 1700000000000]);
         EvFindLast (Resolved (Some (entry0 1700000000000)));
         EvNow (Resolved 1700000000001%Z);
         EvInsertOne
           (block_to_insert ballot_plain (Some (entry0 1700000000000)) 1700000000001)
           (Resolved (VObjectId "65f000000000000000000002"))] !! 1%nat
        = Some (EvFindLast (Resolved lastBlock))
     /\ last_read [entry0 1700000000000] lastBlock
     /\ (strictly_dated [entry0 1700000000000] ->
         lastBlock = last [entry0 1700000000000])
     /\ get "previousHash" d1 = previous_hash_of lastBlock
     /\ get "previousHash" d2 = get "hash" d1)
  /\ (forall l lastBlock (t1 t2 : Z) h1 h2,
        sorted_read [entry0 1700000000000] l ->
        valid (validateChain_body l) = true ->
        last_read [entry0 1700000000000] lastBlock ->
        get "_id" ballot_plain = VUndefined -> get "_id" ballot_plain = VUndefined ->
        (forall d : block, d ∈ [entry0 1700000000000] -> get "_id" d <> VObjectId h1) ->
        (forall d : block, d ∈ [entry0 1700000000000] -> get "_id" d <> VObjectId h2) ->
        h1 <> h2 ->
        exists st' c1 c2 d1 d2,
          interleave [entry0 1700000000000] [addBlock ballot_plain; addBlock ballot_plain]
            st' [Ret c1; Ret c2]
          /\ success c1 = true /\ success c2 = true
          /\ added c1 = Some d1 /\ added c2 = Some d2
          /\ get "previousHash" d1 = previous_hash_of lastBlock
          /\ get "previousHash" d2 = previous_hash_of lastBlock).
Proof.
  apply (sequential_appends_extend_new_tail ballot_plain ballot_plain
           [entry0 1700000000000] _ _ _ _ _ _ 1700000000001
           (run_entry1 1700000000000 1700000000001 (valid_entry0 1700000000000))
           (run_entry2 1700000000000 1700000000001 1700000000002 ltac:(lia))).
  - reflexivity.
  - reflexivity.
  - reflexivity.
  - constructor; [|constructor]. exists 1700000000000%Z.
    split; [apply date_of_entry0|lia].
Defined.

(** C1, counterexample: two appends race from the empty collection. Both
    read the empty snapshot and no last block before either inserts, both
    commits succeed, and both entries link to the genesis sentinel. *)
Lemma racing_appends_extend_same_tail : ~ racing_appends_exclusive.
Proof.
  intros H.
  apply (H definition_v1 ballot_plain [] _ _ _ _ _
           (racing_appends_commit definition_v1 ballot_plain [] [] None
              1700000000000 1700000000001
              "65f000000000000000000001" "65f000000000000000000002"
              sorted_read_nil eq_refl eq_refl eq_refl eq_refl
              (fun d Hd => False_ind _ (proj1 (elem_of_nil d) Hd))
              (fun d Hd => False_ind _ (proj1 (elem_of_nil d) Hd))
              ltac:(discriminate))
           eq_refl eq_refl eq_refl eq_refl).
  by rewrite !get_previousHash_added.
Qed.

(** After the race the chain is forked: the validator rejects it. *)
Example racing_appends_fork_the_chain :
  validateChain_body [entry0 1700000000000; entry1 None 1700000000001]
  = Validation false
      "Невалідний ланцюг: блок 65f000000000000000000002 має неправильний попередній хеш"
      (Some 1%nat) None.
Proof. vm_compute. reflexivity. Qed.

(** ** Eligibility *)

Lemma run_getUserRole userId st tr r st' :
  run (getUserRole userId) st tr r st' <-> st' = st /\ getUserRole_run userId tr r.
Proof.
  unfold getUserRole, await. cbn [run]. split.
  - intros (out & st1 & tr1 & -> & Hop & H). cbn [op_sem] in Hop. subst st1.
    destruct out as [[user|]|e]; cbn [run] in H.
    + destruct H as (-> & -> & ->). split; [done|]. constructor.
    + destruct H as (-> & -> & ->). split; [done|]. constructor.
    + destruct (converts userId) eqn:Hc.
      2:{ rewrite (not_converts_ToString _ Hc) in H. cbn [run] in H.
          destruct H as (-> & -> & ->). split; [done|]. by constructor. }
      rewrite (converts_ToString _ Hc) in H. fold (role_url userId) in H.
      cbn [run] in H.
      destruct H as (out2 & st2 & tr2 & -> & Hop2 & H). cbn [op_sem] in Hop2.
      subst st2. destruct out2 as [resp|e']; cbn [run] in H.
      2:{ destruct H as (-> & -> & ->). split; [done|]. by constructor. }
      destruct (resp_ok resp) eqn:Hok; cbn [run] in H.
      2:{ destruct H as (-> & -> & ->). split; [done|]. by constructor. }
      destruct H as (out3 & st3 & tr3 & -> & Hop3 & H). cbn [op_sem] in Hop3.
      subst st3. destruct out3 as [answer|e'']; cbn [run] in H;
        destruct H as (-> & -> & ->); (split; [done|]); by constructor.
  - intros (-> & H).
    destruct H as [|user|e Hc|e e' Hc|e resp Hc H|e resp e' Hc H|e resp answer Hc H];
      try (eexists (Rejected e), st, _; split; [done|]; split; [done|]);
      try rewrite (not_converts_ToString _ Hc);
      try (rewrite (converts_ToString _ Hc); fold (role_url userId)); cbn [run].
    + by eexists (Resolved None), st, [].
    + by eexists (Resolved (Some user)), st, [].
    + done.
    + by eexists (Rejected e'), st, [].
    + eexists (Resolved resp), st, []. split; [done|]. split; [done|].
      by rewrite H.
    + eexists (Resolved resp), st, _. split; [done|]. split; [done|].
      rewrite H. by eexists (Rejected e'), st, [].
    + eexists (Resolved resp), st, _. split; [done|]. split; [done|].
      rewrite H. by eexists (Resolved answer), st, [].
Qed.

(** The role lookup observes the events of exactly one of its runs. *)
Lemma getUserRole_run_prefix userId tr1 r1 tr2 rest1 rest2 r2 :
  getUserRole_run userId tr1 r1 -> getUserRole_run userId tr2 r2 ->
  tr1 ++ rest1 = tr2 ++ rest2 -> tr1 = tr2 /\ r1 = r2 /\ rest1 = rest2.
Proof.
  intros H1 H2 E. destruct H1; destruct H2; simplify_eq/=; try done; congruence.
Qed.

(** A run of the role lookup whose events start as a resolution failure
    does is that failure, unless it stopped before any request to the
    authentication server, which then is not what follows. *)
Lemma resolution_failure_run userId tr1 rest1 tr2 r2 rest2 :
  resolution_failure userId tr1 -> getUserRole_run userId tr2 r2 ->
  tr1 ++ rest1 = tr2 ++ rest2 ->
  r2 = VNull
  /\ ((tr1 = tr2 /\ rest1 = rest2)
      \/ exists path out rest, rest2 = EvFetch path out :: rest).
Proof.
  intros H1 H2 E. destruct H1; destruct H2; simplify_eq/=;
    try (split; [done|]); try (by left); try (by right; eauto); congruence.
Qed.

Lemma run_remaining_checks_first (Date_parse : string -> option Z) userId voteId
    st tr r st' :
  run (remaining_checks Date_parse userId voteId) st tr r st' ->
  exists out rest, tr = EvFindOne (ballot_filter userId voteId) out :: rest.
Proof.
  unfold remaining_checks, await. cbn [run].
  intros (out & st1 & tr1 & -> & _). by exists out, tr1.
Qed.

Section Eligibility.

Variable Date_parse : string -> option Z.

Lemma run_canUserVote userId voteId st tr r st' :
  run (canUserVote Date_parse userId voteId) st tr r st'
  <-> exists tr_role userInfo tr_rest,
        tr = tr_role ++ tr_rest
        /\ getUserRole_run userId tr_role userInfo
        /\ if truthy userInfo && strict_eq (prop "status" userInfo) (VStr "admin")
           then tr_rest = [] /\ r = admins_cannot_vote /\ st' = st
           else run (remaining_checks Date_parse userId voteId) st tr_rest r st'.
Proof.
  unfold canUserVote. rewrite run_mbind. split.
  - intros (userInfo & st1 & tr1 & tr2 & -> & Hrole & H).
    apply run_getUserRole in Hrole as [-> Hrole].
    exists tr1, userInfo, tr2. split; [done|]. split; [done|].
    destruct (truthy userInfo && _); [|exact H]. by destruct H as (-> & -> & ->).
  - intros (tr1 & userInfo & tr2 & -> & Hrole & H).
    exists userInfo, st, tr1, tr2. split; [done|].
    split; [by apply run_getUserRole|].
    destruct (truthy userInfo && _); [|exact H]. by destruct H as (-> & -> & ->).
Qed.

Lemma run_remaining_checks userId voteId st tr r st' :
  run (remaining_checks Date_parse userId voteId) st tr r st' ->
  st' = st
  /\ (canVote r = true ->
      exists vb now,
        tr = [EvFindOne (ballot_filter userId voteId) (Resolved None);
              EvFindOne (definition_filter voteId) (Resolved (Some vb));
              EvNow (Resolved now)]
        /\ findOne_read (ballot_filter userId voteId) st None
        /\ findOne_read (definition_filter voteId) st (Some vb)
        /\ time_lt (newDate Date_parse (get "endDate" vb)) (Some now) = false
        /\ r = VoteCheck true None (Some vb)).
Proof.
  unfold remaining_checks, await. cbn [run].
  fold (ballot_filter userId voteId). fold (definition_filter voteId).
  intros (out1 & st1 & tr1 & -> & [-> Hop1] & H).
  destruct out1 as [[existing|]|e]; cbn [run] in H;
    try (destruct H as (-> & -> & ->); split; [done|discriminate]).
  destruct H as (out2 & st2 & tr2 & -> & [-> Hop2] & H).
  destruct out2 as [[vb|]|e]; cbn [run] in H;
    try (destruct H as (-> & -> & ->); split; [done|discriminate]).
  destruct H as (out3 & st3 & tr3 & -> & [-> Hop3] & H).
  destruct out3 as [now|e]; [|done].
  destruct (ToString (get "endDate" vb)); cbn [run] in H;
    [|destruct H as (-> & -> & ->); split; [done|discriminate]].
  destruct (time_lt (newDate Date_parse (get "endDate" vb)) (Some now)) eqn:Hlt;
    cbn [run] in H; destruct H as (-> & -> & ->); (split; [done|]); [discriminate|].
  intros _. by exists vb, now.
Qed.

Lemma run_remaining_checks_accept userId voteId st vb now :
  findOne_read (ballot_filter userId voteId) st None ->
  findOne_read (definition_filter voteId) st (Some vb) ->
  converts (get "endDate" vb) = true ->
  time_lt (newDate Date_parse (get "endDate" vb)) (Some now) = false ->
  run (remaining_checks Date_parse userId voteId) st
    [EvFindOne (ballot_filter userId voteId) (Resolved None);
     EvFindOne (definition_filter voteId) (Resolved (Some vb));
     EvNow (Resolved now)]
    (VoteCheck true None (Some vb)) st.
Proof.
  intros H1 H2 Hc Hlt. unfold remaining_checks, await. cbn [run].
  eexists (Resolved None), st, _. split; [done|]. split; [done|].
  eexists (Resolved (Some vb)), st, _. split; [done|]. split; [done|].
  eexists (Resolved now), st, _. split; [done|]. split; [done|].
  by rewrite (converts_ToString _ Hc), Hlt.
Qed.

Lemma run_canUserVote_store userId voteId st tr r st' :
  run (canUserVote Date_parse userId voteId) st tr r st' ->
  st' = st
  /\ (canVote r = true ->
      exists vb, voteBlock r = Some vb
                 /\ findOne_read (ballot_filter userId voteId) st None
                 /\ findOne_read (definition_filter voteId) st (Some vb)).
Proof.
  intros (tr1 & userInfo & tr2 & -> & Hrole & H)%run_canUserVote.
  destruct (truthy userInfo && _).
  - destruct H as (-> & -> & ->). split; [done|discriminate].
  - apply run_remaining_checks in H as [-> H]. split; [done|].
    intros Hcan. destruct (H Hcan) as (vb & now & _ & H1 & H2 & _ & ->).
    by exists vb.
Qed.

(** C3, as the code has it. A request to create a vote in which identity
    resolution fails to produce a role is rejected with status 403 and
    stores nothing. In [canUserVote] a resolution failure does not deny:
    the user is taken not to be an administrator and the remaining checks
    decide. *)
Theorem identity_failure_denies_creation (reqBody : obj) (st : list block)
    (tr_role tr_rest : list event) (r : response) (st' : list block) :
  run (create_vote Date_parse reqBody) st (tr_role ++ tr_rest) r st' ->
  resolution_failure (get "creatorId" reqBody) tr_role ->
  (status r = 403%Z /\ st' = st /\ tr_rest = [])
  /\ (forall userId voteId st2 tr_role2 tr_rest2 r2 st2',
        run (canUserVote Date_parse userId voteId) st2 (tr_role2 ++ tr_rest2) r2 st2' ->
        resolution_failure userId tr_role2 ->
        run (remaining_checks Date_parse userId voteId) st2 tr_rest2 r2 st2').
Proof.
  intros Hrun Hfail. split.
  - unfold create_vote in Hrun.
    match type of Hrun with run (if ?c then _ else _) _ _ _ _ => destruct c end.
    { destruct Hrun as (E & _). destruct Hfail; discriminate E. }
    apply run_mbind in Hrun as (userInfo & st1 & tr1 & tr2 & E & Hrole & H).
    apply run_getUserRole in Hrole as [-> Hrole].
    destruct (resolution_failure_run _ _ _ _ _ _ Hfail Hrole E)
      as (-> & [[<- ->]|(path & out & rest & ->)]);
      cbn [truthy negb orb] in H; by destruct H as (? & -> & ->).
  - intros userId voteId st2 tr_role2 tr_rest2 r2 st2' Hrun2 Hfail2.
    apply run_canUserVote in Hrun2 as (tr1 & userInfo & tr2 & E & Hrole & H).
    destruct (resolution_failure_run _ _ _ _ _ _ Hfail2 Hrole E)
      as (-> & [[<- ->]|(path & out & rest & ->)]); cbn [truthy andb] in H;
      [exact H|].
    by apply run_remaining_checks_first in H as (? & ? & ?).
Qed.

Lemma run_vote_stored (reqBody : obj) (st : list block) tr1 vb l tr2 res st' :
  truthy (get "voterId" reqBody) = true ->
  truthy (get "voteId" reqBody) = true ->
  truthy (get "candidate" reqBody) = true ->
  run (canUserVote Date_parse (get "voterId" reqBody) (get "voteId" reqBody))
    st tr1 (VoteCheck true None (Some vb)) st ->
  get "options" vb = VArr l ->
  existsb (same_value_zero (get "candidate" reqBody)) l = true ->
  run (addBlock [("type", VStr "vote"); ("voterId", get "voterId" reqBody);
                 ("voteId", get "voteId" reqBody);
                 ("candidate", get "candidate" reqBody)]) st tr2 res st' ->
  success res = true ->
  run (vote Date_parse reqBody) st (tr1 ++ tr2)
    (Response 200 (added_body "Голос збережено" res)) st'.
Proof.
  intros H1 H2 H3 Hcheck Hopt Hincl Hadd Hsucc. unfold vote.
  rewrite H1, H2, H3. cbn [negb orb]. apply run_mbind.
  exists (VoteCheck true None (Some vb)), st, tr1, tr2.
  split; [done|]. split; [done|]. cbn [canVote voteBlock negb].
  rewrite Hopt, Hincl. cbn [negb]. apply run_mbind.
  exists res, st', tr2, []. rewrite app_nil_r. split; [done|]. split; [done|].
  by rewrite Hsucc.
Qed.

End Eligibility.

(** *** Concrete requests *)

Lemma no_ballot_in_entry0 t0 u v :
  findOne_read (ballot_filter (VStr u) (VStr v)) [entry0 t0] None.
Proof.
  intros b ->%list_elem_of_singleton. unfold ballot_filter, matches.
  unfold entry0. rewrite !get_stored_doc by done.
  unfold block_to_insert. rewrite !to_bson_doc_set_prop, !get_set_prop_ne by done.
  cbn. discriminate.
Qed.

Lemma definition_in_entry0 t0 :
  findOne_read (definition_filter (VStr "v1")) [entry0 t0] (Some (entry0 t0)).
Proof.
  split; [by left|]. unfold definition_filter, matches.
  unfold entry0. rewrite !get_stored_doc by done.
  unfold block_to_insert. rewrite !to_bson_doc_set_prop, !get_set_prop_ne by done.
  cbn. discriminate.
Qed.

Lemma get_endDate_entry0 t0 : get "endDate" (entry0 t0) = VDate (Some 1800000000000%Z).
Proof.
  unfold entry0. rewrite get_stored_doc by done.
  unfold block_to_insert. by rewrite !to_bson_doc_set_prop, !get_set_prop_ne by done.
Qed.

Lemma get_options_entry0 t0 : get "options" (entry0 t0) = VArr [VStr "A"; VStr "B"].
Proof.
  unfold entry0. rewrite get_stored_doc by done.
  unfold block_to_insert. by rewrite !to_bson_doc_set_prop, !get_set_prop_ne by done.
Qed.

Lemma run_canUserVote_unresolved parse t0 now e e' :
  (now <= 1800000000000)%Z ->
  run (canUserVote parse (VStr "u1") (VStr "v1")) [entry0 t0]
    ([EvFindUser (VStr "u1") (Rejected e);
      EvFetch (role_url (VStr "u1")) (Rejected e')]
     ++ [EvFindOne (ballot_filter (VStr "u1") (VStr "v1")) (Resolved None);
         EvFindOne (definition_filter (VStr "v1")) (Resolved (Some (entry0 t0)));
         EvNow (Resolved now)])
    (VoteCheck true None (Some (entry0 t0))) [entry0 t0].
Proof.
  intros Hnow. apply run_canUserVote.
  eexists _, VNull, _. split; [done|]. split; [by constructor|].
  cbn [truthy andb]. apply run_remaining_checks_accept.
  - apply no_ballot_in_entry0.
  - apply definition_in_entry0.
  - by rewrite get_endDate_entry0.
  - rewrite get_endDate_entry0. cbn [newDate time_lt]. lia.
Qed.

(** The user u1 is found, an ordinary user, while the collection holds
    the definition of v1 and no ballot. *)
Lemma run_canUserVote_user parse t0 now :
  (now <= 1800000000000)%Z ->
  run (canUserVote parse (get "voterId" vote_request) (get "voteId" vote_request))
    [entry0 t0]
    ([EvFindUser (VStr "u1") (Resolved (Some [("status", VStr "user")]))]
     ++ [EvFindOne (ballot_filter (VStr "u1") (VStr "v1")) (Resolved None);
         EvFindOne (definition_filter (VStr "v1")) (Resolved (Some (entry0 t0)));
         EvNow (Resolved now)])
    (VoteCheck true None (Some (entry0 t0))) [entry0 t0].
Proof.
  intros Hnow. apply run_canUserVote.
  eexists _, _, _. split; [done|]. split; [apply role_found|].
  cbn [get String.eqb Ascii.eqb Bool.eqb truthy prop strict_eq andb negb].
  apply run_remaining_checks_accept.
  - apply no_ballot_in_entry0.
  - apply definition_in_entry0.
  - by rewrite get_endDate_entry0.
  - rewrite get_endDate_entry0. cbn [newDate time_lt]. lia.
Qed.

(** C3, counterexample: the direct lookup of the voter fails and the
    authentication server cannot be reached; the ballot is stored all the
    same and the request answered with success. *)
Lemma unresolved_voter_casts_ballot : ~ ballot_fails_closed.
Proof.
  intros H.
  destruct (H parse_nothing vote_request [entry0 1700000000000]
              [EvFindUser (VStr "u1") (Rejected "timeout");
               EvFetch (role_url (VStr "u1")) (Rejected "unreachable")]
              ([EvFindOne (ballot_filter (VStr "u1") (VStr "v1")) (Resolved None);
                EvFindOne (definition_filter (VStr "v1"))
                  (Resolved (Some (entry0 1700000000000)));
                EvNow (Resolved 1700000000001%Z)]
               ++ [EvFindSortedAsc (Resolved [entry0 1700000000000]);
                   EvFindLast (Resolved (Some (entry0 1700000000000)));
                   EvNow (Resolved 1700000000002%Z);
                   EvInsertOne
                     (block_to_insert ballot_plain (Some (entry0 1700000000000))
                        1700000000002)
                     (Resolved (VObjectId "65f000000000000000000002"))])
              (Response 200
                 (added_body "Голос збережено"
                    (AddResult true
                       (Some (set_prop "_id" (VObjectId "65f000000000000000000002")
                                (block_to_insert ballot_plain
                                   (Some (entry0 1700000000000)) 1700000000002)))
                       None None)))
              [entry0 1700000000000;
               entry1 (Some (entry0 1700000000000)) 1700000000002])
    as [Hst _].
  - rewrite app_assoc.
    apply (run_vote_stored parse_nothing vote_request [entry0 1700000000000] _
             (entry0 1700000000000) [VStr "A"; VStr "B"]).
    + reflexivity.
    + reflexivity.
    + reflexivity.
    + apply run_canUserVote_unresolved. lia.
    + apply get_options_entry0.
    + reflexivity.
    + apply (run_entry1 1700000000000 1700000000002), valid_entry0.
    + reflexivity.
  - constructor.
  - apply (f_equal length) in Hst. cbn [length] in Hst. discriminate Hst.
Qed.

(** C8, at the boundary. The ordinary user u1 asks to vote in v1 at the
    very millisecond of its [endDate]: [canUserVote] still lets the ballot
    through, while the results of the same vote report it as no longer
    active. *)
Theorem canUserVote_accepts_at_endDate :
  run (canUserVote parse_nothing (VStr "u1") (VStr "v1")) [entry0 1700000000000]
    [EvFindUser (VStr "u1") (Resolved (Some [("status", VStr "user")]));
     EvFindOne (ballot_filter (VStr "u1") (VStr "v1")) (Resolved None);
     EvFindOne (definition_filter (VStr "v1")) (Resolved (Some (entry0 1700000000000)));
     EvNow (Resolved 1800000000000%Z)]
    (VoteCheck true None (Some (entry0 1700000000000))) [entry0 1700000000000]
  /\ get "endDate" (entry0 1700000000000) = VDate (Some 1800000000000%Z)
  /\ results_isActive parse_nothing (entry0 1700000000000) 1800000000000 = false.
Proof.
  split; [|split].
  - apply (run_canUserVote_user parse_nothing 1700000000000 1800000000000). lia.
  - apply get_endDate_entry0.
  - unfold results_isActive. rewrite get_endDate_entry0. reflexivity.
Qed.

Lemma run_create_request_unresolved :
  run (create_vote parse_nothing create_request) []
    ([EvFindUser (VStr "a1") (Resolved None)] ++ [])
    (Response 403 (error_body "Тільки адміністратори можуть створювати голосування"))
    [].
Proof.
  unfold create_vote, create_request.
  cbn [get String.eqb Ascii.eqb Bool.eqb truthy negb orb isArray].
  apply run_mbind. exists VNull, [], [EvFindUser (VStr "a1") (Resolved None)], [].
  split; [done|]. split; [apply run_getUserRole; split; [done|constructor]|].
  cbn [truthy negb orb]. done.
Qed.

Lemma identity_failure_denies_creation_witness :
  (status (Response 403
             (error_body "Тільки адміністратори можуть створювати голосування"))
   = 403%Z /\ @nil block = [] /\ @nil event = [])
  /\ (forall userId voteId st2 tr_role2 tr_rest2 r2 st2',
        run (canUserVote parse_nothing userId voteId) st2 (tr_role2 ++ tr_rest2) r2 st2' ->
        resolution_failure userId tr_role2 ->
        run (remaining_checks parse_nothing userId voteId) st2 tr_rest2 r2 st2').
Proof.
  apply (identity_failure_denies_creation parse_nothing create_request []
           [EvFindUser (VStr "a1") (Resolved None)] [] _ []
           run_create_request_unresolved).
  constructor.
Defined.

(** ** Listing the chain *)

Lemma strict_eq_sym a b : strict_eq a b = strict_eq b a.
Proof.
  destruct a, b; simpl; try done.
  - by destruct b, b0.
  - apply Z.eqb_sym.
  - apply String.eqb_sym.
Qed.

Lemma chain_filter_spec (userGroupId : value) (b : block) :
  chain_filter userGroupId b = true
  <-> get "type" b <> VStr "create_vote"
      \/ exists l, get "groupIds" b = VArr l
                   /\ (VStr "all" ∈ l
                       \/ exists x, x ∈ l /\ strict_eq x userGroupId = true).
Proof.
  unfold chain_filter, same_value_zero.
  destruct (strict_eq (get "type" b) (VStr "create_vote")) eqn:Htype; cbn [negb].
  - apply strict_eq_str in Htype.
    destruct (get "groupIds" b) as [| | | | | | |l|] eqn:Hg;
      try (split; [discriminate | intros [?|(l' & ? & _)]; congruence]).
    rewrite orb_true_iff, !existsb_exists. split.
    + intros [(x & Hx & Hall)|(x & Hx & Hu)]; right; exists l; (split; [done|]).
      * left. rewrite strict_eq_sym in Hall. apply strict_eq_str in Hall as ->.
        by apply list_elem_of_In.
      * right. exists x. rewrite strict_eq_sym. by rewrite list_elem_of_In.
    + intros [?|(l' & [= <-] & [Hall|(x & Hx & Hu)])]; [done| |].
      * left. exists (VStr "all").
        split; [by apply list_elem_of_In|apply strict_eq_str_refl].
      * right. exists x. rewrite strict_eq_sym. by rewrite <-list_elem_of_In.
  - split; [|done]. intros _. left. intros E. rewrite E in Htype.
    by rewrite strict_eq_str_refl in Htype.
Qed.

(** C10. A listing whose read fails is answered with status 500; a
    listing whose read succeeds is answered with status 200 and returns
    every document when no group is given; with a group it returns, in
    the order read, exactly the documents that are not vote definitions
    and the vote definitions whose [groupIds] is an array holding ["all"]
    or the caller's group. The collection is left as it is. *)
Theorem chain_listing (userGroupId : value) (st : list block)
    (tr : list event) (r : response) (st' : list block) :
  run (chain userGroupId) st tr r st' ->
  st' = st
  /\ ((exists e,
         tr = [EvFindAll (Rejected e)]
         /\ r = Response 500 (error_body "Помилка отримання блокчейну"))
      \/ exists blocks,
           tr = [EvFindAll (Resolved blocks)]
           /\ blocks ≡ₚ st
           /\ status r = 200%Z
           /\ (truthy userGroupId = false -> body r = VArr (map VObj blocks))
           /\ (truthy userGroupId = true ->
               exists kept,
                 body r = VArr (map VObj kept)
                 /\ kept = List.filter (chain_filter userGroupId) blocks
                 /\ forall b,
                      b ∈ kept
                      <-> b ∈ st
                          /\ (get "type" b <> VStr "create_vote"
                              \/ exists l,
                                   get "groupIds" b = VArr l
                                   /\ (VStr "all" ∈ l
                                       \/ exists x,
                                            x ∈ l
                                            /\ strict_eq x userGroupId = true)))).
Proof.
  unfold chain, await. cbn [run].
  intros (out & st1 & tr1 & -> & [-> Hop] & H).
  destruct out as [blocks|e]; cbn [run] in H.
  2:{ destruct H as (-> & -> & ->). split; [done|]. left. by exists e. }
  split; [by destruct (truthy userGroupId); destruct H as (_ & _ & ->)|].
  right. exists blocks.
  destruct (truthy userGroupId); cbn [negb run] in H; destruct H as (-> & -> & _);
    (split; [done|]); (split; [done|]); (split; [done|]).
  - split; [discriminate|]. intros _. eexists. split; [done|]. split; [done|].
    intros b. rewrite list_elem_of_In, filter_In, <-list_elem_of_In.
    by rewrite chain_filter_spec, Hop.
  - split; [done|discriminate].
Qed.

(** ** Uniqueness of definitions and ballots *)

Lemma get_stored_field k id (nb : obj) lastBlock now :
  k <> "_id" -> k <> "previousHash" -> k <> "creationDate" -> k <> "hash" ->
  get k nb <> VUndefined ->
  get k (stored_doc id (block_to_insert nb lastBlock now)) = to_bson (get k nb).
Proof.
  intros H1 H2 H3 H4 Hk. rewrite get_stored_doc by done.
  assert (get k (block_to_insert nb lastBlock now) = get k nb) as E.
  { unfold block_to_insert. by rewrite !get_set_prop_ne by done. }
  rewrite get_to_bson_doc; by rewrite E.
Qed.

Lemma is_ballot_entry1 p t : is_ballot_of "u1" "v1" (entry1 p t).
Proof. unfold is_ballot_of, entry1. by rewrite !get_stored_field by done. Qed.

Lemma is_ballot_entry2 p t : is_ballot_of "u1" "v1" (entry2 p t).
Proof. unfold is_ballot_of, entry2. by rewrite !get_stored_field by done. Qed.


(** Two requests of the user u1 for the vote v1, handled concurrently:
    each passes the eligibility check before the other one inserts. *)
Lemma concurrent_votes_both_stored :
  interleave [entry0 1700000000000]
    [vote parse_nothing vote_request; vote parse_nothing vote_request]
    [entry0 1700000000000; entry1 (Some (entry0 1700000000000)) 1700000000003;
     entry2 (Some (entry1 (Some (entry0 1700000000000)) 1700000000003)) 1700000000004]
    [Ret (Response 200
            (added_body "Голос збережено"
               (AddResult true
                  (Some (set_prop "_id" (VObjectId "65f000000000000000000002")
                           (block_to_insert ballot_plain
                              (Some (entry0 1700000000000)) 1700000000003)))
                  None None)));
     Ret (Response 200
            (added_body "Голос збережено"
               (AddResult true
                  (Some (set_prop "_id" (VObjectId "65f000000000000000000003")
                           (block_to_insert ballot_plain
                              (Some (entry1 (Some (entry0 1700000000000))
                                       1700000000003))
                              1700000000004)))
                  None None)))].
Proof.
  (* the first request passes the eligibility check *)
  eapply (interleave_run_bind
            (canUserVote parse_nothing (get "voterId" vote_request)
               (get "voteId" vote_request))
            _ _ _ _ _ _ 0%nat);
    [reflexivity|apply (run_canUserVote_user parse_nothing _ 1700000000001); lia|].
  (* so does the second one: no ballot is stored yet *)
  eapply (interleave_run_bind
            (canUserVote parse_nothing (get "voterId" vote_request)
               (get "voteId" vote_request))
            _ _ _ _ _ _ 1%nat);
    [reflexivity|apply (run_canUserVote_user parse_nothing _ 1700000000002); lia|].
  (* the first request appends its ballot *)
  eapply (interleave_run _ _ _ _ _ _ 0%nat); [reflexivity| |].
  { cbn beta iota delta [canVote voteBlock negb]. rewrite get_options_entry0.
    cbn [existsb same_value_zero strict_eq get vote_request String.eqb Ascii.eqb
           Bool.eqb orb negb].
    apply run_mbind. eexists _, _, _, []. split; [by rewrite app_nil_r|].
    split; [apply (run_entry1 1700000000000 1700000000003), valid_entry0|].
    cbn [success]. done. }
  (* and the second one appends another ballot of the same voter *)
  eapply (interleave_run _ _ _ _ _ _ 1%nat); [reflexivity| |].
  { cbn beta iota delta [canVote voteBlock negb]. rewrite get_options_entry0.
    cbn [existsb same_value_zero strict_eq get vote_request String.eqb Ascii.eqb
           Bool.eqb orb negb].
    apply run_mbind. eexists _, _, _, []. split; [by rewrite app_nil_r|].
    split; [apply (run_entry2 1700000000000 1700000000003 1700000000004); lia|].
    cbn [success]. done. }
  apply interleave_done.
Qed.

(** The administrator a1 creates the vote v1 in the empty collection. *)
Lemma run_create_request t0 now :
  (now < 1800000000000)%Z ->
  run (create_vote parse_nothing create_request) []
    ([EvFindUser (VStr "a1") (Resolved (Some [("status", VStr "admin")]))]
     ++ [EvFindOne (definition_filter (VStr "v1")) (Resolved None);
         EvNow (Resolved now);
         EvFindSortedAsc (Resolved []); EvFindLast (Resolved None);
         EvNow (Resolved t0);
         EvInsertOne (block_to_insert definition_v1 None t0)
           (Resolved (VObjectId "65f000000000000000000001"))])
    (Response 200
       (added_body "Голосування створено"
          (AddResult true
             (Some (set_prop "_id" (VObjectId "65f000000000000000000001")
                      (block_to_insert definition_v1 None t0)))
             None None)))
    [entry0 t0].
Proof.
  intros Hnow. unfold create_vote, create_request.
  cbn [get String.eqb Ascii.eqb Bool.eqb truthy negb orb isArray].
  apply run_mbind. eexists _, [], _, _. split; [done|].
  split; [apply run_getUserRole; split; [done|apply role_found]|].
  cbn [get String.eqb Ascii.eqb Bool.eqb truthy prop strict_eq negb orb].
  unfold await. cbn [run].
  eexists (Resolved None), [], _. split; [done|].
  split; [split; [done|by intros b ?%elem_of_nil]|].
  cbn [run]. eexists (Resolved now), [], _. split; [done|]. split; [done|].
  replace (truthy (VNum 1800000000000)) with true by done.
  replace (newDate parse_nothing (VNum 1800000000000))
    with (Some 1800000000000%Z) by done.
  cbn [time_le]. replace (1800000000000 <=? now)%Z with false by lia.
  apply run_mbind. eexists _, _, _, []. split; [symmetry; apply app_nil_r|].
  split; [apply (run_entry0 t0)|]. cbn [success]. done.
Qed.

Lemma handled_entry0 t0 : handled_in_turn parse_nothing [entry0 t0].
Proof.
  eapply (handled_create _ [] create_request "v1");
    [apply handled_none|reflexivity|].
  apply (run_create_request t0 0). lia.
Qed.

(** C2, counterexample: two requests of the same voter for the same vote
    are handled concurrently. Both pass the check before either ballot is
    stored, and both ballots are appended. *)
Lemma concurrent_ballots_of_one_voter : ~ uniqueness_enforced_at_commit.
Proof.
  intros H.
  destruct (H parse_nothing [entry0 1700000000000] vote_request vote_request
              "u1" "v1" "u1" "v1" _ _ (handled_entry0 _)
              eq_refl eq_refl eq_refl eq_refl concurrent_votes_both_stored)
    as [_ Hballots].
  specialize (Hballots 1%nat 2%nat _ _ "u1" "v1" eq_refl eq_refl
                (is_ballot_entry1 _ _) (is_ballot_entry2 _ _)).
  discriminate Hballots.
Qed.

(** *** Requests handled in turn *)

Lemma run_addBlock_then {R : Type} (nvb : obj) (k : add_result -> prog R)
    st tr r st' :
  run (addBlock nvb ≫= k) st tr r st' ->
  (forall res st1 tr2 r2 st2, run (k res) st1 tr2 r2 st2 -> st2 = st1) ->
  st' = st
  \/ exists lastBlock now id,
       st' = st ++ [stored_doc (to_bson id) (block_to_insert nvb lastBlock now)].
Proof.
  intros (res & st1 & tr1 & tr2 & -> & Hadd & Hk)%run_mbind Hpure.
  apply Hpure in Hk as ->. apply run_addBlock in Hadd.
  destruct Hadd; eauto.
Qed.

Lemma matches_ballot_filter u v (b : block) :
  is_ballot_of u v b -> matches (ballot_filter (VStr u) (VStr v)) b = Some true.
Proof.
  intros (Ht & Hu & Hv). unfold ballot_filter, matches, field_matches.
  by rewrite Ht, Hu, Hv, !strict_eq_str_refl.
Qed.

Lemma matches_definition_filter v (b : block) :
  is_definition_of v b -> matches (definition_filter (VStr v)) b = Some true.
Proof.
  intros (Ht & Hv). unfold definition_filter, matches, field_matches.
  by rewrite Ht, Hv, !strict_eq_str_refl.
Qed.

Section InTurn.

Variable Date_parse : string -> option Z.

Lemma run_vote_store (reqBody : obj) u v st tr r st' :
  get "voterId" reqBody = VStr u ->
  get "voteId" reqBody = VStr v ->
  run (vote Date_parse reqBody) st tr r st' ->
  st' = st
  \/ exists doc,
       st' = st ++ [doc]
       /\ get "type" doc = VStr "vote"
       /\ get "voterId" doc = VStr u /\ get "voteId" doc = VStr v
       /\ findOne_read (ballot_filter (VStr u) (VStr v)) st None.
Proof.
  intros Hu Hv H. unfold vote in H. rewrite Hu, Hv in H.
  match type of H with run (if ?c then _ else _) _ _ _ _ => destruct c end.
  { left. by destruct H as (_ & _ & ->). }
  apply run_mbind in H as (vc & st1 & tr1 & tr2 & -> & Hcheck & H).
  apply run_canUserVote_store in Hcheck as [-> Hcan].
  destruct (canVote vc); cbn [negb] in H.
  2:{ left. by destruct H as (_ & _ & ->). }
  destruct (Hcan eq_refl) as (vb & Hvb & Hnone & _). rewrite Hvb in H.
  cbv zeta in H.
  assert (forall included : bool,
    run (if negb included
         then Ret (Response 400 (error_body "Невалідний варіант для голосування"))
         else addBlock [("type", VStr "vote"); ("voterId", VStr u);
                        ("voteId", VStr v); ("candidate", get "candidate" reqBody)]
              ≫= (fun result =>
                    if success result
                    then Ret (Response 200 (added_body "Голос збережено" result))
                    else Ret (Response 500 (add_failure_body result))))
      st tr2 r st' ->
    st' = st
    \/ exists doc,
         st' = st ++ [doc]
         /\ get "type" doc = VStr "vote"
         /\ get "voterId" doc = VStr u /\ get "voteId" doc = VStr v
         /\ findOne_read (ballot_filter (VStr u) (VStr v)) st None) as Hcont.
  { intros [|]; cbn [negb]; intros Hrun.
    2:{ left. by destruct Hrun as (_ & _ & ->). }
    apply run_addBlock_then in Hrun as [->|(lastBlock & now & id & ->)].
    - by left.
    - right. eexists. split; [done|].
      rewrite !get_stored_field by done. by cbn.
    - intros res st1 tr3 r3 st3 Hk.
      by destruct (success res); destruct Hk as (_ & _ & ->). }
  destruct (get "options" vb); try (left; by destruct H as (_ & _ & ->));
    try (by eapply Hcont).
  destruct (ToString (get "candidate" reqBody));
    [by eapply Hcont|left; by destruct H as (_ & _ & ->)].
Qed.

Lemma run_create_vote_store (reqBody : obj) v st tr r st' :
  get "voteId" reqBody = VStr v ->
  run (create_vote Date_parse reqBody) st tr r st' ->
  st' = st
  \/ exists doc,
       st' = st ++ [doc]
       /\ get "type" doc = VStr "create_vote" /\ get "voteId" doc = VStr v
       /\ findOne_read (definition_filter (VStr v)) st None.
Proof.
  intros Hv H. unfold create_vote in H. rewrite Hv in H.
  match type of H with run (if ?c then _ else _) _ _ _ _ => destruct c end.
  { left. by destruct H as (_ & _ & ->). }
  apply run_mbind in H as (userInfo & st1 & tr1 & tr2 & -> & Hrole & H).
  apply run_getUserRole in Hrole as [-> _].
  match type of H with run (if ?c then _ else _) _ _ _ _ => destruct c end.
  { left. by destruct H as (_ & _ & ->). }
  unfold await in H. cbn [run] in H. fold (definition_filter (VStr v)) in H.
  destruct H as (out1 & st1 & tr3 & -> & [-> Hfind] & H).
  destruct out1 as [[existing|]|e]; cbn [run] in H;
    try (left; by destruct H as (_ & _ & ->)).
  destruct H as (out2 & st2 & tr4 & -> & [-> _] & H).
  destruct out2 as [currentDate|e]; cbn [run] in H;
    [|left; by destruct H as (_ & _ & ->)].
  cbv zeta in H.
  assert (forall (finalEndDate : option Z) tr5,
    run (addBlock [("type", VStr "create_vote"); ("voteId", VStr v);
                   ("creatorId", get "creatorId" reqBody);
                   ("endDate", VDate finalEndDate);
                   ("title", get "title" reqBody);
                   ("description", get "description" reqBody);
                   ("options", get "options" reqBody);
                   ("groupIds", match get "groupIds" reqBody with
                                | VArr (_ :: _) => get "groupIds" reqBody
                                | _ => VArr [VStr "all"]
                                end)]
         ≫= (fun result =>
               if success result
               then Ret (Response 200 (added_body "Голосування створено" result))
               else Ret (Response 500 (add_failure_body result))))
      st tr5 r st' ->
    st' = st
    \/ exists doc,
         st' = st ++ [doc]
         /\ get "type" doc = VStr "create_vote" /\ get "voteId" doc = VStr v
         /\ findOne_read (definition_filter (VStr v)) st None) as Hfinish.
  { intros finalEndDate tr5 Hrun.
    apply run_addBlock_then in Hrun as [->|(lastBlock & now & id & ->)].
    - by left.
    - right. eexists. split; [done|].
      rewrite !get_stored_field by done. by cbn.
    - intros res st1 tr6 r6 st6 Hk.
      by destruct (success res); destruct Hk as (_ & _ & ->). }
  destruct (truthy (get "endDate" reqBody)).
  - destruct (ToString (get "endDate" reqBody));
      [|left; by destruct H as (_ & _ & ->)].
    destruct (time_le _ _); [left; by destruct H as (_ & _ & ->)|].
    by eapply Hfinish.
  - cbn [run] in H. destruct H as (out3 & st3 & tr5 & -> & [-> _] & H).
    destruct out3 as [today|e]; cbn [run] in H;
      [|left; by destruct H as (_ & _ & ->)].
    by eapply Hfinish.
Qed.

Lemma unique_entries_snoc (st : list block) doc :
  unique_entries st ->
  (forall b v, b ∈ st -> is_definition_of v doc -> ~ is_definition_of v b) ->
  (forall b u v, b ∈ st -> is_ballot_of u v doc -> ~ is_ballot_of u v b) ->
  unique_entries (st ++ [doc]).
Proof.
  intros [Hdefs Hballots] Hnewdef Hnewballot. split.
  - intros i j bi bj v Hi Hj Hbi Hbj.
    apply lookup_snoc_Some in Hi as [[Hilt Hi]|[-> <-]];
      apply lookup_snoc_Some in Hj as [[Hjlt Hj]|[-> <-]]; try done.
    + by eapply Hdefs.
    + destruct (Hnewdef bi v); [by eapply list_elem_of_lookup_2|done..].
    + destruct (Hnewdef bj v); [by eapply list_elem_of_lookup_2|done..].
  - intros i j bi bj u v Hi Hj Hbi Hbj.
    apply lookup_snoc_Some in Hi as [[Hilt Hi]|[-> <-]];
      apply lookup_snoc_Some in Hj as [[Hjlt Hj]|[-> <-]]; try done.
    + by eapply Hballots.
    + destruct (Hnewballot bi u v); [by eapply list_elem_of_lookup_2|done..].
    + destruct (Hnewballot bj u v); [by eapply list_elem_of_lookup_2|done..].
Qed.

(** C2, as the code has it. When the requests are handled one at a time,
    the checks made before the append keep the entries unique: at most
    one vote definition for a vote, at most one ballot for a voter and a
    vote. *)
Theorem unique_entries_in_turn (st : list block) :
  handled_in_turn Date_parse st -> unique_entries st.
Proof.
  induction 1 as [|st reqBody v tr r st' Hst IH Hv Hrun
                  |st reqBody u v tr r st' Hst IH Hu Hv Hrun].
  - split; intros i j bi bj; by intros; simplify_eq.
  - apply (run_create_vote_store _ v) in Hrun; [|done].
    destruct Hrun as [->|(doc & -> & Htype & Hvote & Hnone)]; [done|].
    apply unique_entries_snoc; [done| |].
    + intros b v' Hb [_ Hv'] Hdef. rewrite Hvote in Hv'. injection Hv' as <-.
      by apply (Hnone b Hb), matches_definition_filter.
    + intros b u' v' _ [Hballot _]. congruence.
  - apply (run_vote_store _ u v) in Hrun; [|done..].
    destruct Hrun as [->|(doc & -> & Htype & Hvoter & Hvote & Hnone)]; [done|].
    apply unique_entries_snoc; [done| |].
    + intros b v' _ [Hdef _]. congruence.
    + intros b u' v' Hb (_ & Hu' & Hv') Hballot.
      rewrite Hvoter in Hu'. rewrite Hvote in Hv'.
      injection Hu' as <-. injection Hv' as <-.
      by apply (Hnone b Hb), matches_ballot_filter.
Qed.

End InTurn.

Lemma run_chain_g1 :
  run (chain (VStr "g1")) listing_store [EvFindAll (Resolved listing_store)]
    listing_for_g1 listing_store.
Proof.
  unfold chain, await. cbn [run].
  eexists (Resolved listing_store), _, []. split; [done|].
  split; [by split|]. cbn [truthy String.eqb negb run].
  split; [done|]. split; [|done]. vm_compute. reflexivity.
Qed.

Lemma chain_listing_witness :
  listing_store = listing_store
  /\ ((exists e,
         [EvFindAll (Resolved listing_store)] = [EvFindAll (Rejected e)]
         /\ listing_for_g1 = Response 500 (error_body "Помилка отримання блокчейну"))
      \/ exists blocks,
           [EvFindAll (Resolved listing_store)] = [EvFindAll (Resolved blocks)]
           /\ blocks ≡ₚ listing_store
           /\ status listing_for_g1 = 200%Z
           /\ (truthy (VStr "g1") = false ->
               body listing_for_g1 = VArr (map VObj blocks))
           /\ (truthy (VStr "g1") = true ->
               exists kept,
                 body listing_for_g1 = VArr (map VObj kept)
                 /\ kept = List.filter (chain_filter (VStr "g1")) blocks
                 /\ forall b,
                      b ∈ kept
                      <-> b ∈ listing_store
                          /\ (get "type" b <> VStr "create_vote"
                              \/ exists l,
                                   get "groupIds" b = VArr l
                                   /\ (VStr "all" ∈ l
                                       \/ exists x,
                                            x ∈ l
                                            /\ strict_eq x (VStr "g1") = true)))).
Proof.
  exact (chain_listing (VStr "g1") listing_store _ listing_for_g1 _ run_chain_g1).
Defined.

(** * Further properties of the ledger *)

(** ** The digest *)

Lemma string_length_app (s1 s2 : string) :
  String.length (s1 +:+ s2) = (String.length s1 + String.length s2)%nat.
Proof. induction s1 as [|c s1 IH]; simpl; [done|]. by rewrite IH. Qed.

Lemma hex_length n x : String.length (SHA256.hex n x) = n.
Proof. induction n as [|n IH]; simpl; [done|]. by rewrite IH. Qed.

Lemma hexdigest_length s : String.length (SHA256.hexdigest s) = 64%nat.
Proof.
  unfold SHA256.hexdigest, SHA256.hash_words.
  generalize (fold_left SHA256.compress
                (SHA256.chunks
                   (length (SHA256.words (SHA256.pad (SHA256.bytes_of_string s))))
                   (SHA256.words (SHA256.pad (SHA256.bytes_of_string s))))
                SHA256.init).
  intros r. cbn [map String.concat].
  by rewrite !string_length_app, !hex_length.
Qed.

Lemma createHash_length (b : obj) : String.length (createHash b) = 64%nat.
Proof. apply hexdigest_length. Qed.

Lemma lower_hex_app (s1 s2 : string) :
  lower_hex (s1 +:+ s2) = lower_hex s1 && lower_hex s2.
Proof.
  induction s1 as [|c s1 IH]; [done|]. simpl. by rewrite IH, andb_assoc.
Qed.

Lemma is_hex_digit_hex_digit d :
  0 <= d < 16 -> is_hex_digit (SHA256.hex_digit d) = true.
Proof.
  intros Hd.
  assert (d = 0 \/ d = 1 \/ d = 2 \/ d = 3 \/ d = 4 \/ d = 5 \/ d = 6 \/ d = 7
          \/ d = 8 \/ d = 9 \/ d = 10 \/ d = 11 \/ d = 12 \/ d = 13 \/ d = 14
          \/ d = 15) as H by lia.
  repeat destruct H as [->|H]; try subst d; reflexivity.
Qed.

Lemma lower_hex_hex n x : lower_hex (SHA256.hex n x) = true.
Proof.
  induction n as [|n IH]; [done|]. cbn [SHA256.hex lower_hex].
  rewrite IH, andb_true_r. apply is_hex_digit_hex_digit.
  apply Z.mod_pos_bound. lia.
Qed.

Lemma lower_hex_createHash (b : obj) : lower_hex (createHash b) = true.
Proof.
  unfold createHash, SHA256.hexdigest, SHA256.hash_words.
  match goal with |- context [fold_left SHA256.compress ?c ?i] =>
    generalize (fold_left SHA256.compress c i) end.
  intros r. cbn [map String.concat].
  by rewrite !lower_hex_app, !lower_hex_hex.
Qed.

Lemma createHash_not_sentinel (b : obj) : createHash b <> "0".
Proof.
  intros E. pose proof (createHash_length b) as H. rewrite E in H. discriminate H.
Qed.

(** X1. The digest of a block is always a string of 64 digits among 0-9
    and a-f, so it is never the genesis sentinel ["0"]; a block that
    passes [isBlockValid] holds such a string in its [hash]. *)
Theorem createHash_is_never_the_sentinel (b : obj) :
  String.length (createHash b) = 64%nat
  /\ lower_hex (createHash b) = true
  /\ createHash b <> "0"
  /\ (isBlockValid b = true ->
      exists h, get "hash" b = VStr h /\ String.length h = 64%nat /\ h <> "0").
Proof.
  split; [apply createHash_length|]. split; [apply lower_hex_createHash|].
  split; [apply createHash_not_sentinel|].
  intros Hb%isBlockValid_hash. exists (createHash b).
  split; [done|]. split; [apply createHash_length|apply createHash_not_sentinel].
Qed.

(** ** What the validator detects and what it does not *)

Lemma failure_at_prefix (l1 l2 : list block) i :
  (i < length l1)%nat -> failure_at (l1 ++ l2) i = failure_at l1 i.
Proof.
  intros Hi. unfold failure_at. rewrite lookup_app_l by done.
  destruct i as [|j]; [done|]. by rewrite lookup_app_l by lia.
Qed.

Lemma failure_at_beyond (l : list block) i :
  (length l <= i)%nat -> failure_at l i = None.
Proof. intros Hi. unfold failure_at. by rewrite lookup_ge_None_2. Qed.

(** X2. Every prefix, in the order read, of a chain that the validator
    accepts is accepted too: the validator cannot tell that the newest
    entries have been removed. *)
Theorem validateChain_accepts_every_prefix (l1 l2 : list block) :
  valid (validateChain_body (l1 ++ l2)) = true ->
  valid (validateChain_body l1) = true.
Proof.
  rewrite !valid_iff_no_failure. intros H i.
  destruct (decide (i < length l1)%nat) as [Hi|Hi].
  - rewrite <-(failure_at_prefix l1 l2) by done. apply H.
  - apply failure_at_beyond. lia.
Qed.

Lemma validateChain_accepts_every_prefix_witness :
  valid (validateChain_body [entry0 1700000000000]) = true.
Proof.
  apply (validateChain_accepts_every_prefix [entry0 1700000000000]
           [entry1 (Some (entry0 1700000000000)) 1700000000001]).
  apply valid_two_entries. lia.
Defined.

Lemma VStr_inj s1 s2 : VStr s1 = VStr s2 -> s1 = s2.
Proof. by intros [=]. Qed.

Lemma strict_eq_str_ne s1 s2 : s1 <> s2 -> strict_eq (VStr s1) (VStr s2) = false.
Proof. intros Hne. cbn [strict_eq]. by apply String.eqb_neq. Qed.

Lemma date_of_entry2 p t : date_of (entry2 p t) = Some t.
Proof. unfold date_of, entry2. by rewrite get_creationDate_stored. Qed.

Lemma strictly_dated_three_entries p q t0 t1 t2 :
  (t0 < t1)%Z -> (t1 < t2)%Z ->
  strictly_dated [entry0 t0; entry1 p t1; entry2 q t2].
Proof.
  intros H01 H12. split.
  - repeat apply SSorted_cons; try apply SSorted_nil;
      repeat (constructor; try constructor).
    + exists t1, t2. split; [apply date_of_entry1|].
      split; [apply date_of_entry2|]. lia.
    + exists t0, t1. split; [apply date_of_entry0|].
      split; [apply date_of_entry1|]. lia.
    + exists t0, t2. split; [apply date_of_entry0|].
      split; [apply date_of_entry2|]. lia.
  - repeat constructor; eexists;
      [apply date_of_entry0|apply date_of_entry1|apply date_of_entry2].
Qed.

(** The chain of the definition of v1 and two ballots is accepted. *)
Lemma valid_three_entries t0 t1 t2 :
  (t0 < t1)%Z -> (t1 < t2)%Z ->
  valid (validateChain_body
           [entry0 t0; entry1 (Some (entry0 t0)) t1;
            entry2 (Some (entry1 (Some (entry0 t0)) t1)) t2]) = true.
Proof.
  intros H01 H12. apply valid_iff_no_failure, built_no_failure.
  - eapply (built_append _ ballot_plain);
      [apply built_two_entries|reflexivity|by apply (run_entry2 t0 t1 t2)].
  - by apply strictly_dated_three_entries.
Qed.

(** X3. When the oldest entries of an accepted chain are removed, the
    validator rejects what is left, because of the entry that is now
    first: it links to a digest, not to the genesis sentinel. The answer
    names index 0 and the bad genesis link when the [_id] of that entry
    can be printed, and is the answer of the [catch], without an index,
    when it cannot. *)
Theorem validateChain_detects_missing_head (l1 : list block) (b : block)
    (l2 : list block) :
  l1 <> [] ->
  valid (validateChain_body (l1 ++ b :: l2)) = true ->
  validateChain_body (b :: l2)
  = if converts (get "_id" b)
    then Validation false (failure_message 0 BadGenesisLink b) (Some 0%nat) None
    else Validation false "Помилка при валідації ланцюга" None
           (Some conversion_error).
Proof.
  intros Hne Hvalid. pose proof (proj1 (valid_iff_no_failure _) Hvalid) as Hok.
  destruct (exists_last Hne) as (l0 & p & ->).
  assert (isBlockValid p = true) as Hp.
  { apply (no_failure_isBlockValid _ _ Hok).
    apply elem_of_app. left. apply elem_of_app. right. by left. }
  pose proof (Hok (S (length l0))) as Hb. unfold failure_at in Hb.
  rewrite (list_lookup_middle (l0 ++ [p]) l2 b) in Hb
    by (rewrite length_app; cbn [length]; lia).
  rewrite <-app_assoc in Hb.
  rewrite (list_lookup_middle l0 ([] ++ b :: l2) p) in Hb by done.
  unfold entry_failure in Hb. rewrite <- isBlockValid_digest in Hb.
  destruct (isBlockValid b) eqn:Hvb; [|discriminate Hb]. cbn [negb] in Hb.
  destruct (strict_eq (get "previousHash" b) (get "hash" p)) eqn:Hlink;
    [|discriminate Hb].
  apply isBlockValid_hash in Hp. rewrite Hp in Hlink.
  apply strict_eq_str in Hlink.
  unfold validateChain_body. rewrite Hvb, Hlink. cbn [negb].
  rewrite strict_eq_str_ne by apply createHash_not_sentinel. cbn [negb].
  by rewrite invalid_report.
Qed.

Lemma validateChain_detects_missing_head_witness :
  validateChain_body
    [entry1 (Some (entry0 1700000000000)) 1700000000001;
     entry2 (Some (entry1 (Some (entry0 1700000000000)) 1700000000001))
       1700000000002]
  = if converts (get "_id" (entry1 (Some (entry0 1700000000000)) 1700000000001))
    then Validation false
           (failure_message 0 BadGenesisLink
              (entry1 (Some (entry0 1700000000000)) 1700000000001))
           (Some 0%nat) None
    else Validation false "Помилка при валідації ланцюга" None
           (Some conversion_error).
Proof.
  apply (validateChain_detects_missing_head [entry0 1700000000000]
           (entry1 (Some (entry0 1700000000000)) 1700000000001)
           [entry2 (Some (entry1 (Some (entry0 1700000000000)) 1700000000001))
              1700000000002]).
  - discriminate.
  - apply valid_three_entries; lia.
Defined.

(** The [_id] of the second entry of the example chain can be printed:
    once the first entry is removed, index 0 is named. *)
Example missing_head_is_located :
  validateChain_body
    [entry1 (Some (entry0 1700000000000)) 1700000000001;
     entry2 (Some (entry1 (Some (entry0 1700000000000)) 1700000000001))
       1700000000002]
  = Validation false
      ("Невалідний перший блок: 65f000000000000000000002, previousHash повинен бути "
       +:+ dquote +:+ "0" +:+ dquote)
      (Some 0%nat) None.
Proof. vm_compute. reflexivity. Qed.

Lemma failure_at_insert_before (l : list block) i b' j :
  (j < i)%nat -> failure_at (<[i := b']> l) j = failure_at l j.
Proof.
  intros Hj. unfold failure_at. rewrite list_lookup_insert_ne by lia.
  destruct j as [|j']; [done|]. by rewrite list_lookup_insert_ne by lia.
Qed.

Lemma get_set_prop_other k k' v (o : obj) :
  k' <> k -> get k' (set_prop k v o) = get k' o.
Proof. intros Hne. by apply get_set_prop_ne. Qed.

(** X4. When the [hash] of one entry of an accepted chain is overwritten
    with another value, the validator rejects the chain because of that
    entry: at its index, with the reason of a hash mismatch, when the
    [_id] of the entry can be printed; with the answer of the [catch],
    without an index, when it cannot. *)
Theorem validateChain_detects_overwritten_hash (l : list block) (i : nat)
    (b : block) (v : value) :
  valid (validateChain_body l) = true ->
  l !! i = Some b ->
  v <> get "hash" b ->
  validateChain_body (<[i := set_prop "hash" v b]> l)
  = if converts (get "_id" b)
    then Validation false (failure_message i HashMismatch (set_prop "hash" v b))
           (Some i) None
    else Validation false "Помилка при валідації ланцюга" None
           (Some conversion_error).
Proof.
  intros Hvalid Hi Hv. pose proof (proj1 (valid_iff_no_failure _) Hvalid) as Hok.
  assert (isBlockValid b = true) as Hb.
  { apply (no_failure_isBlockValid _ _ Hok). by eapply list_elem_of_lookup_2. }
  apply isBlockValid_hash in Hb.
  assert (isBlockValid (set_prop "hash" v b) = false) as Hb'.
  { unfold isBlockValid. rewrite get_set_prop_eq by done.
    rewrite createHash_set_hash.
    destruct (strict_eq v (VStr (createHash b))) eqn:E; [|done].
    apply strict_eq_str in E. congruence. }
  rewrite <- (get_set_prop_other "hash" "_id" v b) by done.
  apply (validateChain_body_first_failure _ i (set_prop "hash" v b) HashMismatch).
  - apply list_lookup_insert_eq. by eapply lookup_lt_Some.
  - unfold failure_at.
    rewrite list_lookup_insert_eq by (by eapply lookup_lt_Some).
    unfold entry_failure. by rewrite <- isBlockValid_digest, Hb'.
  - intros j Hj. rewrite failure_at_insert_before by done. apply Hok.
Qed.

Lemma validateChain_detects_overwritten_hash_witness :
  validateChain_body
    (<[1%nat := set_prop "hash" (VStr "0")
                  (entry1 (Some (entry0 1700000000000)) 1700000000001)]>
       [entry0 1700000000000; entry1 (Some (entry0 1700000000000)) 1700000000001;
        entry2 (Some (entry1 (Some (entry0 1700000000000)) 1700000000001))
          1700000000002])
  = if converts (get "_id" (entry1 (Some (entry0 1700000000000)) 1700000000001))
    then Validation false
           (failure_message 1 HashMismatch
              (set_prop "hash" (VStr "0")
                 (entry1 (Some (entry0 1700000000000)) 1700000000001)))
           (Some 1%nat) None
    else Validation false "Помилка при валідації ланцюга" None
           (Some conversion_error).
Proof.
  apply (validateChain_detects_overwritten_hash
           [entry0 1700000000000; entry1 (Some (entry0 1700000000000)) 1700000000001;
            entry2 (Some (entry1 (Some (entry0 1700000000000)) 1700000000001))
              1700000000002]
           1 (entry1 (Some (entry0 1700000000000)) 1700000000001) (VStr "0")).
  - apply valid_three_entries; lia.
  - reflexivity.
  - unfold entry1. rewrite get_hash_stored. intros E%VStr_inj.
    symmetry in E. exact (createHash_not_sentinel _ E).
Defined.

(** The [_id] of the second entry of the example chain can be printed:
    once its hash is overwritten, index 1 is named. *)
Example overwritten_hash_is_located :
  validateChain_body
    (<[1%nat := set_prop "hash" (VStr "0")
                  (entry1 (Some (entry0 1700000000000)) 1700000000001)]>
       [entry0 1700000000000; entry1 (Some (entry0 1700000000000)) 1700000000001;
        entry2 (Some (entry1 (Some (entry0 1700000000000)) 1700000000001))
          1700000000002])
  = Validation false
      "Невалідний блок: 65f000000000000000000002, хеш не відповідає вмісту"
      (Some 1%nat) None.
Proof. vm_compute. reflexivity. Qed.

(** ** The block an append returns *)

(** X5. The block that a successful append returns to its caller passes
    [isBlockValid], whatever the payload was; its [previousHash] is the
    hash of the block found last (or the sentinel) and its [creationDate]
    the clock value read. An append that fails returns no block. *)
Theorem addBlock_returns_valid_block (newBlock : obj) (st : list block)
    (tr : list event) (r : add_result) (st' : list block) :
  run (addBlock newBlock) st tr r st' ->
  if success r
  then exists d lastBlock now,
         added r = Some d
         /\ isBlockValid d = true
         /\ tr !! 1%nat = Some (EvFindLast (Resolved lastBlock))
         /\ tr !! 2%nat = Some (EvNow (Resolved now))
         /\ get "previousHash" d = previous_hash_of lastBlock
         /\ get "creationDate" d = VDate (Some now)
  else added r = None.
Proof.
  intros Hrun%run_addBlock. destruct (success r) eqn:Hs.
  - apply addBlock_run_success in Hrun
      as (l & lastBlock & now & id & -> & _ & _ & _ & _ & ->); [|done].
    eexists _, lastBlock, now. split; [reflexivity|]. split.
    + apply isBlockValid_hash. rewrite createHash_set_id.
      rewrite get_set_prop_ne by done.
      destruct (get_hash_block_to_insert newBlock lastBlock now) as (h & Hh & ->).
      exact Hh.
    + split; [done|]. split; [done|]. split.
      * apply get_previousHash_added.
      * rewrite get_set_prop_ne by done. apply get_creationDate_block_to_insert.
  - destruct Hrun; try done.
Qed.

Lemma addBlock_returns_valid_block_witness :
  exists d lastBlock now,
    Some (set_prop "_id" (VObjectId "65f000000000000000000001")
            (block_to_insert definition_v1 None 1700000000000)) = Some d
    /\ isBlockValid d = true
    /\ [EvFindSortedAsc (Resolved []); EvFindLast (Resolved None);
        EvNow (Resolved 1700000000000);
        EvInsertOne (block_to_insert definition_v1 None 1700000000000)
          (Resolved (VObjectId "65f000000000000000000001"))] !! 1%nat
       = Some (EvFindLast (Resolved lastBlock))
    /\ [EvFindSortedAsc (Resolved []); EvFindLast (Resolved None);
        EvNow (Resolved 1700000000000);
        EvInsertOne (block_to_insert definition_v1 None 1700000000000)
          (Resolved (VObjectId "65f000000000000000000001"))] !! 2%nat
       = Some (EvNow (Resolved now))
    /\ get "previousHash" d = previous_hash_of lastBlock
    /\ get "creationDate" d = VDate (Some now).
Proof.
  exact (addBlock_returns_valid_block definition_v1 [] _ _ _
           (run_entry0 1700000000000)).
Defined.

(** ** The requests that append *)

Lemma run_addBlock_cases {R : Type} (nb : obj) (k : add_result -> prog R)
    st tr r st' :
  run (addBlock nb ≫= k) st tr r st' ->
  exists res st1 tr_add tr_k,
    tr = tr_add ++ tr_k
    /\ run (addBlock nb) st tr_add res st1
    /\ run (k res) st1 tr_k r st'
    /\ (success res = false -> st1 = st).
Proof.
  intros (res & st1 & tr1 & tr2 & -> & Hadd & Hk)%run_mbind.
  exists res, st1, tr1, tr2. split; [done|]. split; [done|]. split; [done|].
  intros Hs. apply run_addBlock in Hadd. by eapply addBlock_run_failure.
Qed.

Section Requests.

Variable Date_parse : string -> option Z.

Lemma run_canUserVote_accept userId voteId st tr r st' :
  run (canUserVote Date_parse userId voteId) st tr r st' ->
  canVote r = true ->
  exists tr_role userInfo vb now,
    tr = tr_role
         ++ [EvFindOne (ballot_filter userId voteId) (Resolved None);
             EvFindOne (definition_filter voteId) (Resolved (Some vb));
             EvNow (Resolved now)]
    /\ getUserRole_run userId tr_role userInfo
    /\ truthy userInfo && strict_eq (prop "status" userInfo) (VStr "admin") = false
    /\ findOne_read (ballot_filter userId voteId) st None
    /\ findOne_read (definition_filter voteId) st (Some vb)
    /\ time_lt (newDate Date_parse (get "endDate" vb)) (Some now) = false
    /\ r = VoteCheck true None (Some vb)
    /\ st' = st.
Proof.
  intros (tr1 & userInfo & tr2 & -> & Hrole & H)%run_canUserVote Hcan.
  destruct (truthy userInfo && strict_eq (prop "status" userInfo) (VStr "admin"))
    eqn:Hadmin.
  { destruct H as (_ & -> & _). discriminate Hcan. }
  apply run_remaining_checks in H as [-> H].
  destruct (H Hcan) as (vb & now & -> & H1 & H2 & Hlt & ->).
  by exists tr1, userInfo, vb, now.
Qed.

Lemma run_vote_cases (reqBody : obj) st tr r st' :
  run (vote Date_parse reqBody) st tr r st' ->
  (exists tr_check vb tr_add res,
     tr = tr_check ++ tr_add
     /\ truthy (get "voterId" reqBody) = true
     /\ truthy (get "voteId" reqBody) = true
     /\ truthy (get "candidate" reqBody) = true
     /\ run (canUserVote Date_parse (get "voterId" reqBody) (get "voteId" reqBody))
          st tr_check (VoteCheck true None (Some vb)) st
     /\ options_include vb (get "candidate" reqBody) = true
     /\ run (addBlock (new_ballot reqBody)) st tr_add res st'
     /\ success res = true
     /\ r = Response 200 (added_body "Голос збережено" res))
  \/ (st' = st /\ refused r).
Proof.
  intros H. unfold vote in H.
  destruct (truthy (get "voterId" reqBody)) eqn:H1; cbn [negb orb] in H;
    [|right; destruct H as (_ & -> & ->); split; [done|by left]].
  destruct (truthy (get "voteId" reqBody)) eqn:H2; cbn [negb orb] in H;
    [|right; destruct H as (_ & -> & ->); split; [done|by left]].
  destruct (truthy (get "candidate" reqBody)) eqn:H3; cbn [negb orb] in H;
    [|right; destruct H as (_ & -> & ->); split; [done|by left]].
  apply run_mbind in H as (vc & st1 & tr1 & tr2 & -> & Hcheck & H).
  destruct (canVote vc) eqn:Hcan; cbn [negb] in H.
  2:{ apply run_canUserVote_store in Hcheck as [-> _].
      right. destruct H as (_ & -> & ->). split; [done|]. right. by left. }
  pose proof Hcheck as Hcheck'.
  apply run_canUserVote_accept in Hcheck'
    as (tr_role & userInfo & vb & now & _ & _ & _ & _ & _ & _ & -> & ->);
    [|done].
  cbn [voteBlock] in H. cbv zeta in H.
  assert (forall included : bool,
    run (if negb included
         then Ret (Response 400 (error_body "Невалідний варіант для голосування"))
         else addBlock (new_ballot reqBody)
              ≫= (fun result =>
                    if success result
                    then Ret (Response 200 (added_body "Голос збережено" result))
                    else Ret (Response 500 (add_failure_body result))))
      st tr2 r st' ->
    (included = true
     /\ exists res,
          run (addBlock (new_ballot reqBody)) st tr2 res st'
          /\ success res = true
          /\ r = Response 200 (added_body "Голос збережено" res))
    \/ (st' = st /\ refused r)) as Hcont.
  { intros [|]; cbn [negb]; intros Hrun.
    2:{ right. destruct Hrun as (_ & -> & ->). split; [done|by left]. }
    apply run_addBlock_cases in Hrun
      as (res & st1 & tr_add & tr_k & -> & Hadd & Hk & Hfail).
    destruct (success res) eqn:Hs; destruct Hk as (-> & -> & ->).
    - left. split; [done|]. exists res. by rewrite app_nil_r.
    - right. split; [by apply Hfail|]. right. by right. }
  destruct (get "options" vb) as [| | | |s| | |l|o] eqn:Hopt;
    try (right; destruct H as (_ & -> & ->); split; [done|]; right; by right).
  - destruct (ToString (get "candidate" reqBody)) as [c|] eqn:Hc;
      [|right; destruct H as (_ & -> & ->); split; [done|]; right; by right].
    apply Hcont in H as [(Hincl & res & Hadd & Hs & ->)|Hrefused]; [|by right].
    left. exists tr1, vb, tr2, res. unfold options_include. rewrite Hopt.
    by rewrite <- (ToString_js_String _ _ Hc).
  - apply Hcont in H as [(Hincl & res & Hadd & Hs & ->)|Hrefused]; [|by right].
    left. exists tr1, vb, tr2, res. unfold options_include. by rewrite Hopt.
Qed.

Lemma run_create_vote_cases (reqBody : obj) st tr r st' :
  run (create_vote Date_parse reqBody) st tr r st' ->
  (exists tr_role userInfo currentDate clock finalEndDate tr_add res,
     tr = tr_role
          ++ EvFindOne (definition_filter (get "voteId" reqBody)) (Resolved None)
             :: EvNow (Resolved currentDate) :: clock ++ tr_add
     /\ complete_definition reqBody
     /\ getUserRole_run (get "creatorId" reqBody) tr_role userInfo
     /\ truthy userInfo = true
     /\ prop "status" userInfo = VStr "admin"
     /\ findOne_read (definition_filter (get "voteId" reqBody)) st None
     /\ end_date_chosen Date_parse reqBody currentDate clock finalEndDate
     /\ run (addBlock (new_definition reqBody finalEndDate)) st tr_add res st'
     /\ success res = true
     /\ r = Response 200 (added_body "Голосування створено" res))
  \/ (st' = st /\ refused r).
Proof.
  intros H. unfold create_vote in H.
  destruct (negb (truthy (get "voteId" reqBody))
            || negb (truthy (get "title" reqBody))
            || negb (truthy (get "description" reqBody))
            || negb (truthy (get "options" reqBody))
            || negb (truthy (get "creatorId" reqBody))
            || negb (isArray (get "options" reqBody))
            || match get "options" reqBody with VArr [] => true | _ => false end)
    eqn:Hdata.
  { right. destruct H as (_ & -> & ->). split; [done|by left]. }
  assert (complete_definition reqBody) as Hcomplete.
  { repeat (apply orb_false_iff in Hdata as [Hdata ?]).
    repeat match goal with H : negb _ = false |- _ => apply negb_false_iff in H end.
    repeat (split; [assumption|]).
    destruct (get "options" reqBody) as [| | | | | | |[|o os]|]; try done.
    by exists o, os. }
  clear Hdata.
  apply run_mbind in H as (userInfo & st1 & tr1 & tr2 & -> & Hrole & H).
  apply run_getUserRole in Hrole as [-> Hrole].
  destruct (truthy userInfo) eqn:Htruthy; cbn [negb orb] in H;
    [|right; destruct H as (_ & -> & ->); split; [done|]; right; by left].
  destruct (strict_eq (prop "status" userInfo) (VStr "admin")) eqn:Hadmin;
    cbn [negb] in H;
    [|right; destruct H as (_ & -> & ->); split; [done|]; right; by left].
  apply strict_eq_str in Hadmin.
  unfold await in H. cbn [run] in H.
  fold (definition_filter (get "voteId" reqBody)) in H.
  destruct H as (out1 & st1 & tr3 & -> & [-> Hfind] & H).
  destruct out1 as [[existing|]|e]; cbn [run] in H;
    [right; destruct H as (_ & -> & ->); split; [done|by left]
    | |right; destruct H as (_ & -> & ->); split; [done|]; right; by right].
  destruct H as (out2 & st2 & tr4 & -> & [-> _] & H).
  destruct out2 as [currentDate|e]; cbn [run] in H;
    [|right; destruct H as (_ & -> & ->); split; [done|]; right; by right].
  cbv zeta in H. fold (new_definition reqBody) in H.
  assert (forall (finalEndDate : option Z) tr5,
    run (addBlock (new_definition reqBody finalEndDate)
         ≫= (fun result =>
               if success result
               then Ret (Response 200 (added_body "Голосування створено" result))
               else Ret (Response 500 (add_failure_body result))))
      st tr5 r st' ->
    (exists res,
       run (addBlock (new_definition reqBody finalEndDate)) st tr5 res st'
       /\ success res = true
       /\ r = Response 200 (added_body "Голосування створено" res))
    \/ (st' = st /\ refused r)) as Hfinish.
  { intros finalEndDate tr5 Hrun.
    apply run_addBlock_cases in Hrun
      as (res & st1 & tr_add & tr_k & -> & Hadd & Hk & Hfail).
    destruct (success res) eqn:Hs; destruct Hk as (-> & -> & ->).
    - left. exists res. by rewrite app_nil_r.
    - right. split; [by apply Hfail|]. right. by right. }
  unfold end_date_chosen.
  destruct (truthy (get "endDate" reqBody)) eqn:Hend.
  - destruct (ToString (get "endDate" reqBody));
      [|right; destruct H as (_ & -> & ->); split; [done|]; right; by right].
    destruct (time_le (newDate Date_parse (get "endDate" reqBody)) (Some currentDate))
      eqn:Hle;
      [right; destruct H as (_ & -> & ->); split; [done|by left]|].
    apply Hfinish in H as [(res & Hadd & Hs & ->)|Hrefused]; [|by right].
    left.
    exists tr1, userInfo, currentDate, [],
      (newDate Date_parse (get "endDate" reqBody)), tr4, res.
    by repeat (split; [done|]).
  - cbn [run] in H. destruct H as (out3 & st3 & tr5 & -> & [-> _] & H).
    destruct out3 as [today|e]; cbn [run] in H;
      [|right; destruct H as (_ & -> & ->); split; [done|]; right; by right].
    apply Hfinish in H as [(res & Hadd & Hs & ->)|Hrefused]; [|by right].
    left.
    exists tr1, userInfo, currentDate, [EvNow (Resolved today)],
      (time_clip (today + 30 * ms_per_day)), tr5, res.
    repeat (split; [done|]). split; [|done]. by exists today.
Qed.

End Requests.

(** *** Successful requests, built from their parts *)

Section RequestRuns.

Variable Date_parse : string -> option Z.

Lemma run_create_vote_ok (reqBody : obj) st tr_role userInfo currentDate clock
    finalEndDate tr_add res st' :
  negb (truthy (get "voteId" reqBody))
  || negb (truthy (get "title" reqBody))
  || negb (truthy (get "description" reqBody))
  || negb (truthy (get "options" reqBody))
  || negb (truthy (get "creatorId" reqBody))
  || negb (isArray (get "options" reqBody))
  || match get "options" reqBody with VArr [] => true | _ => false end = false ->
  getUserRole_run (get "creatorId" reqBody) tr_role userInfo ->
  truthy userInfo = true ->
  prop "status" userInfo = VStr "admin" ->
  findOne_read (definition_filter (get "voteId" reqBody)) st None ->
  converts (get "endDate" reqBody) = true ->
  end_date_chosen Date_parse reqBody currentDate clock finalEndDate ->
  run (addBlock (new_definition reqBody finalEndDate)) st tr_add res st' ->
  success res = true ->
  run (create_vote Date_parse reqBody) st
    (tr_role
     ++ EvFindOne (definition_filter (get "voteId" reqBody)) (Resolved None)
        :: EvNow (Resolved currentDate) :: clock ++ tr_add)
    (Response 200 (added_body "Голосування створено" res)) st'.
Proof.
  intros Hdata Hrole Htruthy Hadmin Hfind Hc Hend Hadd Hs. unfold create_vote.
  rewrite Hdata. apply run_mbind.
  eexists userInfo, st, tr_role, _. split; [done|].
  split; [by apply run_getUserRole|].
  rewrite Htruthy, Hadmin, strict_eq_str_refl. cbn [negb orb].
  unfold await. cbn [run]. fold (definition_filter (get "voteId" reqBody)).
  eexists (Resolved None), st, _. split; [done|]. split; [done|]. cbn [run].
  eexists (Resolved currentDate), st, _. split; [done|]. split; [done|].
  cbv zeta. fold (new_definition reqBody).
  assert (forall tr5,
    tr5 = tr_add ->
    run (addBlock (new_definition reqBody finalEndDate)
         ≫= (fun result =>
               if success result
               then Ret (Response 200 (added_body "Голосування створено" result))
               else Ret (Response 500 (add_failure_body result))))
      st tr5 (Response 200 (added_body "Голосування створено" res)) st') as Hfinish.
  { intros tr5 ->. apply run_mbind. exists res, st', tr_add, [].
    rewrite app_nil_r. split; [done|]. split; [done|]. by rewrite Hs. }
  unfold end_date_chosen in Hend.
  destruct (truthy (get "endDate" reqBody)).
  - rewrite (converts_ToString _ Hc). destruct Hend as (-> & -> & ->).
    by apply Hfinish.
  - destruct Hend as (today & -> & ->). cbn [run].
    eexists (Resolved today), st, _. split; [done|]. split; [done|].
    by apply Hfinish.
Qed.

End RequestRuns.

Lemma run_vote_request t0 now t :
  (now <= 1800000000000)%Z ->
  run (vote parse_nothing vote_request) [entry0 t0]
    (vote_request_events t0 now t) (vote_request_answer t0 t)
    [entry0 t0; entry1 (Some (entry0 t0)) t].
Proof.
  intros Hnow. unfold vote_request_events, vote_request_answer.
  apply (run_vote_stored parse_nothing vote_request [entry0 t0] _
           (entry0 t0) [VStr "A"; VStr "B"]).
  - reflexivity.
  - reflexivity.
  - reflexivity.
  - by apply run_canUserVote_user.
  - apply get_options_entry0.
  - reflexivity.
  - apply (run_entry1 t0 t), valid_entry0.
  - reflexivity.
Qed.

Lemma run_undated_request now t0 :
  run (create_vote parse_nothing undated_request) []
    (undated_events now t0) (undated_answer t0) [undated_entry t0].
Proof.
  unfold undated_events, undated_answer.
  eapply (run_create_vote_ok parse_nothing undated_request []
            [EvFindUser (VStr "a1") (Resolved (Some [("status", VStr "admin")]))]
            _ now [] None).
  - reflexivity.
  - apply (role_found (VStr "a1") [("status", VStr "admin")]).
  - reflexivity.
  - reflexivity.
  - by intros b ?%elem_of_nil.
  - reflexivity.
  - by split.
  - apply (run_addBlock_inserted (new_definition undated_request None) [] [] None t0).
    + apply sorted_read_nil.
    + reflexivity.
    + reflexivity.
    + reflexivity.
    + by intros d ?%elem_of_nil.
  - reflexivity.
Qed.

(** *** What is stored, and when *)

Lemma stored_ballot_keys reqBody id lastBlock now :
  keys (stored_doc id (block_to_insert (new_ballot reqBody) lastBlock now))
  = ["_id"; "type"; "voterId"; "voteId"; "candidate"; "previousHash";
     "creationDate"; "hash"].
Proof. lazy. reflexivity. Qed.

Lemma stored_ballot_fields reqBody id lastBlock now :
  let doc := stored_doc id (block_to_insert (new_ballot reqBody) lastBlock now) in
  get "type" doc = VStr "vote"
  /\ get "voterId" doc = to_bson (get "voterId" reqBody)
  /\ get "voteId" doc = to_bson (get "voteId" reqBody)
  /\ get "candidate" doc = to_bson (get "candidate" reqBody).
Proof. lazy. done. Qed.

Lemma stored_definition_keys reqBody e id lastBlock now :
  keys (stored_doc id (block_to_insert (new_definition reqBody e) lastBlock now))
  = ["_id"; "type"; "voteId"; "creatorId"; "endDate"; "title"; "description";
     "options"; "groupIds"; "previousHash"; "creationDate"; "hash"].
Proof. lazy. reflexivity. Qed.

Lemma stored_definition_fields reqBody e id lastBlock now :
  let doc := stored_doc id (block_to_insert (new_definition reqBody e) lastBlock now) in
  get "type" doc = VStr "create_vote"
  /\ get "voteId" doc = to_bson (get "voteId" reqBody)
  /\ get "creatorId" doc = to_bson (get "creatorId" reqBody)
  /\ get "endDate" doc = to_bson (VDate e)
  /\ get "options" doc = to_bson (get "options" reqBody)
  /\ get "groupIds" doc
     = to_bson (match get "groupIds" reqBody with
                | VArr (_ :: _) => get "groupIds" reqBody
                | _ => VArr [VStr "all"]
                end).
Proof. lazy. done. Qed.

Section RequestProperties.

Variable Date_parse : string -> option Z.

(** X6. [POST /vote] either answers 200 and has appended exactly one
    document, a ballot made of the three fields of the request and the
    fields of the chain, after it found no ballot of the voter for the
    vote and a definition of the vote whose end date is not before the
    clock value read and whose options include the candidate; or it
    answers 400, 403 or 500 and has left the collection as it was. *)
Theorem vote_stores_one_ballot_or_nothing (reqBody : obj) (st : list block)
    (tr : list event) (r : response) (st' : list block) :
  run (vote Date_parse reqBody) st tr r st' ->
  (status r = 200
   /\ exists doc vb now,
        st' = st ++ [doc]
        /\ keys doc = ["_id"; "type"; "voterId"; "voteId"; "candidate";
                       "previousHash"; "creationDate"; "hash"]
        /\ get "type" doc = VStr "vote"
        /\ get "voterId" doc = to_bson (get "voterId" reqBody)
        /\ get "voteId" doc = to_bson (get "voteId" reqBody)
        /\ get "candidate" doc = to_bson (get "candidate" reqBody)
        /\ findOne_read (ballot_filter (get "voterId" reqBody) (get "voteId" reqBody))
             st None
        /\ findOne_read (definition_filter (get "voteId" reqBody)) st (Some vb)
        /\ EvNow (Resolved now) ∈ tr
        /\ time_lt (newDate Date_parse (get "endDate" vb)) (Some now) = false
        /\ options_include vb (get "candidate" reqBody) = true)
  \/ (st' = st /\ refused r).
Proof.
  intros [(tr_check & vb & tr_add & res & -> & _ & _ & _ & Hcheck & Hincl
           & Hadd & Hs & ->)|Hrefused]%run_vote_cases; [left|by right].
  split; [done|].
  apply run_canUserVote_accept in Hcheck
    as (tr_role & _ & vb' & now & -> & _ & _ & Hnone & Hfound & Hlt & [= <-] & _);
    [|done].
  apply run_addBlock in Hadd. apply addBlock_run_success in Hadd
    as (l & lastBlock & now' & id & _ & _ & _ & _ & -> & _); [|done].
  destruct (stored_ballot_fields reqBody (to_bson id) lastBlock now')
    as (Htype & Hvoter & Hvote & Hcandidate).
  eexists _, vb, now. split; [reflexivity|].
  split; [apply stored_ballot_keys|]. repeat (split; [assumption|]).
  split; [|done]. apply elem_of_app. left. apply elem_of_app. right.
  apply elem_of_cons. right. apply elem_of_cons. right. by left.
Qed.

(** X7. [POST /create_vote] either answers 200 and has appended exactly
    one document, a vote definition whose options and groups are
    non-empty arrays and whose end date is a valid date, for a vote that
    no stored definition matched; or it answers 400, 403 or 500 and has
    left the collection as it was. *)
Theorem create_vote_stores_one_definition_or_nothing (reqBody : obj)
    (st : list block) (tr : list event) (r : response) (st' : list block) :
  run (create_vote Date_parse reqBody) st tr r st' ->
  (status r = 200
   /\ exists doc,
        st' = st ++ [doc]
        /\ keys doc = ["_id"; "type"; "voteId"; "creatorId"; "endDate"; "title";
                       "description"; "options"; "groupIds"; "previousHash";
                       "creationDate"; "hash"]
        /\ get "type" doc = VStr "create_vote"
        /\ get "voteId" doc = to_bson (get "voteId" reqBody)
        /\ (exists o os, get "options" doc = VArr (o :: os))
        /\ (exists g gs, get "groupIds" doc = VArr (g :: gs))
        /\ (exists t, get "endDate" doc = VDate (Some t))
        /\ findOne_read (definition_filter (get "voteId" reqBody)) st None)
  \/ (st' = st /\ refused r).
Proof.
  intros [(tr_role & userInfo & currentDate & clock & finalEndDate & tr_add & res
           & -> & (_ & _ & _ & _ & o & os & Hoptions) & _ & _ & _ & Hfind & _
           & Hadd & Hs & ->)
         |Hrefused]%run_create_vote_cases; [left|by right].
  split; [done|].
  apply run_addBlock in Hadd. apply addBlock_run_success in Hadd
    as (l & lastBlock & now & id & _ & _ & _ & _ & -> & _); [|done].
  destruct (stored_definition_fields reqBody finalEndDate (to_bson id) lastBlock now)
    as (Htype & Hvote & _ & Hend & Hopt & Hgroups).
  eexists. split; [reflexivity|]. split; [apply stored_definition_keys|].
  split; [exact Htype|]. split; [exact Hvote|]. split; [|split; [|split]].
  - rewrite Hopt, Hoptions. cbn [to_bson map]. by eexists _, _.
  - rewrite Hgroups.
    destruct (get "groupIds" reqBody) as [| | | | | | |[|g gs]|];
      cbn [to_bson map]; by eexists _, _.
  - rewrite Hend. destruct finalEndDate; cbn [to_bson]; by eexists.
  - exact Hfind.
Qed.

(** X8. A vote is created only for a creator whom identity resolution
    gave the status of an administrator, and a ballot is stored only for
    a voter whom it did not. *)
Theorem administrators_create_and_never_vote (body1 body2 : obj)
    (st1 st2 : list block) (tr1 tr2 : list event) (r1 r2 : response)
    (st1' st2' : list block) :
  run (create_vote Date_parse body1) st1 tr1 r1 st1' -> status r1 = 200 ->
  run (vote Date_parse body2) st2 tr2 r2 st2' -> status r2 = 200 ->
  exists tr_role1 rest1 role1 tr_role2 rest2 role2,
    tr1 = tr_role1 ++ rest1
    /\ getUserRole_run (get "creatorId" body1) tr_role1 role1
    /\ tr2 = tr_role2 ++ rest2
    /\ getUserRole_run (get "voterId" body2) tr_role2 role2
    /\ prop "status" role1 = VStr "admin"
    /\ prop "status" role2 <> VStr "admin".
Proof.
  intros [(tr_role & userInfo & currentDate & clock & finalEndDate & tr_add & res
           & -> & _ & Hrole1 & _ & Hadmin & _)
         |[_ Hrefused]]%run_create_vote_cases Hs1;
    [|destruct Hrefused as [H|[H|H]]; rewrite H in Hs1; discriminate Hs1].
  intros [(tr_check & vb & tr_add2 & res2 & -> & _ & _ & _ & Hcheck & _)
         |[_ Hrefused]]%run_vote_cases Hs2;
    [|destruct Hrefused as [H|[H|H]]; rewrite H in Hs2; discriminate Hs2].
  apply run_canUserVote_accept in Hcheck
    as (tr_role2 & role2 & vb' & now & -> & Hrole2 & Hnot & _); [|done].
  eexists tr_role, _, userInfo, tr_role2, _, role2.
  split; [reflexivity|]. split; [exact Hrole1|].
  split; [by rewrite <-app_assoc|]. split; [exact Hrole2|]. split; [exact Hadmin|].
  intros E. rewrite E, strict_eq_str_refl, andb_true_r in Hnot.
  destruct role2; try discriminate Hnot; discriminate E.
Qed.

(** X9. While every read of the collection fails validation, no request
    stores anything: [POST /vote] and [POST /create_vote] are refused
    and leave the collection as it is. *)
Theorem corrupted_chain_takes_no_request (st : list block) :
  (forall l, sorted_read st l -> valid (validateChain_body l) = false) ->
  (forall reqBody tr r st',
      run (vote Date_parse reqBody) st tr r st' -> st' = st /\ refused r)
  /\ (forall reqBody tr r st',
        run (create_vote Date_parse reqBody) st tr r st' -> st' = st /\ refused r).
Proof.
  intros Hbad. split; intros reqBody tr r st' Hrun.
  - apply run_vote_cases in Hrun
      as [(tr_check & vb & tr_add & res & _ & _ & _ & _ & _ & _ & Hadd & Hs & _)|H];
      [|done].
    apply run_addBlock in Hadd. apply addBlock_run_success in Hadd
      as (l & _ & _ & _ & _ & Hl & Hv & _); [|done].
    rewrite (Hbad l Hl) in Hv. discriminate Hv.
  - apply run_create_vote_cases in Hrun
      as [(tr_role & userInfo & currentDate & clock & finalEndDate & tr_add & res
           & _ & _ & _ & _ & _ & _ & _ & Hadd & Hs & _)|H]; [|done].
    apply run_addBlock in Hadd. apply addBlock_run_success in Hadd
      as (l & _ & _ & _ & _ & Hl & Hv & _); [|done].
    rewrite (Hbad l Hl) in Hv. discriminate Hv.
Qed.

(** X10. A request that lacks one of its required fields (or holds a
    falsy value there, or options that are not a non-empty array) is
    answered with 400 before anything is looked up: the handler reads
    neither the collections nor the clock. *)
Theorem incomplete_requests_are_refused_unread (reqBody : obj) (st : list block)
    (tr : list event) (r : response) (st' : list block) :
  (run (vote Date_parse reqBody) st tr r st' ->
   (exists k, k ∈ ["voterId"; "voteId"; "candidate"]
              /\ truthy (get k reqBody) = false) ->
   r = Response 400 (error_body "Не вистачає даних для голосування")
   /\ tr = [] /\ st' = st)
  /\ (run (create_vote Date_parse reqBody) st tr r st' ->
      (exists k, k ∈ ["voteId"; "title"; "description"; "options"; "creatorId"]
                 /\ truthy (get k reqBody) = false)
      \/ (forall o os, get "options" reqBody <> VArr (o :: os)) ->
      r = Response 400 (error_body "Не вистачає даних для створення голосування")
      /\ tr = [] /\ st' = st).
Proof.
  split.
  - intros Hrun (k & Hk & Hfalsy). unfold vote in Hrun.
    assert (negb (truthy (get "voterId" reqBody))
            || negb (truthy (get "voteId" reqBody))
            || negb (truthy (get "candidate" reqBody)) = true) as Hdata.
    { repeat (apply elem_of_cons in Hk as [->|Hk]); [| | |by apply elem_of_nil in Hk];
        rewrite Hfalsy; cbn [negb orb]; by rewrite ?orb_true_r. }
    rewrite Hdata in Hrun. by destruct Hrun as (-> & -> & ->).
  - intros Hrun Hmissing. unfold create_vote in Hrun.
    assert (negb (truthy (get "voteId" reqBody))
            || negb (truthy (get "title" reqBody))
            || negb (truthy (get "description" reqBody))
            || negb (truthy (get "options" reqBody))
            || negb (truthy (get "creatorId" reqBody))
            || negb (isArray (get "options" reqBody))
            || match get "options" reqBody with VArr [] => true | _ => false end
            = true) as Hdata.
    { destruct Hmissing as [(k & Hk & Hfalsy)|Hoptions].
      - repeat (apply elem_of_cons in Hk as [->|Hk]);
          [| | | | |by apply elem_of_nil in Hk];
          rewrite Hfalsy; cbn [negb orb]; by rewrite ?orb_true_r.
      - destruct (get "options" reqBody) as [| | | | | | |[|o os]|];
          cbn [isArray negb]; rewrite ?orb_true_r; try done.
        by destruct (Hoptions o os). }
    rewrite Hdata in Hrun. by destruct Hrun as (-> & -> & ->).
Qed.

End RequestProperties.

Lemma vote_stores_one_ballot_or_nothing_witness :
  (status (vote_request_answer 1700000000000 1700000000002) = 200
   /\ exists doc vb now,
        [entry0 1700000000000; entry1 (Some (entry0 1700000000000)) 1700000000002]
        = [entry0 1700000000000] ++ [doc]
        /\ keys doc = ["_id"; "type"; "voterId"; "voteId"; "candidate";
                       "previousHash"; "creationDate"; "hash"]
        /\ get "type" doc = VStr "vote"
        /\ get "voterId" doc = to_bson (get "voterId" vote_request)
        /\ get "voteId" doc = to_bson (get "voteId" vote_request)
        /\ get "candidate" doc = to_bson (get "candidate" vote_request)
        /\ findOne_read
             (ballot_filter (get "voterId" vote_request) (get "voteId" vote_request))
             [entry0 1700000000000] None
        /\ findOne_read (definition_filter (get "voteId" vote_request))
             [entry0 1700000000000] (Some vb)
        /\ EvNow (Resolved now)
           ∈ vote_request_events 1700000000000 1700000000001 1700000000002
        /\ time_lt (newDate parse_nothing (get "endDate" vb)) (Some now) = false
        /\ options_include vb (get "candidate" vote_request) = true)
  \/ ([entry0 1700000000000; entry1 (Some (entry0 1700000000000)) 1700000000002]
      = [entry0 1700000000000]
      /\ refused (vote_request_answer 1700000000000 1700000000002)).
Proof.
  apply (vote_stores_one_ballot_or_nothing parse_nothing vote_request
           [entry0 1700000000000]
           (vote_request_events 1700000000000 1700000000001 1700000000002)).
  apply run_vote_request. lia.
Defined.

Lemma create_vote_stores_one_definition_or_nothing_witness :
  (status (create_request_answer 1700000000000) = 200
   /\ exists doc,
        [entry0 1700000000000] = [] ++ [doc]
        /\ keys doc = ["_id"; "type"; "voteId"; "creatorId"; "endDate"; "title";
                       "description"; "options"; "groupIds"; "previousHash";
                       "creationDate"; "hash"]
        /\ get "type" doc = VStr "create_vote"
        /\ get "voteId" doc = to_bson (get "voteId" create_request)
        /\ (exists o os, get "options" doc = VArr (o :: os))
        /\ (exists g gs, get "groupIds" doc = VArr (g :: gs))
        /\ (exists t, get "endDate" doc = VDate (Some t))
        /\ findOne_read (definition_filter (get "voteId" create_request)) [] None)
  \/ ([entry0 1700000000000] = [] /\ refused (create_request_answer 1700000000000)).
Proof.
  apply (create_vote_stores_one_definition_or_nothing parse_nothing create_request []
           (create_request_events 1699999999999 1700000000000)).
  apply (run_create_request 1700000000000 1699999999999). lia.
Defined.

Lemma administrators_create_and_never_vote_witness :
  exists tr_role1 rest1 role1 tr_role2 rest2 role2,
    create_request_events 1699999999999 1700000000000 = tr_role1 ++ rest1
    /\ getUserRole_run (get "creatorId" create_request) tr_role1 role1
    /\ vote_request_events 1700000000000 1700000000001 1700000000002
       = tr_role2 ++ rest2
    /\ getUserRole_run (get "voterId" vote_request) tr_role2 role2
    /\ prop "status" role1 = VStr "admin"
    /\ prop "status" role2 <> VStr "admin".
Proof.
  apply (administrators_create_and_never_vote parse_nothing
           create_request vote_request [] [entry0 1700000000000]
           _ _ (create_request_answer 1700000000000)
           (vote_request_answer 1700000000000 1700000000002)
           [entry0 1700000000000]
           [entry0 1700000000000;
            entry1 (Some (entry0 1700000000000)) 1700000000002]).
  - apply (run_create_request 1700000000000 1699999999999). lia.
  - reflexivity.
  - apply (run_vote_request 1700000000000 1700000000001 1700000000002). lia.
  - reflexivity.
Defined.

Lemma sorted_read_singleton_inv (b : block) l : sorted_read [b] l -> l = [b].
Proof. intros [Hp _]. by apply Permutation_singleton_r. Qed.

Lemma corrupted_chain_takes_no_request_witness :
  (forall reqBody tr r st',
      run (vote parse_nothing reqBody) [tampered_block] tr r st' ->
      st' = [tampered_block] /\ refused r)
  /\ (forall reqBody tr r st',
        run (create_vote parse_nothing reqBody) [tampered_block] tr r st' ->
        st' = [tampered_block] /\ refused r).
Proof.
  apply (corrupted_chain_takes_no_request parse_nothing [tampered_block]).
  intros l ->%sorted_read_singleton_inv. vm_compute. reflexivity.
Defined.

(** *** Eligibility, read back *)

Lemma matches_ballot_filter_decided u v (b : block) :
  matches (ballot_filter (VStr u) (VStr v)) b <> None.
Proof. done. Qed.

Lemma matches_definition_filter_decided v (b : block) :
  matches (definition_filter (VStr v)) b <> None.
Proof. done. Qed.

Lemma not_Some_true (x : option bool) : x <> None -> x <> Some true -> x = Some false.
Proof. by destruct x as [[|]|]. Qed.

Lemma not_Some_false (x : option bool) : x <> None -> x <> Some false -> x = Some true.
Proof. by destruct x as [[|]|]. Qed.

Section Accepted.

Variable Date_parse : string -> option Z.

(** X11. [canUserVote] answers [canVote: true] only when the collection
    holds a definition that matches the vote and no ballot that matches
    the voter and the vote, and the end date of that definition is not
    before the clock value read last; it then returns that definition and
    leaves the collection as it is. *)
Theorem canUserVote_accepts_only_eligible (userId voteId : string)
    (st : list block) (tr : list event) (r : vote_check) (st' : list block) :
  run (canUserVote Date_parse (VStr userId) (VStr voteId)) st tr r st' ->
  canVote r = true ->
  st' = st
  /\ exists vb now,
       r = VoteCheck true None (Some vb)
       /\ last tr = Some (EvNow (Resolved now))
       /\ vb ∈ st
       /\ matches (definition_filter (VStr voteId)) vb = Some true
       /\ (forall b, b ∈ st ->
             matches (ballot_filter (VStr userId) (VStr voteId)) b = Some false)
       /\ time_lt (newDate Date_parse (get "endDate" vb)) (Some now) = false.
Proof.
  intros Hrun Hcan. apply run_canUserVote_accept in Hrun
    as (tr_role & userInfo & vb & now & -> & _ & _ & Hnone & [Hvb Hdef] & Hlt
        & -> & ->); [|done].
  split; [done|]. exists vb, now. split; [done|].
  split; [by rewrite last_app|]. split; [done|].
  split; [by apply not_Some_false; [apply matches_definition_filter_decided|]|].
  split; [|done]. intros b Hb.
  apply not_Some_true; [apply matches_ballot_filter_decided|by apply Hnone].
Qed.

End Accepted.

Lemma canUserVote_accepts_only_eligible_witness :
  [entry0 1700000000000] = [entry0 1700000000000]
  /\ exists vb now,
       VoteCheck true None (Some (entry0 1700000000000))
       = VoteCheck true None (Some vb)
       /\ last ([EvFindUser (VStr "u1") (Resolved (Some [("status", VStr "user")]))]
                ++ [EvFindOne (ballot_filter (VStr "u1") (VStr "v1")) (Resolved None);
                    EvFindOne (definition_filter (VStr "v1"))
                      (Resolved (Some (entry0 1700000000000)));
                    EvNow (Resolved 1700000000001)])
          = Some (EvNow (Resolved now))
       /\ vb ∈ [entry0 1700000000000]
       /\ matches (definition_filter (VStr "v1")) vb = Some true
       /\ (forall b, b ∈ [entry0 1700000000000] ->
             matches (ballot_filter (VStr "u1") (VStr "v1")) b = Some false)
       /\ time_lt (newDate parse_nothing (get "endDate" vb)) (Some now) = false.
Proof.
  apply (canUserVote_accepts_only_eligible parse_nothing "u1" "v1"
           [entry0 1700000000000]
           ([EvFindUser (VStr "u1") (Resolved (Some [("status", VStr "user")]))]
            ++ [EvFindOne (ballot_filter (VStr "u1") (VStr "v1")) (Resolved None);
                EvFindOne (definition_filter (VStr "v1"))
                  (Resolved (Some (entry0 1700000000000)));
                EvNow (Resolved 1700000000001)])
           (VoteCheck true None (Some (entry0 1700000000000)))
           [entry0 1700000000000]).
  - apply (run_canUserVote_user parse_nothing 1700000000000 1700000000001). lia.
  - reflexivity.
Defined.

(** *** Stored entries, read back *)

(** A Cyrillic word is well formed; the three bytes ED A0 80, which would
    stand for the unpaired surrogate D800, are not. *)
Example well_formed_examples :
  well_formed "Рада" = true
  /\ well_formed (String (ascii_of_nat 237)
                    (String (ascii_of_nat 160)
                       (String (ascii_of_nat 128) EmptyString))) = false.
Proof. split; reflexivity. Qed.

Lemma to_bson_json : forall v, is_json v = true -> to_bson v = v.
Proof.
  fix IH 1. intros [| |b|n|s|t|h|l|o]; cbn [is_json to_bson]; try done.
  - intros H. f_equal. induction l as [|x l IHl]; [done|].
    cbn [forallb map] in *. apply andb_true_iff in H as [Hx Hl].
    by rewrite (IH x Hx), (IHl Hl).
  - intros [_ H]%andb_true_iff. f_equal. induction o as [|[k x] o IHo]; [done|].
    cbn [forallb map fst snd] in *.
    apply andb_true_iff in H as [[_ Hx]%andb_true_iff Ho].
    by rewrite (IH x Hx), (IHo Ho).
Qed.

Lemma is_json_get k (o : obj) :
  is_json (VObj o) = true -> get k o = VUndefined \/ is_json (get k o) = true.
Proof.
  cbn [is_json]. intros [_ H]%andb_true_iff. revert H.
  induction o as [|[k' x] o IH]; [by left|].
  cbn [forallb get fst snd]. intros [[_ Hx]%andb_true_iff Ho]%andb_true_iff.
  destruct (String.eqb k' k); [by right|by apply IH].
Qed.

Lemma to_bson_field k (o : obj) :
  is_json (VObj o) = true -> truthy (get k o) = true ->
  to_bson (get k o) = get k o.
Proof.
  intros Hjson Htruthy. destruct (is_json_get k o Hjson) as [E|Hk].
  - by rewrite E in Htruthy.
  - by apply to_bson_json.
Qed.

Lemma previous_hash_of_read (st l : list block) lastBlock :
  sorted_read st l -> valid (validateChain_body l) = true ->
  last_read st lastBlock ->
  exists s, previous_hash_of lastBlock = VStr s.
Proof.
  intros Hl Hv Hlast. destruct lastBlock as [b|]; [|by eexists].
  exists (createHash b). destruct Hlast as [Hb _].
  by apply (valid_chain_hash_string st l).
Qed.

Lemma appended_doc_valid (nb : obj) st tr res st' :
  storable nb ->
  run (addBlock nb) st tr res st' -> success res = true ->
  exists doc, st' = st ++ [doc] /\ isBlockValid doc = true.
Proof.
  intros Hnb Hadd%run_addBlock Hs. apply addBlock_run_success in Hadd
    as (l & lastBlock & now & id & _ & Hl & Hv & Hlast & -> & _); [|done].
  destruct (previous_hash_of_read st l lastBlock Hl Hv Hlast) as [s Hprev].
  eexists. split; [reflexivity|].
  apply isBlockValid_stored. by apply (storable_block_to_insert _ _ _ s).
Qed.

Section ReadBack.

Variable Date_parse : string -> option Z.

(** X12. A ballot stored by [POST /vote] passes [isBlockValid] when it is
    read back, for a request body that the JSON parser produced and the
    model holds as it is: its numbers are integers that a double holds
    exactly, its strings and property names have no unpaired surrogate,
    and none of its objects has a property named [_bsontype]. *)
Theorem stored_ballot_verifies (reqBody : obj) (st : list block)
    (tr : list event) (r : response) (st' : list block) :
  is_json (VObj reqBody) = true ->
  run (vote Date_parse reqBody) st tr r st' ->
  status r = 200 ->
  exists doc, st' = st ++ [doc] /\ isBlockValid doc = true.
Proof.
  intros Hjson [(tr_check & vb & tr_add & res & _ & H1 & H2 & H3 & _ & _ & Hadd
                 & Hs & _)|[_ Hrefused]]%run_vote_cases Hstatus;
    [|destruct Hrefused as [H|[H|H]]; rewrite H in Hstatus; discriminate Hstatus].
  apply (appended_doc_valid (new_ballot reqBody) st tr_add res); [|done..].
  unfold storable, new_ballot. cbn [to_bson_doc map to_bson].
  by rewrite !to_bson_field.
Qed.

(** X13. A definition stored by [POST /create_vote] passes [isBlockValid]
    when it is read back, unless the end date of the block the handler
    returns is the invalid date; this for a request body that the JSON
    parser produced and the model holds as it is: its numbers are integers
    that a double holds exactly, its strings and property names have no
    unpaired surrogate, and none of its objects has a property named
    [_bsontype]. *)
Theorem stored_definition_verifies (reqBody : obj) (st : list block)
    (tr : list event) (r : response) (st' : list block) :
  is_json (VObj reqBody) = true ->
  run (create_vote Date_parse reqBody) st tr r st' ->
  status r = 200 ->
  exists doc d,
    st' = st ++ [doc]
    /\ prop "block" (body r) = VObj d
    /\ (isBlockValid doc = true \/ get "endDate" d = VDate None).
Proof.
  intros Hjson [(tr_role & userInfo & currentDate & clock & finalEndDate & tr_add
                 & res & _ & (H1 & H2 & H3 & H4 & o & os & Hoptions) & _ & _ & _
                 & _ & _ & Hadd & Hs & ->)|[_ Hrefused]]%run_create_vote_cases
    Hstatus;
    [|destruct Hrefused as [H|[H|H]]; rewrite H in Hstatus; discriminate Hstatus].
  destruct finalEndDate as [t|].
  - destruct (appended_doc_valid (new_definition reqBody (Some t)) st tr_add res st')
      as (doc & -> & Hdoc); [|done..|].
    + unfold storable, new_definition. cbn [to_bson_doc map].
      rewrite !to_bson_field by done.
      assert (to_bson (get "options" reqBody) = get "options" reqBody) as ->.
      { apply to_bson_field; [done|]. by rewrite Hoptions. }
      assert (forall g, is_json g = true \/ g = VUndefined ->
                to_bson match g with VArr (_ :: _) => g | _ => VArr [VStr "all"] end
                = match g with VArr (_ :: _) => g | _ => VArr [VStr "all"] end)
        as Hgroups.
      { intros g [Hg| ->]; [|done].
        destruct g as [| | | | | | |[|x l]|]; try done. by apply to_bson_json. }
      rewrite Hgroups; [done|].
      destruct (is_json_get "groupIds" reqBody Hjson); auto.
    + apply run_addBlock in Hadd. apply addBlock_run_success in Hadd
        as (l & lastBlock & now & id & _ & _ & _ & _ & _ & ->); [|done].
      eexists doc, _. split; [done|]. split; [reflexivity|]. by left.
  - apply run_addBlock in Hadd. apply addBlock_run_success in Hadd
      as (l & lastBlock & now & id & _ & _ & _ & _ & -> & ->); [|done].
    eexists _, _. split; [reflexivity|]. split; [reflexivity|]. right.
    rewrite !get_set_prop_ne by done. unfold block_to_insert.
    by rewrite !get_set_prop_ne by done.
Qed.

(** X14. An end date that is a string the date parser does not accept is
    not refused: the vote is created, the block returned holds the
    invalid date, and the document stored holds 1 January 1970, so that
    the vote has ended at every later clock value. *)
Theorem unparseable_endDate_is_stored_as_epoch (reqBody : obj) (s : string)
    (st : list block) (tr : list event) (r : response) (st' : list block) :
  get "endDate" reqBody = VStr s -> s <> EmptyString -> Date_parse s = None ->
  run (create_vote Date_parse reqBody) st tr r st' ->
  status r = 200 ->
  exists doc d,
    st' = st ++ [doc]
    /\ prop "block" (body r) = VObj d
    /\ get "endDate" d = VDate None
    /\ get "endDate" doc = VDate (Some 0)
    /\ forall now, 0 < now ->
         time_lt (newDate Date_parse (get "endDate" doc)) (Some now) = true
         /\ results_isActive Date_parse doc now = false.
Proof.
  intros Hend Hs Hparse
    [(tr_role & userInfo & currentDate & clock & finalEndDate & tr_add
      & res & _ & _ & _ & _ & _ & _ & Hchosen & Hadd & Hsucc & ->)
    |[_ Hrefused]]%run_create_vote_cases Hstatus;
    [|destruct Hrefused as [H|[H|H]]; rewrite H in Hstatus; discriminate Hstatus].
  unfold end_date_chosen in Hchosen. rewrite Hend in Hchosen.
  cbn [truthy newDate] in Hchosen.
  apply String.eqb_neq in Hs. rewrite Hs in Hchosen. cbn [negb] in Hchosen.
  destruct Hchosen as (_ & -> & _). rewrite Hparse in Hadd.
  apply run_addBlock in Hadd. apply addBlock_run_success in Hadd
    as (l & lastBlock & now & id & _ & _ & _ & _ & -> & ->); [|done].
  destruct (stored_definition_fields reqBody None (to_bson id) lastBlock now)
    as (_ & _ & _ & Hstored & _).
  eexists _, _. split; [reflexivity|]. split; [reflexivity|]. split.
  { rewrite !get_set_prop_ne by done. unfold block_to_insert.
    by rewrite !get_set_prop_ne by done. }
  split; [exact Hstored|]. intros now' Hnow. unfold results_isActive.
  rewrite Hstored. cbn [to_bson newDate time_lt].
  split; [by apply Z.ltb_lt|apply Z.ltb_ge; lia].
Qed.




End ReadBack.

Lemma stored_ballot_verifies_witness :
  exists doc,
    [entry0 1700000000000; entry1 (Some (entry0 1700000000000)) 1700000000002]
    = [entry0 1700000000000] ++ [doc]
    /\ isBlockValid doc = true.
Proof.
  apply (stored_ballot_verifies parse_nothing vote_request [entry0 1700000000000]
           (vote_request_events 1700000000000 1700000000001 1700000000002)
           (vote_request_answer 1700000000000 1700000000002)).
  - reflexivity.
  - apply run_vote_request. lia.
  - reflexivity.
Defined.

Lemma stored_definition_verifies_witness :
  exists doc d,
    [entry0 1700000000000] = [] ++ [doc]
    /\ prop "block" (body (create_request_answer 1700000000000)) = VObj d
    /\ (isBlockValid doc = true \/ get "endDate" d = VDate None).
Proof.
  apply (stored_definition_verifies parse_nothing create_request []
           (create_request_events 1699999999999 1700000000000)).
  - reflexivity.
  - apply (run_create_request 1700000000000 1699999999999). lia.
  - reflexivity.
Defined.

Lemma unparseable_endDate_is_stored_as_epoch_witness :
  exists doc d,
    [undated_entry 1700000000000] = [] ++ [doc]
    /\ prop "block" (body (undated_answer 1700000000000)) = VObj d
    /\ get "endDate" d = VDate None
    /\ get "endDate" doc = VDate (Some 0)
    /\ forall now, 0 < now ->
         time_lt (newDate parse_nothing (get "endDate" doc)) (Some now) = true
         /\ results_isActive parse_nothing doc now = false.
Proof.
  apply (unparseable_endDate_is_stored_as_epoch parse_nothing undated_request "soon"
           [] (undated_events 1699999999999 1700000000000)).
  - reflexivity.
  - discriminate.
  - reflexivity.
  - apply run_undated_request.
  - reflexivity.
Defined.


(** ** The results of a vote *)

(** *** The object [results] *)

Lemma own_replace_count_eq k c (o : tally) :
  own_count k o <> None -> own_count k (replace_count k c o) = Some c.
Proof.
  induction o as [|[k' c'] o IH]; [done|]. cbn [own_count replace_count].
  destruct (String.eqb_spec k' k) as [->|Hne]; cbn [own_count].
  - by rewrite String.eqb_refl.
  - destruct (String.eqb_spec k' k); [done|]. apply IH.
Qed.

Lemma own_insert_count_eq k c (o : tally) :
  own_count k o = None -> own_count k (insert_count k c o) = Some c.
Proof.
  induction o as [|[k' c'] o IH]; cbn [own_count insert_count].
  - by rewrite String.eqb_refl.
  - destruct (String.eqb_spec k' k) as [->|Hne]; [done|]. intros H.
    destruct (_ && _); cbn [own_count].
    + by rewrite String.eqb_refl.
    + destruct (String.eqb_spec k' k); [done|]. by apply IH.
Qed.

Lemma own_replace_count_ne k k' c (o : tally) :
  k <> k' -> own_count k (replace_count k' c o) = own_count k o.
Proof.
  intros Hne. induction o as [|[k0 c0] o IH]; [done|].
  cbn [own_count replace_count].
  destruct (String.eqb_spec k0 k') as [->|Hne0]; cbn [own_count].
  - destruct (String.eqb_spec k' k); [congruence|done].
  - by rewrite IH.
Qed.

Lemma own_insert_count_ne k k' c (o : tally) :
  k <> k' -> own_count k (insert_count k' c o) = own_count k o.
Proof.
  intros Hne. induction o as [|[k0 c0] o IH]; cbn [own_count insert_count].
  - destruct (String.eqb_spec k' k); [congruence|done].
  - destruct (_ && _); cbn [own_count].
    + destruct (String.eqb_spec k' k); [congruence|done].
    + by rewrite IH.
Qed.

Lemma own_set_count_eq k c (o : tally) :
  k <> "__proto__" -> own_count k (set_count k c o) = Some c.
Proof.
  intros Hk. unfold set_count. destruct (String.eqb_spec k "__proto__"); [done|].
  destruct (own_count k o) eqn:Hown.
  - apply own_replace_count_eq. by rewrite Hown.
  - by apply own_insert_count_eq.
Qed.

Lemma own_set_count_ne k k' c (o : tally) :
  k <> k' -> own_count k (set_count k' c o) = own_count k o.
Proof.
  intros Hne. unfold set_count. destruct (String.eqb k' "__proto__"); [done|].
  destruct (own_count k' o);
    [by apply own_replace_count_ne | by apply own_insert_count_ne].
Qed.

Lemma own_set_count_proto k c (o : tally) :
  own_count "__proto__" o = None -> own_count "__proto__" (set_count k c o) = None.
Proof.
  intros H. destruct (decide (k = "__proto__")) as [->|Hne].
  - done.
  - by rewrite own_set_count_ne.
Qed.

Lemma counted_replace_count k n m (o : tally) :
  own_count k o = Some (Count n) ->
  counted (replace_count k (Count m) o) = counted o - n + m.
Proof.
  induction o as [|[k' c'] o IH]; [done|]. cbn [own_count replace_count].
  destruct (String.eqb_spec k' k) as [->|Hne].
  - intros [= ->]. cbn [counted]. lia.
  - intros H. destruct c'; cbn [counted]; rewrite IH by done; lia.
Qed.

Lemma counted_replace_count_NaN k (o : tally) :
  own_count k o = Some NaN -> counted (replace_count k NaN o) = counted o.
Proof.
  induction o as [|[k' c'] o IH]; [done|]. cbn [own_count replace_count].
  destruct (String.eqb_spec k' k) as [->|Hne].
  - by intros [= ->].
  - intros H. destruct c'; cbn [counted]; by rewrite IH.
Qed.

Lemma counted_insert_count k c (o : tally) :
  counted (insert_count k c o) = counted [(k, c)] + counted o.
Proof.
  induction o as [|[k' c'] o IH]; cbn [insert_count].
  - destruct c; cbn [counted]; lia.
  - destruct (_ && _); [destruct c, c'; cbn [counted]; lia|].
    destruct c, c'; cbn [counted] in *; rewrite IH; lia.
Qed.

Lemma all_zero_set_count k (o : tally) :
  Forall (fun p => p.2 = Count 0) o ->
  Forall (fun p => p.2 = Count 0) (set_count k (Count 0) o).
Proof.
  intros H. unfold set_count. destruct (String.eqb k "__proto__"); [done|].
  destruct (own_count k o).
  - induction H as [|[k' c'] o Hc Ho IH]; [constructor|]. cbn [replace_count].
    destruct (String.eqb k' k); constructor; done.
  - induction H as [|[k' c'] o Hc Ho IH]; cbn [insert_count].
    + by repeat constructor.
    + destruct (_ && _); repeat constructor; done.
Qed.

Lemma all_zero_counted (o : tally) :
  Forall (fun p => p.2 = Count 0) o -> counted o = 0.
Proof.
  induction 1 as [|[k c] o Hc Ho IH]; [done|]. cbn [snd] in Hc. subst c.
  cbn [counted]. lia.
Qed.

Lemma filter_all {A : Type} (f : A -> bool) (l : list A) :
  Forall (fun x => f x = true) l -> List.filter f l = l.
Proof.
  induction 1 as [|x l Hx Hl IH]; [done|]. cbn [List.filter]. by rewrite Hx, IH.
Qed.

Lemma filter_length_le {A : Type} (f : A -> bool) (l : list A) :
  (length (List.filter f l) <= length l)%nat.
Proof.
  induction l as [|x l IH]; [done|]. cbn [List.filter].
  destruct (f x); cbn [length]; lia.
Qed.

(** *** The two loops *)

Lemma tally_options_spec (options : list value) : forall (acc results : tally),
  forEach tally_option options acc = Some results ->
  (own_count "__proto__" acc = None -> own_count "__proto__" results = None)
  /\ (Forall (fun p => p.2 = Count 0) acc -> Forall (fun p => p.2 = Count 0) results)
  /\ forall k, k <> "__proto__" ->
       own_count k results
       = if bool_decide (Some k ∈ map ToString options) then Some (Count 0)
         else own_count k acc.
Proof.
  induction options as [|opt options IH]; intros acc results; cbn [forEach map].
  { intros [= <-]. split; [done|]. split; [done|]. intros k _.
    rewrite bool_decide_eq_false_2; [done|]. by intros ?%elem_of_nil. }
  unfold tally_option at 1. destruct (ToString opt) as [key|] eqn:Hkey;
    cbn [mbind option_bind]; [|done].
  intros Hrest.
  destruct (IH (set_count key (Count 0) acc) results Hrest) as (Hproto & Hzero & Hk).
  split; [|split].
  - intros H. by apply Hproto, own_set_count_proto.
  - intros H. by apply Hzero, all_zero_set_count.
  - intros k Hne. rewrite (Hk k Hne).
    destruct (decide (Some k ∈ map ToString options)) as [Hin|Hnotin].
    + rewrite !bool_decide_eq_true_2; [done|by right|done].
    + rewrite (bool_decide_eq_false_2 _ Hnotin).
      destruct (decide (key = k)) as [->|Hkey'].
      * rewrite bool_decide_eq_true_2 by (by left). by apply own_set_count_eq.
      * rewrite bool_decide_eq_false_2.
        -- by apply own_set_count_ne.
        -- intros [[= E]|?]%elem_of_cons; congruence.
Qed.

Lemma votes_for_cons k (vote : block) votes :
  votes_for k (vote :: votes)
  = (if bool_decide (candidate_key vote = Some k) then 1 else 0) + votes_for k votes.
Proof.
  unfold votes_for. cbn [List.filter].
  destruct (bool_decide (candidate_key vote = Some k)); cbn [length]; lia.
Qed.

Lemma votes_for_nonneg k votes : 0 <= votes_for k votes.
Proof. unfold votes_for. lia. Qed.

Lemma tally_vote_key (acc acc' : tally) (vote : block) :
  own_count "__proto__" acc = None ->
  tally_vote acc vote = Some acc' ->
  exists key,
    candidate_key vote = Some key
    /\ own_count "__proto__" acc' = None
    /\ (forall k, k <> key -> own_count k acc' = own_count k acc)
    /\ own_count key acc'
       = match own_count key acc with
         | Some (Count n) => Some (Count (n + 1))
         | Some NaN => Some NaN
         | None =>
             if bool_decide (key ∈ Object_prototype)
                && negb (String.eqb key "__proto__")
             then Some NaN else None
         end
    /\ counted acc'
       = counted acc + match own_count key acc with
                       | Some (Count _) => 1
                       | _ => 0
                       end.
Proof.
  intros Hp. unfold tally_vote, candidate_key.
  destruct (ToString (get "candidate" vote)) as [key|]; cbn [mbind option_bind];
    [|done].
  intros H. exists key. split; [done|].
  destruct (String.eqb_spec key "__proto__") as [->|Hproto].
  { rewrite Hp in H |- *. rewrite andb_false_r.
    assert (acc' = acc) as ->; [by case_bool_decide; injection H as <-|].
    repeat (split; [done|]). lia. }
  assert (forall c, set_count key c acc
                    = match own_count key acc with
                      | Some _ => replace_count key c acc
                      | None => insert_count key c acc
                      end) as Hset.
  { intros c. unfold set_count. by destruct (String.eqb_spec key "__proto__"). }
  rewrite andb_true_r.
  destruct (own_count key acc) as [[n|]|] eqn:Hown.
  - injection H as <-. split; [by apply own_set_count_proto|].
    split; [intros k Hk; by apply own_set_count_ne|].
    split; [by apply own_set_count_eq|].
    rewrite Hset, (counted_replace_count _ n) by done. lia.
  - injection H as <-. split; [by apply own_set_count_proto|].
    split; [intros k Hk; by apply own_set_count_ne|].
    split; [by apply own_set_count_eq|].
    rewrite Hset, counted_replace_count_NaN by done. lia.
  - case_bool_decide; injection H as <-.
    + split; [by apply own_set_count_proto|].
      split; [intros k Hk; by apply own_set_count_ne|].
      split; [by apply own_set_count_eq|].
      rewrite Hset, counted_insert_count. cbn [counted]. lia.
    + repeat (split; [done|]). lia.
Qed.

Lemma tally_votes_spec (votes : list block) : forall (acc results : tally),
  own_count "__proto__" acc = None ->
  forEach tally_vote votes acc = Some results ->
  own_count "__proto__" results = None
  /\ forall k,
       own_count k results
       = match own_count k acc with
         | Some (Count n) => Some (Count (n + votes_for k votes))
         | Some NaN => Some NaN
         | None =>
             if bool_decide (k ∈ Object_prototype)
                && negb (String.eqb k "__proto__")
                && bool_decide (0 < votes_for k votes)
             then Some NaN else None
         end.
Proof.
  induction votes as [|vote votes IH]; intros acc results Hp; cbn [forEach].
  { intros [= <-]. split; [done|]. intros k.
    destruct (own_count k acc) as [[n|]|]; [|done|].
    - unfold votes_for. cbn. by rewrite Z.add_0_r.
    - unfold votes_for. cbn. by rewrite andb_false_r. }
  destruct (tally_vote acc vote) as [acc'|] eqn:Hvote; [|done]. intros Hrest.
  destruct (tally_vote_key acc acc' vote Hp Hvote)
    as (key & Hkey & Hp' & Hother & Hown & _).
  destruct (IH acc' results Hp' Hrest) as [Hpr Hk]. split; [done|].
  intros k. rewrite (Hk k), votes_for_cons, Hkey.
  pose proof (votes_for_nonneg k votes) as Hnonneg.
  destruct (decide (k = key)) as [->|Hne].
  - rewrite (bool_decide_eq_true_2 (Some key = Some key)) by done. rewrite Hown.
    destruct (own_count key acc) as [[n|]|]; [f_equal; f_equal; lia|done|].
    destruct (bool_decide (key ∈ Object_prototype) && negb (String.eqb key "__proto__"))
      eqn:Hinherited.
    + cbn [andb]. rewrite bool_decide_eq_true_2; [done|lia].
    + done.
  - rewrite (bool_decide_eq_false_2 (Some key = Some k)) by congruence.
    rewrite Hother by done.
    by rewrite Z.add_0_l.
Qed.

Lemma counted_votes (P : string -> bool) (votes : list block) :
  forall (acc results : tally),
    own_count "__proto__" acc = None ->
    (forall k, P k = true <-> exists n, own_count k acc = Some (Count n)) ->
    forEach tally_vote votes acc = Some results ->
    counted results
    = counted acc
      + Z.of_nat (length (List.filter
                            (fun vote => match candidate_key vote with
                                         | Some k => P k
                                         | None => false
                                         end) votes)).
Proof.
  induction votes as [|vote votes IH]; intros acc results Hp HP; cbn [forEach].
  { intros [= <-]. cbn. lia. }
  destruct (tally_vote acc vote) as [acc'|] eqn:Hvote; [|done]. intros Hrest.
  destruct (tally_vote_key acc acc' vote Hp Hvote)
    as (key & Hkey & Hp' & Hother & Hown & Hcounted).
  rewrite (IH acc' results Hp'); [| |done].
  - rewrite Hcounted. cbn [List.filter]. rewrite Hkey.
    destruct (P key) eqn:HPkey.
    + apply HP in HPkey as [n Hn]. rewrite Hn. cbn [length]. lia.
    + destruct (own_count key acc) as [[n|]|] eqn:Hn; [|lia..].
      assert (P key = true) as E by (apply HP; by exists n). congruence.
  - intros k. rewrite HP. destruct (decide (k = key)) as [->|Hne].
    + rewrite Hown. destruct (own_count key acc) as [[n|]|].
      * split; intros _; by eexists.
      * split; by intros [? [=]].
      * destruct (_ && _); split; by intros [? [=]].
    + by rewrite Hother.
Qed.

(** X16. What [GET /results] counts. After the two loops, the object
    [results] holds, for every option (under its name as a string), the
    number of ballots whose candidate has that name; it never holds
    ["__proto__"], also when that is an option; and it holds [NaN] under
    a name inherited from [Object.prototype] that is no option but the
    candidate of a ballot. It holds nothing else. *)
Theorem results_count_the_ballots_of_each_option (options : list value)
    (votes : list block) (results : tally) (k : string) :
  tally_of options votes = Some results ->
  own_count k results
  = if String.eqb k "__proto__" then None
    else if bool_decide (Some k ∈ map ToString options)
         then Some (Count (votes_for k votes))
         else if bool_decide (k ∈ Object_prototype)
                 && bool_decide (0 < votes_for k votes)
              then Some NaN
              else None.
Proof.
  unfold tally_of.
  destruct (forEach tally_option options []) as [r0|] eqn:Hinit;
    cbn [mbind option_bind]; [|done].
  intros Hvotes.
  destruct (tally_options_spec options [] r0 Hinit) as (Hp0 & _ & Hk0).
  destruct (tally_votes_spec votes r0 results (Hp0 eq_refl) Hvotes) as [Hp Hk].
  destruct (String.eqb_spec k "__proto__") as [->|Hne]; [done|].
  rewrite (Hk k), (Hk0 k Hne). cbn [own_count].
  case_bool_decide; [by rewrite Z.add_0_l|].
  apply String.eqb_neq in Hne. rewrite Hne. cbn [negb]. by rewrite andb_true_r.
Qed.

Lemma counted_tally_of (options : list value) (votes : list block)
    (results : tally) :
  tally_of options votes = Some results ->
  counted results
  = Z.of_nat (length (List.filter (names_an_option options) votes)).
Proof.
  unfold tally_of.
  destruct (forEach tally_option options []) as [r0|] eqn:Hinit;
    cbn [mbind option_bind]; [|done].
  intros Hvotes.
  destruct (tally_options_spec options [] r0 Hinit) as (Hp0 & Hzero & Hk0).
  specialize (Hp0 eq_refl). specialize (Hzero (Forall_nil_2 _)).
  rewrite (counted_votes
             (fun k => negb (String.eqb k "__proto__")
                       && bool_decide (Some k ∈ map ToString options))
             votes r0 results Hp0); [| |done].
  - by rewrite (all_zero_counted r0 Hzero), Z.add_0_l.
  - intros k. destruct (String.eqb_spec k "__proto__") as [->|Hne]; cbn [negb andb].
    + rewrite Hp0. split; [done|by intros [? [=]]].
    + rewrite (Hk0 k Hne). cbn [own_count]. case_bool_decide.
      * split; [by eexists|done].
      * split; [done|by intros [? [=]]].
Qed.

(** X17. The counts of [GET /results] add up to the number of ballots
    whose candidate is one of the options under a name other than
    ["__proto__"]; so they never exceed [totalVotes], and they add up to
    it when every ballot names such an option. *)
Theorem results_add_up_to_the_ballots_for_options (options : list value)
    (votes : list block) (results : tally) :
  tally_of options votes = Some results ->
  counted results
  = Z.of_nat (length (List.filter (names_an_option options) votes))
  /\ counted results <= Z.of_nat (length votes)
  /\ (Forall (fun vote => names_an_option options vote = true) votes ->
      counted results = Z.of_nat (length votes)).
Proof.
  intros Htally. rewrite (counted_tally_of options votes results Htally).
  split; [done|]. split; [apply Nat2Z.inj_le, filter_length_le|].
  intros Hall. by rewrite (filter_all (names_an_option options)).
Qed.

Lemma results_count_the_ballots_of_each_option_witness :
  own_count "A" [("A", Count 2); ("B", Count 0); ("toString", NaN)]
  = if String.eqb "A" "__proto__" then None
    else if bool_decide (Some "A" ∈ map ToString [VStr "A"; VStr "B"])
         then Some (Count (votes_for "A" three_ballots))
         else if bool_decide ("A" ∈ Object_prototype)
                 && bool_decide (0 < votes_for "A" three_ballots)
              then Some NaN
              else None.
Proof.
  apply (results_count_the_ballots_of_each_option [VStr "A"; VStr "B"]
           three_ballots).
  reflexivity.
Defined.

Lemma results_add_up_to_the_ballots_for_options_witness :
  counted [("A", Count 2); ("B", Count 0); ("toString", NaN)]
  = Z.of_nat (length (List.filter (names_an_option [VStr "A"; VStr "B"])
                        three_ballots))
  /\ counted [("A", Count 2); ("B", Count 0); ("toString", NaN)]
     <= Z.of_nat (length three_ballots)
  /\ (Forall (fun vote => names_an_option [VStr "A"; VStr "B"] vote = true)
        three_ballots ->
      counted [("A", Count 2); ("B", Count 0); ("toString", NaN)]
      = Z.of_nat (length three_ballots)).
Proof.
  apply (results_add_up_to_the_ballots_for_options [VStr "A"; VStr "B"]
           three_ballots).
  reflexivity.
Defined.

(** ** The read-only endpoints *)

Lemma first_failure_below (l : list block) (n : nat) :
  (forall j, (j < n)%nat -> failure_at l j = None)
  \/ exists j, (j < n)%nat /\ failure_at l j <> None
               /\ forall j', (j' < j)%nat -> failure_at l j' = None.
Proof.
  induction n as [|n [IH|(j & Hj & Hf & Hfirst)]].
  - left. lia.
  - destruct (failure_at l n) as [f|] eqn:Hn.
    + right. exists n. split; [lia|]. split; [by rewrite Hn|done].
    + left. intros j Hj. destruct (decide (j = n)) as [->|]; [done|]. apply IH. lia.
  - right. exists j. split; [lia|done].
Qed.

Lemma first_failure (l : list block) (i : nat) :
  failure_at l i <> None ->
  exists j b f,
    (j <= i)%nat /\ l !! j = Some b /\ failure_at l j = Some f
    /\ forall j', (j' < j)%nat -> failure_at l j' = None.
Proof.
  intros Hi. destruct (first_failure_below l (S i)) as [Hnone|(j & Hj & Hf & Hfirst)].
  - destruct Hi. apply Hnone. lia.
  - destruct (failure_at l j) as [f|] eqn:Hfj; [|done].
    assert (exists b, l !! j = Some b) as [b Hb].
    { unfold failure_at in Hfj. destruct (l !! j); [by eexists|done]. }
    exists j, b, f. split; [lia|done].
Qed.

Lemma isValidHash_debug_entry (b : block) :
  prop "isValidHash" (debug_entry b) = VBool (isBlockValid b).
Proof.
  unfold isBlockValid.
  rewrite (strict_eq_sym (get "hash" b) (VStr (createHash b))). reflexivity.
Qed.

(** X18. [GET /validate] always answers with status 200 and leaves the
    collection as it is: its body is the diagnosis of one sorted read of
    the collection, with [valid: true] exactly when no entry of that read
    fails, or, when the read failed, [valid: false] with the error. A
    corrupted chain is therefore reported with status 200 too. *)
Theorem validate_always_answers_200 (st : list block) (tr : list event)
    (r : response) (st' : list block) :
  run validate st tr r st' ->
  status r = 200 /\ st' = st
  /\ ((exists l,
         tr = [EvFindSortedAsc (Resolved l)] /\ sorted_read st l
         /\ body r = validation_value (validateChain_body l)
         /\ (prop "valid" (body r) = VBool true <-> forall i, failure_at l i = None))
      \/ (exists e,
            tr = [EvFindSortedAsc (Rejected e)]
            /\ body r = VObj [("valid", VBool false);
                              ("message", VStr "Помилка при валідації ланцюга");
                              ("error", VStr e)])).
Proof.
  unfold validate.
  intros (v & st1 & tr1 & tr2 & -> & Hv & (-> & -> & ->))%run_mbind.
  apply run_validateChain in Hv as (-> & [(l & -> & Hl & ->)|(e & -> & ->)]).
  - split; [done|]. split; [done|]. left. exists l.
    split; [done|]. split; [done|]. split; [done|].
    rewrite <-valid_iff_no_failure. cbn [body validation_value prop get].
    cbn [String.eqb Ascii.eqb Bool.eqb]. split; [by intros [= ->]|by intros ->].
  - split; [done|]. split; [done|]. right. by exists e.
Qed.

(** X19. [GET /debug/chain] lists every document of one sorted read, and
    its [isValidHash] agrees with the validator: when the validator
    accepts that read every entry is listed with [isValidHash: true], and
    when an entry is listed with [isValidHash: false] the validator
    rejects the read because of an entry at that index or before, whose
    index it reports when the [_id] of that entry can be printed (it
    reports no index when it cannot). When the read fails the answer is
    500 with the error. The collection is left as it is. *)
Theorem debug_chain_agrees_with_validateChain (st : list block)
    (tr : list event) (r : response) (st' : list block) :
  run debug_chain st tr r st' ->
  st' = st
  /\ ((exists l,
         sorted_read st l
         /\ r = Response 200
                  (VObj [("blockCount", VNum (Z.of_nat (length st)));
                         ("blocks", VArr (map debug_entry l))])
         /\ (forall i b, l !! i = Some b ->
               prop "_id" (debug_entry b) = get "_id" b
               /\ prop "hash" (debug_entry b) = get "hash" b
               /\ prop "previousHash" (debug_entry b) = get "previousHash" b)
         /\ (valid (validateChain_body l) = true ->
             forall i b, l !! i = Some b ->
               prop "isValidHash" (debug_entry b) = VBool true)
         /\ (forall i b, l !! i = Some b ->
               prop "isValidHash" (debug_entry b) = VBool false ->
               exists j b',
                 (j <= i)%nat /\ l !! j = Some b'
                 /\ valid (validateChain_body l) = false
                 /\ blockIndex (validateChain_body l)
                    = if converts (get "_id" b') then Some j else None))
      \/ (exists e,
            r = Response 500
                  (VObj [("error", VStr "Помилка при отриманні дебаг-інформації");
                         ("details", VStr e)]))).
Proof.
  unfold debug_chain, await. cbn [run].
  intros (out & st1 & tr1 & -> & [-> Hop] & H).
  destruct out as [l|e]; cbn [run] in H; destruct H as (-> & -> & ->);
    (split; [done|]); [left|right; by exists e].
  exists l. split; [done|]. destruct Hop as [Hperm _].
  split; [by rewrite (Permutation_length Hperm)|]. split; [done|]. split.
  - intros Hvalid i b Hb. rewrite isValidHash_debug_entry. f_equal.
    apply (no_failure_isBlockValid l); [by apply valid_iff_no_failure|].
    by eapply list_elem_of_lookup_2.
  - intros i b Hb Hbad. rewrite isValidHash_debug_entry in Hbad.
    injection Hbad as Hbad.
    assert (failure_at l i <> None) as Hfail.
    { unfold failure_at, entry_failure.
      by rewrite Hb, <- isBlockValid_digest, Hbad. }
    destruct (first_failure l i Hfail) as (j & b' & f & Hj & Hb' & Hf & Hfirst).
    exists j, b'. split; [done|]. split; [done|].
    rewrite (validateChain_body_first_failure l j b' f) by done.
    unfold failure_report. by destruct (converts (get "_id" b')).
Qed.

Lemma run_validate_entry0 t0 :
  run validate [entry0 t0] [EvFindSortedAsc (Resolved [entry0 t0])]
    (validate_answer t0) [entry0 t0].
Proof.
  unfold validate. apply run_mbind.
  exists (validateChain_body [entry0 t0]), [entry0 t0],
    [EvFindSortedAsc (Resolved [entry0 t0])], [].
  split; [done|]. split; [|done]. apply run_validateChain. split; [done|].
  left. exists [entry0 t0]. split; [done|]. split; [apply sorted_read_singleton|done].
Qed.

Lemma run_debug_chain_tampered :
  run debug_chain [tampered_block] [EvFindSortedAsc (Resolved [tampered_block])]
    debug_answer [tampered_block].
Proof.
  unfold debug_chain, await. cbn [run].
  exists (Resolved [tampered_block]), [tampered_block], []. split; [done|].
  split; [split; [done|apply sorted_read_singleton]|]. done.
Qed.

Lemma validate_always_answers_200_witness :
  status (validate_answer 1700000000000) = 200
  /\ [entry0 1700000000000] = [entry0 1700000000000]
  /\ ((exists l,
         [EvFindSortedAsc (Resolved [entry0 1700000000000])]
         = [EvFindSortedAsc (Resolved l)]
         /\ sorted_read [entry0 1700000000000] l
         /\ body (validate_answer 1700000000000)
            = validation_value (validateChain_body l)
         /\ (prop "valid" (body (validate_answer 1700000000000)) = VBool true
             <-> forall i, failure_at l i = None))
      \/ (exists e,
            [EvFindSortedAsc (Resolved [entry0 1700000000000])]
            = [EvFindSortedAsc (Rejected e)]
            /\ body (validate_answer 1700000000000)
               = VObj [("valid", VBool false);
                       ("message", VStr "Помилка при валідації ланцюга");
                       ("error", VStr e)])).
Proof.
  exact (validate_always_answers_200 _ _ _ _ (run_validate_entry0 1700000000000)).
Defined.

Lemma debug_chain_agrees_with_validateChain_witness :
  [tampered_block] = [tampered_block]
  /\ ((exists l,
         sorted_read [tampered_block] l
         /\ debug_answer
            = Response 200
                (VObj [("blockCount", VNum (Z.of_nat (length [tampered_block])));
                       ("blocks", VArr (map debug_entry l))])
         /\ (forall i b, l !! i = Some b ->
               prop "_id" (debug_entry b) = get "_id" b
               /\ prop "hash" (debug_entry b) = get "hash" b
               /\ prop "previousHash" (debug_entry b) = get "previousHash" b)
         /\ (valid (validateChain_body l) = true ->
             forall i b, l !! i = Some b ->
               prop "isValidHash" (debug_entry b) = VBool true)
         /\ (forall i b, l !! i = Some b ->
               prop "isValidHash" (debug_entry b) = VBool false ->
               exists j b',
                 (j <= i)%nat /\ l !! j = Some b'
                 /\ valid (validateChain_body l) = false
                 /\ blockIndex (validateChain_body l)
                    = if converts (get "_id" b') then Some j else None))
      \/ (exists e,
            debug_answer
            = Response 500
                (VObj [("error", VStr "Помилка при отриманні дебаг-інформації");
                       ("details", VStr e)]))).
Proof.
  exact (debug_chain_agrees_with_validateChain _ _ _ _ run_debug_chain_tampered).
Defined.

(** The tampered document is listed with [isValidHash: false], and the
    validator rejects the collection at its index. *)
Example tampered_block_is_listed_invalid :
  prop "isValidHash" (debug_entry tampered_block) = VBool false
  /\ blockIndex (validateChain_body [tampered_block]) = Some 0%nat.
Proof. split; vm_compute; reflexivity. Qed.

(** ** Results of a collection built through the handlers *)





Section Ledger.

Variable Date_parse : string -> option Z.



End Ledger.




Section Results.

Variable Date_parse : string -> option Z.


End Results.


Lemma handled_two_entries : handled_in_turn parse_nothing two_entries.
Proof.
  eapply (handled_vote _ [entry0 1700000000000] vote_request "u1" "v1");
    [apply handled_entry0|reflexivity|reflexivity|].
  apply (run_vote_request 1700000000000 1700000000001 1700000000002). lia.
Qed.


(** ** Identity resolution *)

(** X21. [getUserRole] never changes the collection, and it asks the
    authentication server only when the lookup in the database failed:
    a user that is not found gives [null] at once, and a user that is
    found gives a role made of the identifier asked for, the group of the
    user, and a status that is never empty, ["user"] when the user has
    none. When the lookup failed, the next thing it does is to ask the
    authentication server for the path [/user-role/] followed by the
    identifier, if the identifier can be printed; if it cannot, it gives
    [null] without asking. *)
Theorem getUserRole_asks_the_database_first (userId : value) (st : list block)
    (tr : list event) (r : value) (st' : list block) :
  run (getUserRole userId) st tr r st' ->
  st' = st
  /\ (forall found,
        tr !! 0%nat = Some (EvFindUser userId (Resolved found)) ->
        tr = [EvFindUser userId (Resolved found)]
        /\ match found with
           | None => r = VNull
           | Some user =>
               keys match r with VObj o => o | _ => [] end
               = ["userId"; "status"; "groupId"]
               /\ prop "userId" r = userId
               /\ prop "groupId" r = get "groupId" user
               /\ truthy (prop "status" r) = true
               /\ (truthy (get "status" user) = true ->
                   prop "status" r = get "status" user)
               /\ (truthy (get "status" user) = false ->
                   prop "status" r = VStr "user")
           end)
  /\ (forall e,
        tr !! 0%nat = Some (EvFindUser userId (Rejected e)) ->
        if converts userId
        then exists out, tr !! 1%nat = Some (EvFetch (role_url userId) out)
        else tr = [EvFindUser userId (Rejected e)] /\ r = VNull).
Proof.
  intros [-> Hrun]%run_getUserRole. split; [done|]. split.
  - intros found Hfirst. destruct Hrun; cbn in Hfirst; try discriminate Hfirst.
    + injection Hfirst as <-. done.
    + injection Hfirst as <-. split; [done|]. cbn [keys map fst prop get].
      cbn [String.eqb Ascii.eqb Bool.eqb]. repeat (split; [done|]).
      destruct (truthy (get "status" user)) eqn:Hs; by repeat split.
  - intros e Hfirst.
    destruct Hrun as [|user|e0 Hc|e0 e' Hc|e0 resp Hc H|e0 resp e' Hc H
                      |e0 resp answer Hc H];
      cbn in Hfirst; try discriminate Hfirst; rewrite Hc;
      [injection Hfirst as <-; done|by eexists..].
Qed.

Lemma getUserRole_asks_the_database_first_witness :
  @nil block = []
  /\ (forall found,
        role_from_server_events !! 0%nat
        = Some (EvFindUser (VStr "65f0000000000000000000a1") (Resolved found)) ->
        role_from_server_events
        = [EvFindUser (VStr "65f0000000000000000000a1") (Resolved found)]
        /\ match found with
           | None => VObj [("status", VStr "admin")] = VNull
           | Some user =>
               keys match VObj [("status", VStr "admin")] with
                    | VObj o => o
                    | _ => []
                    end
               = ["userId"; "status"; "groupId"]
               /\ prop "userId" (VObj [("status", VStr "admin")])
                  = VStr "65f0000000000000000000a1"
               /\ prop "groupId" (VObj [("status", VStr "admin")])
                  = get "groupId" user
               /\ truthy (prop "status" (VObj [("status", VStr "admin")])) = true
               /\ (truthy (get "status" user) = true ->
                   prop "status" (VObj [("status", VStr "admin")])
                   = get "status" user)
               /\ (truthy (get "status" user) = false ->
                   prop "status" (VObj [("status", VStr "admin")]) = VStr "user")
           end)
  /\ (forall e,
        role_from_server_events !! 0%nat
        = Some (EvFindUser (VStr "65f0000000000000000000a1") (Rejected e)) ->
        if converts (VStr "65f0000000000000000000a1")
        then exists out,
               role_from_server_events !! 1%nat
               = Some (EvFetch (role_url (VStr "65f0000000000000000000a1")) out)
        else role_from_server_events
             = [EvFindUser (VStr "65f0000000000000000000a1") (Rejected e)]
             /\ VObj [("status", VStr "admin")] = VNull).
Proof.
  apply (getUserRole_asks_the_database_first (VStr "65f0000000000000000000a1") []).
  apply run_getUserRole. split; [done|].
  by apply (role_from_api (VStr "65f0000000000000000000a1") "connection closed"
              (HttpResponse true 200) (VObj [("status", VStr "admin")])).
Defined.

(** The path asked of the authentication server in this run. *)
Example role_from_server_path :
  role_from_server_events !! 1%nat
  = Some (EvFetch "/user-role/65f0000000000000000000a1"
            (Resolved (HttpResponse true 200))).
Proof. reflexivity. Qed.

(** *** When the results cannot be computed *)

Lemma forEach_tally_option (options : list value) : forall acc,
  match forEach tally_option options acc with
  | Some _ => forallb converts options = true
  | None => forallb converts options = false
  end.
Proof.
  induction options as [|opt options IH]; intros acc; [done|].
  cbn [forEach forallb]. unfold tally_option at 1, converts at 1 3.
  destruct (ToString opt) as [key|]; cbn [mbind option_bind andb]; [|done].
  apply IH.
Qed.

Lemma forEach_tally_vote (votes : list block) : forall acc,
  match forEach tally_vote votes acc with
  | Some _ => forallb (fun vote => converts (get "candidate" vote)) votes = true
  | None => forallb (fun vote => converts (get "candidate" vote)) votes = false
  end.
Proof.
  induction votes as [|vote votes IH]; intros acc; [done|].
  cbn [forEach forallb]. unfold tally_vote at 1, converts at 1 3.
  destruct (ToString (get "candidate" vote)) as [key|];
    cbn [mbind option_bind andb]; [|done].
  destruct (own_count key acc) as [[n|]|]; [apply IH..|].
  case_bool_decide; apply IH.
Qed.

Section ResultsFail.

Variable Date_parse : string -> option Z.

(** X22. When the definition and the ballots have been read and the
    options are an array, [GET /results] answers with the tally, the
    title of the definition and the number of ballots read exactly when
    every option, the candidate of every ballot and the end date can be
    turned into a string; otherwise it answers 500. One option that is an
    object with a property named [toString] is enough for that. *)
Theorem results_fail_exactly_on_unnamed_options (voteId : string) (vb : block)
    (options : list value) (votes : list block) (now : Z) :
  get "options" vb = VArr options ->
  if forallb converts options
     && forallb (fun vote => converts (get "candidate" vote)) votes
     && converts (get "endDate" vb)
  then exists counts,
         tally_of options votes = Some counts
         /\ results Date_parse voteId (Resolved (Some vb)) (Resolved votes) now
            = ResultsOk
                (ResultsAnswer voteId (get "title" vb) (Z.of_nat (length votes))
                   counts (results_isActive Date_parse vb now))
  else results Date_parse voteId (Resolved (Some vb)) (Resolved votes) now
       = ResultsFailed 500
           (error_body "Помилка при отриманні результатів голосування").
Proof.
  intros Hoptions. unfold results. rewrite Hoptions. unfold tally_of.
  pose proof (forEach_tally_option options []) as Hinit.
  destruct (forEach tally_option options []) as [r0|]; rewrite Hinit;
    cbn [mbind option_bind andb]; [|done].
  pose proof (forEach_tally_vote votes r0) as Hvotes.
  destruct (forEach tally_vote votes r0) as [counts|]; rewrite Hvotes;
    cbn [andb]; [|done].
  unfold converts. destruct (ToString (get "endDate" vb)); [|done].
  by exists counts.
Qed.

End ResultsFail.

Lemma results_fail_exactly_on_unnamed_options_witness :
  if forallb converts [VStr "A"; VObj [("toString", VNum 1)]]
     && forallb (fun vote => converts (get "candidate" vote)) three_ballots
     && converts (get "endDate" unnamed_option_definition)
  then exists counts,
         tally_of [VStr "A"; VObj [("toString", VNum 1)]] three_ballots
         = Some counts
         /\ results parse_nothing "v3" (Resolved (Some unnamed_option_definition))
              (Resolved three_ballots) 1700000000003
            = ResultsOk
                (ResultsAnswer "v3" (get "title" unnamed_option_definition)
                   (Z.of_nat (length three_ballots)) counts
                   (results_isActive parse_nothing unnamed_option_definition
                      1700000000003))
  else results parse_nothing "v3" (Resolved (Some unnamed_option_definition))
         (Resolved three_ballots) 1700000000003
       = ResultsFailed 500
           (error_body "Помилка при отриманні результатів голосування").
Proof.
  apply (results_fail_exactly_on_unnamed_options parse_nothing "v3"
           unnamed_option_definition [VStr "A"; VObj [("toString", VNum 1)]]
           three_ballots 1700000000003).
  reflexivity.
Defined.
(** ** Without the database *)

Section Disconnected.

Variable Date_parse : string -> option Z.

(** X23. While no operation on the collections succeeds, nothing is
    stored and nothing is listed: in a run that observes no successful
    operation on a collection, [POST /vote] and [POST /create_vote] are
    refused, [GET /validate] answers 200 with [valid: false], and
    [GET /chain] and [GET /debug/chain] answer 500; the collection is
    left as it is. *)
Theorem nothing_is_served_without_the_database (st : list block) :
  (forall reqBody tr r st',
      run (vote Date_parse reqBody) st tr r st' -> Forall database_failed tr ->
      st' = st /\ refused r)
  /\ (forall reqBody tr r st',
        run (create_vote Date_parse reqBody) st tr r st' ->
        Forall database_failed tr ->
        st' = st /\ refused r)
  /\ (forall tr r st',
        run validate st tr r st' -> Forall database_failed tr ->
        st' = st /\ status r = 200 /\ prop "valid" (body r) = VBool false)
  /\ (forall userGroupId tr r st',
        run (chain userGroupId) st tr r st' -> Forall database_failed tr ->
        st' = st /\ status r = 500)
  /\ (forall tr r st',
        run debug_chain st tr r st' -> Forall database_failed tr ->
        st' = st /\ status r = 500).
Proof.
  split; [|split; [|split; [|split]]].
  - intros reqBody tr r st'
      [(tr_check & vb & tr_add & res & -> & _ & _ & _ & Hcheck & _)|H]%run_vote_cases
      Hdown; [|done].
    apply run_canUserVote_accept in Hcheck
      as (tr_role & userInfo & vb' & now & -> & _); [|done].
    apply Forall_app in Hdown as [Hdown _]. apply Forall_app in Hdown as [_ Hdown].
    apply Forall_cons in Hdown as [Hbad _]. destruct Hbad.
  - intros reqBody tr r st'
      [(tr_role & userInfo & currentDate & clock & finalEndDate & tr_add & res
        & -> & _)|H]%run_create_vote_cases Hdown; [|done].
    apply Forall_app in Hdown as [_ Hdown].
    apply Forall_cons in Hdown as [Hbad _]. destruct Hbad.
  - unfold validate.
    intros tr r st' (v & st1 & tr1 & tr2 & -> & Hv & (-> & -> & ->))%run_mbind Hdown.
    apply run_validateChain in Hv as (-> & [(l & -> & Hl & ->)|(e & -> & ->)]).
    + apply Forall_cons in Hdown as [Hbad _]. destruct Hbad.
    + done.
  - intros g tr r st'. unfold chain, await. cbn [run].
    intros (out & st1 & tr1 & -> & [-> Hop] & H) Hdown.
    apply Forall_cons in Hdown as [Hbad _].
    destruct out as [l|e]; [destruct Hbad|]. by destruct H as (_ & -> & ->).
  - intros tr r st'. unfold debug_chain, await. cbn [run].
    intros (out & st1 & tr1 & -> & [-> Hop] & H) Hdown.
    apply Forall_cons in Hdown as [Hbad _].
    destruct out as [l|e]; [destruct Hbad|]. by destruct H as (_ & -> & ->).
Qed.

End Disconnected.

(** *** Runs without the database *)

Lemma run_disconnected_vote st :
  run (vote parse_nothing vote_request) st disconnected_vote_events
    disconnected_vote_answer st.
Proof.
  unfold vote, vote_request.
  cbn [get String.eqb Ascii.eqb Bool.eqb truthy negb orb].
  apply run_mbind.
  exists (VoteCheck false (Some "Помилка сервера при перевірці права голосу") None),
    st, disconnected_vote_events, [].
  split; [done|]. split; [|done]. apply run_canUserVote.
  eexists [_; _; _], (VObj [("status", VStr "user")]), [_]. split; [done|].
  split; [by apply role_from_api|].
  cbn [truthy prop get String.eqb Ascii.eqb Bool.eqb strict_eq andb].
  unfold remaining_checks, await. cbn [run].
  by eexists (Rejected "down"), st, [].
Qed.

Lemma run_disconnected_create st :
  run (create_vote parse_nothing create_request) st disconnected_create_events
    disconnected_create_answer st.
Proof.
  unfold create_vote, create_request.
  cbn [get String.eqb Ascii.eqb Bool.eqb truthy negb orb isArray].
  apply run_mbind.
  eexists (VObj [("status", VStr "admin")]), st, [_; _; _], [_]. split; [done|].
  split; [apply run_getUserRole; split; [done|by apply role_from_api]|].
  cbn [truthy prop get String.eqb Ascii.eqb Bool.eqb strict_eq negb orb].
  unfold await. cbn [run]. by eexists (Rejected "down"), st, [].
Qed.

Lemma run_disconnected_validate st :
  run validate st [EvFindSortedAsc (Rejected "down")] disconnected_validate_answer st.
Proof.
  unfold validate. apply run_mbind.
  exists (validation_read_error "down"), st, [EvFindSortedAsc (Rejected "down")], [].
  split; [done|]. split; [|done]. apply run_validateChain. split; [done|].
  right. by exists "down".
Qed.

Lemma run_disconnected_chain g st :
  run (chain g) st [EvFindAll (Rejected "down")] disconnected_chain_answer st.
Proof. unfold chain, await. cbn [run]. by eexists (Rejected "down"), st, []. Qed.

Lemma run_disconnected_debug st :
  run debug_chain st [EvFindSortedAsc (Rejected "down")] disconnected_debug_answer st.
Proof. unfold debug_chain, await. cbn [run]. by eexists (Rejected "down"), st, []. Qed.

Lemma nothing_is_served_without_the_database_witness :
  (run (vote parse_nothing vote_request) [entry0 1700000000000]
     disconnected_vote_events disconnected_vote_answer [entry0 1700000000000]
   /\ [entry0 1700000000000] = [entry0 1700000000000]
   /\ refused disconnected_vote_answer)
  /\ (run (create_vote parse_nothing create_request) [entry0 1700000000000]
        disconnected_create_events disconnected_create_answer
        [entry0 1700000000000]
      /\ [entry0 1700000000000] = [entry0 1700000000000]
      /\ refused disconnected_create_answer)
  /\ (run validate [entry0 1700000000000] [EvFindSortedAsc (Rejected "down")]
        disconnected_validate_answer [entry0 1700000000000]
      /\ [entry0 1700000000000] = [entry0 1700000000000]
      /\ status disconnected_validate_answer = 200
      /\ prop "valid" (body disconnected_validate_answer) = VBool false)
  /\ (run (chain (VStr "g1")) [entry0 1700000000000] [EvFindAll (Rejected "down")]
        disconnected_chain_answer [entry0 1700000000000]
      /\ [entry0 1700000000000] = [entry0 1700000000000]
      /\ status disconnected_chain_answer = 500)
  /\ (run debug_chain [entry0 1700000000000] [EvFindSortedAsc (Rejected "down")]
        disconnected_debug_answer [entry0 1700000000000]
      /\ [entry0 1700000000000] = [entry0 1700000000000]
      /\ status disconnected_debug_answer = 500).
Proof.
  destruct (nothing_is_served_without_the_database parse_nothing
              [entry0 1700000000000]) as (Hvote & Hcreate & Hvalidate & Hchain & Hdebug).
  split; [|split; [|split; [|split]]].
  - split; [apply run_disconnected_vote|].
    apply (Hvote _ _ _ _ (run_disconnected_vote _)). repeat constructor.
  - split; [apply run_disconnected_create|].
    apply (Hcreate _ _ _ _ (run_disconnected_create _)). repeat constructor.
  - split; [apply run_disconnected_validate|].
    apply (Hvalidate _ _ _ (run_disconnected_validate _)). repeat constructor.
  - split; [apply run_disconnected_chain|].
    apply (Hchain _ _ _ _ (run_disconnected_chain (VStr "g1") _)). repeat constructor.
  - split; [apply run_disconnected_debug|].
    apply (Hdebug _ _ _ (run_disconnected_debug _)). repeat constructor.
Defined.
(** ** Uniqueness, on requests that come a second time *)

Lemma is_definition_entry0 t : is_definition_of "v1" (entry0 t).
Proof. unfold is_definition_of, entry0. by rewrite !get_stored_field by done. Qed.

(** The voter u1 asks again to vote in v1: the ballot is found and the
    request is refused. *)
Lemma run_duplicate_vote :
  run (vote parse_nothing vote_request) two_entries duplicate_vote_events
    duplicate_vote_answer two_entries.
Proof.
  unfold vote, vote_request.
  cbn [get String.eqb Ascii.eqb Bool.eqb truthy negb orb].
  apply run_mbind.
  exists (VoteCheck false (Some "Ви вже віддали голос за це голосування") None),
    two_entries, duplicate_vote_events, [].
  split; [done|]. split; [|done]. apply run_canUserVote.
  eexists [_], _, [_]. split; [done|]. split; [apply role_found|].
  cbn [get String.eqb Ascii.eqb Bool.eqb truthy prop strict_eq andb negb].
  unfold remaining_checks, await. cbn [run].
  eexists (Resolved (Some _)), two_entries, []. split; [done|]. split; [|done].
  split; [done|]. split; [right; by left|].
  fold (ballot_filter (VStr "u1") (VStr "v1")).
  by rewrite (matches_ballot_filter "u1" "v1" _ (is_ballot_entry1 _ _)).
Qed.

(** The administrator a1 asks again to create v1: the definition is found
    and the request is refused. *)
Lemma run_duplicate_create :
  run (create_vote parse_nothing create_request) two_entries duplicate_create_events
    duplicate_create_answer two_entries.
Proof.
  unfold create_vote, create_request.
  cbn [get String.eqb Ascii.eqb Bool.eqb truthy negb orb isArray].
  apply run_mbind. eexists _, two_entries, [_], [_]. split; [done|].
  split; [apply run_getUserRole; split; [done|apply role_found]|].
  cbn [get String.eqb Ascii.eqb Bool.eqb truthy prop strict_eq negb orb].
  unfold await. cbn [run].
  eexists (Resolved (Some _)), two_entries, []. split; [done|]. split; [|done].
  split; [done|]. split; [by left|].
  fold (definition_filter (VStr "v1")).
  by rewrite (matches_definition_filter "v1" _ (is_definition_entry0 _)).
Qed.

(** The vote v1 is created, u1 casts a ballot, then both requests come a
    second time. *)
Lemma handled_with_duplicates : handled_in_turn parse_nothing two_entries.
Proof.
  eapply (handled_create _ two_entries create_request "v1");
    [|reflexivity|apply run_duplicate_create].
  eapply (handled_vote _ two_entries vote_request "u1" "v1");
    [|reflexivity|reflexivity|apply run_duplicate_vote].
  apply handled_two_entries.
Qed.

Lemma unique_entries_in_turn_witness :
  run (vote parse_nothing vote_request) two_entries duplicate_vote_events
    duplicate_vote_answer two_entries
  /\ run (create_vote parse_nothing create_request) two_entries
       duplicate_create_events duplicate_create_answer two_entries
  /\ unique_entries two_entries.
Proof.
  split; [apply run_duplicate_vote|]. split; [apply run_duplicate_create|].
  apply (unique_entries_in_turn parse_nothing two_entries).
  apply handled_with_duplicates.
Defined.
